(** * The authentication flow of the base abstracted account

    A shallow embedding of [x/accounts/defaults/base/account.go]:
    [Account.Authenticate], [parseSignMode], [Account.computeSignerData],
    [Account.getNumber] and [Account.getTxData], followed by the properties
    of the flow: who may call it, which errors it reports and in which order,
    and what it does to the account's sequence counter and public key.

    Go values are modelled as follows.
    - [uint64] and [uint32] values are [N]; [int32] enumerations are [Z].
      The source copies and compares them and does no arithmetic on them.
    - [[]byte] is [list byte]; [string] is [string].
    - Messages are as the protobuf decoder builds them: a field holding a
      message is a pointer, nil when the field is absent, and is an [option]
      here; the elements of a repeated field and the message inside a oneof
      case are never nil.  Dereferencing [None] is a run-time panic, and so
      is indexing a slice out of range.
    - A function returning [(T, error)] returns an [outcome T], which also
      records a panic raised on the way.
    - The key-value store reached through [ctx] is the explicit [Store]
      threaded through the state monad [M]. *)

From stdpp Require Import base option list gmap strings.
From Stdlib Require Import Strings.Byte NArith ZArith.

#[local] Open Scope N_scope.

(** ** Bytes *)

#[global] Instance byte_eq_dec : EqDecision byte := Byte.byte_eq_dec.

(** [flip_nth_bit k b] inverts bit [k] (0 is the least significant) of [b];
    for [k] above 7 the byte is unchanged. *)
Definition flip_nth_bit (k : nat) (b : byte) : byte :=
  let '(b0, (b1, (b2, (b3, (b4, (b5, (b6, b7))))))) := Byte.to_bits b in
  Byte.of_bits
    match k with
    | 0%nat => (negb b0, (b1, (b2, (b3, (b4, (b5, (b6, b7)))))))
    | 1%nat => (b0, (negb b1, (b2, (b3, (b4, (b5, (b6, b7)))))))
    | 2%nat => (b0, (b1, (negb b2, (b3, (b4, (b5, (b6, b7)))))))
    | 3%nat => (b0, (b1, (b2, (negb b3, (b4, (b5, (b6, b7)))))))
    | 4%nat => (b0, (b1, (b2, (b3, (negb b4, (b5, (b6, b7)))))))
    | 5%nat => (b0, (b1, (b2, (b3, (b4, (negb b5, (b6, b7)))))))
    | 6%nat => (b0, (b1, (b2, (b3, (b4, (b5, (negb b6, b7)))))))
    | 7%nat => (b0, (b1, (b2, (b3, (b4, (b5, (b6, negb b7)))))))
    | _ => (b0, (b1, (b2, (b3, (b4, (b5, (b6, b7)))))))
    end.

(** [flip_bit i bs] inverts bit [i mod 8] of byte [i / 8] of [bs]; a
    position past the end leaves [bs] as it is. *)
Definition flip_bit (i : nat) (bs : list byte) : list byte :=
  match bs !! (i / 8)%nat with
  | Some b => <[(i / 8)%nat := flip_nth_bit (i mod 8)%nat b]> bs
  | None => bs
  end.

(** ** Errors and outcomes *)

(** The error kinds of the specification's taxonomy. *)
Inductive ErrorKind :=
| Unauthorized
| MalformedRequest
| AccountNotFound
| SequenceMismatch
| UnsupportedSignMode
| SignatureInvalid
| Unavailable.

(** The [error] values the flow can return.  The source builds its own with
    [fmt.Errorf]; errors of collaborators are returned unchanged and are
    kept as their message. *)
Inductive Error :=
| ErrUnauthorized
    (* "unauthorized: only accounts module is allowed to call this" *)
| ErrUnexpectedSequence (wanted got : N)
    (* "unexpected sequence number, wanted: %d, got: %d" *)
| ErrUnableToParseSignMode (cause : Error)
    (* "unable to parse sign mode: %w" *)
| ErrOnlySignModeSingle
    (* "only sign mode single accepted got: %v" *)
| ErrSignatureVerificationFailed
    (* "signature verification failed" *)
| ErrNoSignModeHandler (mode : Z)
    (* the handler registry has no handler for the mode *)
| ErrNotFound
    (* collections.ErrNotFound, from reading an item that was never set *)
| ErrCollaborator (msg : string)
    (* any error of a collaborator: address codec, Any packing, module
       query, protobuf decoding, sign-mode handler *).

(** Modelled from the spec: the classification of the source's error messages
    into the taxonomy of section 7, which the source, reporting plain
    formatted errors, does not declare.  Errors handed through from
    collaborators carry no kind of their own. *)
Definition kindOf (e : Error) : option ErrorKind :=
  match e with
  | ErrUnauthorized => Some Unauthorized
  | ErrUnexpectedSequence _ _ => Some SequenceMismatch
  | ErrUnableToParseSignMode _ => Some UnsupportedSignMode
  | ErrOnlySignModeSingle => Some UnsupportedSignMode
  | ErrSignatureVerificationFailed => Some SignatureInvalid
  | ErrNoSignModeHandler _ => Some UnsupportedSignMode
  | ErrNotFound => None
  | ErrCollaborator _ => None
  end.

(** Go run-time panics that the flow can raise. *)
Inductive GoPanic :=
| NilPointerDereference
| IndexOutOfRange (index : N) (len : nat).

Inductive outcome (A : Type) :=
| Ok (a : A)
| Err (e : Error)
| Panic (p : GoPanic).
Arguments Ok {A} a.
Arguments Err {A} e.
Arguments Panic {A} p.

(** Sequencing: the first error or panic ends the computation. *)
#[global] Instance outcome_ret : MRet outcome := λ A a, Ok a.

#[global] Instance outcome_bind : MBind outcome := λ A B f o,
  match o with
  | Ok a => f a
  | Err e => Err e
  | Panic p => Panic p
  end.

(** What a collaborator's [(T, error)] pair holds. *)
Inductive go_result (A : Type) :=
| Success (a : A)
| Failure (msg : string).
Arguments Success {A} a.
Arguments Failure {A} msg.

Definition from_go {A} (r : go_result A) : outcome A :=
  match r with
  | Success a => Ok a
  | Failure msg => Err (ErrCollaborator msg)
  end.

(** [p.f] for a pointer [p]. *)
Definition deref {A} (p : option A) : outcome A :=
  match p with
  | Some a => Ok a
  | None => Panic NilPointerDereference
  end.

(** [s[i]] for a slice [s]. *)
Definition index {A} (s : list A) (i : N) : outcome A :=
  match s !! N.to_nat i with
  | Some a => Ok a
  | None => Panic (IndexOutOfRange i (length s))
  end.

Definition is_rejected {A} (o : outcome A) : Prop :=
  match o with Ok _ => False | _ => True end.

(** The outcome is an error of the kind [k]. *)
Definition fails_with {A} (o : outcome A) (k : ErrorKind) : Prop :=
  ∃ e, o = Err e ∧ kindOf e = Some k.

(** ** Messages *)

(** secp256k1.PubKey *)
Record PubKey := { PubKey_Key : list byte }.

(** anypb.Any *)
Record Any := { Any_TypeUrl : string; Any_Value : list byte }.

(** signing.SignMode, an [int32] enumeration. *)
Definition SignMode := Z.

Definition SIGN_MODE_DIRECT : SignMode := 1%Z.
Definition SIGN_MODE_TEXTUAL : SignMode := 2%Z.

(** tx.ModeInfo with its oneof [Sum], a nil interface when no case is set:
    [ModeInfo_Single_] wraps a [ModeInfo_Single], [ModeInfo_Multi_] a
    [ModeInfo_Multi] holding the signers' bit array and one nested
    descriptor per signer. *)
Record ModeInfo_Single := { ModeInfo_Single_Mode : SignMode }.

Inductive ModeInfo :=
| Build_ModeInfo (Sum : option isModeInfo_Sum)
with isModeInfo_Sum :=
| ModeInfo_Single_ (Single : ModeInfo_Single)
| ModeInfo_Multi_ (Multi : ModeInfo_Multi)
with ModeInfo_Multi :=
| Build_ModeInfo_Multi (Bitarray : list bool) (ModeInfos : list ModeInfo).

Definition ModeInfo_Sum (info : ModeInfo) : option isModeInfo_Sum :=
  let 'Build_ModeInfo s := info in s.

(** The single-signer descriptor of a mode, and a composite descriptor. *)
Definition single (mode : SignMode) : ModeInfo :=
  Build_ModeInfo (Some (ModeInfo_Single_ {| ModeInfo_Single_Mode := mode |})).

Definition composite (bitarray : list bool) (modeInfos : list ModeInfo)
    : ModeInfo :=
  Build_ModeInfo (Some (ModeInfo_Multi_ (Build_ModeInfo_Multi bitarray modeInfos))).

(** tx.SignerInfo *)
Record SignerInfo := {
  SignerInfo_PublicKey : option Any;
  SignerInfo_ModeInfo : option ModeInfo;
  SignerInfo_Sequence : N
}.

(** tx.AuthInfo; the fee and the tip play no part in the flow. *)
Record AuthInfo := { AuthInfo_SignerInfos : list SignerInfo }.

(** tx.Tx; the body plays no part in the flow. *)
Record Tx := {
  Tx_AuthInfo : option AuthInfo;
  Tx_Signatures : list (list byte)
}.

(** tx.TxRaw *)
Record TxRaw := {
  TxRaw_BodyBytes : list byte;
  TxRaw_AuthInfoBytes : list byte;
  TxRaw_Signatures : list (list byte)
}.

(** aa_interface_v1.MsgAuthenticate *)
Record MsgAuthenticate := {
  MsgAuthenticate_Bundler : string;
  MsgAuthenticate_RawTx : option TxRaw;
  MsgAuthenticate_Tx : option Tx;
  MsgAuthenticate_SignerIndex : N
}.

(** aa_interface_v1.MsgAuthenticateResponse *)
Record MsgAuthenticateResponse := {}.

(** accountsv1.AccountNumberRequest and accountsv1.AccountNumberResponse *)
Record AccountNumberRequest := { AccountNumberRequest_Address : string }.
Record AccountNumberResponse := { AccountNumberResponse_Number : N }.

(** header.Info; only the chain identifier is read. *)
Record HeaderInfo := { HeaderInfo_ChainID : string }.

(** signing.SignerData *)
Record SignerData := {
  SignerData_Address : string;
  SignerData_ChainID : string;
  SignerData_AccountNumber : N;
  SignerData_Sequence : N;
  SignerData_PubKey : option Any
}.

(** ** Collaborators

    The code the flow calls into but does not contain: the execution context
    and the [accountstd] helpers reading it, the protobuf runtime, the [Any]
    packing of the codec and the secp256k1 verifier.  They are parameters of
    the development, and nothing is assumed about the values they return.
    They are functions of their arguments: by the specification the public
    key and the sequence counter belong to the account alone and no other
    component writes them, so none of them is handed the account's store. *)
Class Runtime := {
  (** context.Context *)
  GoContext : Type;
  (** txv1beta1.TxBody and txv1beta1.AuthInfo, the decoded messages *)
  TxBodyV2 : Type;
  AuthInfoV2 : Type;
  (** accountstd.SenderIsAccountsModule *)
  SenderIsAccountsModule : GoContext → bool;
  (** accountstd.Whoami *)
  Whoami : GoContext → list byte;
  (** accountstd.QueryModule at accountsv1.AccountNumberResponse *)
  QueryModule_AccountNumber :
    GoContext → AccountNumberRequest → go_result AccountNumberResponse;
  (** codectypes.NewAnyWithValue *)
  NewAnyWithValue : PubKey → go_result Any;
  (** proto.Unmarshal into a fresh TxBody and a fresh AuthInfo *)
  Unmarshal_TxBody : list byte → go_result TxBodyV2;
  Unmarshal_AuthInfo : list byte → go_result AuthInfoV2;
  (** secp256k1.PubKey.VerifySignature pubKey msg sig *)
  VerifySignature : PubKey → list byte → list byte → bool
}.

(** Modelled from the spec: the verifier of secp256k1 signatures is not part
    of the source at hand.  Of a verifier the specification says that
    inverting any single bit of a signature it accepts gives a signature it
    refuses. *)
Definition rejects_bit_flips
    (verify : PubKey → list byte → list byte → bool) : Prop :=
  ∀ pk m sig (i : nat),
    verify pk m sig = true →
    (i < 8 * length sig)%nat →
    verify pk m (flip_bit i sig) = false.

(** ** The account and its storage *)

(** The storage behind the account's two collections:
    [PubKey collections.Item[secp256k1.PubKey]], unset until the account is
    initialised, and [Sequence collections.Sequence]. *)
Record Store := {
  Store_PubKey : option PubKey;
  Store_Sequence : N
}.

(** Computations over the store that end in a value, an error or a panic;
    the store they leave is reported in all three cases. *)
Definition M (A : Type) : Type := Store → outcome A * Store.

#[global] Instance M_ret : MRet M := λ A a st, (Ok a, st).

#[global] Instance M_bind : MBind M := λ A B f m st,
  match m st with
  | (Ok a, st') => f a st'
  | (Err e, st') => (Err e, st')
  | (Panic p, st') => (Panic p, st')
  end.

(** A step that does not touch the store. *)
Definition lift {A} (o : outcome A) : M A := λ st, (o, st).

(** [fmt.Errorf("...: %w", err)] around a step. *)
Definition wrap_error {A} (w : Error → Error) (o : outcome A) : outcome A :=
  match o with
  | Err e => Err (w e)
  | _ => o
  end.

(** Modelled from the spec: [collections.Sequence.Next] is not part of the
    source at hand.  The specification describes it as a fetch-and-increment:
    the call returns the counter's value and leaves the counter one higher.
    The counter is a natural number here; it never decreases. *)
Definition Sequence_Next : M N := λ st,
  (Ok (Store_Sequence st),
   {| Store_PubKey := Store_PubKey st;
      Store_Sequence := Store_Sequence st + 1 |}).

(** Modelled from the spec: [collections.Item.Get] is not part of the source
    at hand.  It reads the account's public key, which the flow never writes;
    for an item that was never set the answer is [collections.ErrNotFound]. *)
Definition PubKey_Get : M PubKey := λ st,
  (match Store_PubKey st with
   | Some pk => Ok pk
   | None => Err ErrNotFound
   end, st).

Section base.
Context `{RT : Runtime}.

(** signing.TxData *)
Record TxData := {
  TxData_Body : TxBodyV2;
  TxData_AuthInfo : AuthInfoV2;
  TxData_BodyBytes : list byte;
  TxData_AuthInfoBytes : list byte;
  TxData_BodyHasUnknownNonCriticals : bool
}.

(** signing.SignModeHandler, through its method [GetSignBytes]. *)
Definition SignModeHandler : Type :=
  GoContext → SignerData → TxData → go_result (list byte).

(** signing.HandlerMap: the registered handlers by sign mode. *)
Definition HandlerMap : Type := gmap Z SignModeHandler.

(** Modelled from the spec: [signing.HandlerMap.GetSignBytes] is not part
    of the source at hand.  The registry hands the request to the handler
    registered for the mode; a mode without a handler is an unsupported
    sign mode. *)
Definition GetSignBytes (h : HandlerMap) (ctx : GoContext)
    (signMode : SignMode) (signerData : SignerData) (txData : TxData)
    : outcome (list byte) :=
  match h !! signMode with
  | Some handler => from_go (handler ctx signerData txData)
  | None => Err (ErrNoSignModeHandler signMode)
  end.

(** address.Codec, through the method the flow calls. *)
Record address_Codec := {
  BytesToString : list byte → go_result string
}.

(** header.Service *)
Record header_Service := {
  GetHeaderInfo : GoContext → HeaderInfo
}.

(** The [Account] struct.  Its fields [PubKey] and [Sequence] are handles
    on the [Store]. *)
Record Account := {
  addrCodec : address_Codec;
  hs : header_Service;
  signingHandlers : HandlerMap
}.

(** func parseSignMode(info *tx.ModeInfo) (signingv1beta1.SignMode, error) *)
Definition parseSignMode (info : option ModeInfo) : outcome SignMode :=
  info ← deref info;
  match ModeInfo_Sum info with
  | Some (ModeInfo_Single_ single) => Ok (ModeInfo_Single_Mode single)
  | _ => Err ErrOnlySignModeSingle
  end.

(** func (a Account) getNumber(ctx, addrStr) (uint64, error) *)
Definition getNumber (a : Account) (ctx : GoContext) (addrStr : string)
    : outcome N :=
  accNum ← from_go (QueryModule_AccountNumber ctx
                      {| AccountNumberRequest_Address := addrStr |});
  Ok (AccountNumberResponse_Number accNum).

(** func (a Account) computeSignerData(ctx)
      (secp256k1.PubKey, signing.SignerData, error)
    "computeSignerData will populate signer data and also increase the
    sequence." *)
Definition computeSignerData (a : Account) (ctx : GoContext)
    : M (PubKey * SignerData) :=
  addrStr ← lift (from_go (BytesToString (addrCodec a) (Whoami ctx)));
  let chainID := HeaderInfo_ChainID (GetHeaderInfo (hs a) ctx) in
  wantSequence ← Sequence_Next;
  pk ← PubKey_Get;
  pkAny ← lift (from_go (NewAnyWithValue pk));
  accNum ← lift (getNumber a ctx addrStr);
  mret (pk, {| SignerData_Address := addrStr;
               SignerData_ChainID := chainID;
               SignerData_AccountNumber := accNum;
               SignerData_Sequence := wantSequence;
               SignerData_PubKey :=
                 Some {| Any_TypeUrl := Any_TypeUrl pkAny;
                         Any_Value := Any_Value pkAny |} |}).

(** func (a Account) getTxData(msg) (signing.TxData, error) *)
Definition getTxData (a : Account) (msg : MsgAuthenticate) : outcome TxData :=
  rawTx ← deref (MsgAuthenticate_RawTx msg);
  txBody ← from_go (Unmarshal_TxBody (TxRaw_BodyBytes rawTx));
  authInfo ← from_go (Unmarshal_AuthInfo (TxRaw_AuthInfoBytes rawTx));
  Ok {| TxData_Body := txBody;
        TxData_AuthInfo := authInfo;
        TxData_BodyBytes := TxRaw_BodyBytes rawTx;
        TxData_AuthInfoBytes := TxRaw_AuthInfoBytes rawTx;
        (* NOTE: amino signing must be disabled. *)
        TxData_BodyHasUnknownNonCriticals := false |}.

(** The expression [msg.Tx.AuthInfo.SignerInfos[msg.SignerIndex]], as it
    is evaluated: two pointers and one slice index on the way. *)
Definition signerInfoAt (msg : MsgAuthenticate) : outcome SignerInfo :=
  tx ← deref (MsgAuthenticate_Tx msg);
  authInfo ← deref (Tx_AuthInfo tx);
  index (AuthInfo_SignerInfos authInfo) (MsgAuthenticate_SignerIndex msg).

(** The expression [msg.Tx.Signatures[msg.SignerIndex]]. *)
Definition signatureAt (msg : MsgAuthenticate) : outcome (list byte) :=
  tx ← deref (MsgAuthenticate_Tx msg);
  index (Tx_Signatures tx) (MsgAuthenticate_SignerIndex msg).

(** func (a Account) Authenticate(ctx, msg)
      (response *aa_interface_v1.MsgAuthenticateResponse, err error)
    "Authenticate implements the authentication flow of an abstracted
    account." *)
Definition Authenticate (a : Account) (ctx : GoContext)
    (msg : MsgAuthenticate) : M MsgAuthenticateResponse :=
  if negb (SenderIsAccountsModule ctx) then lift (Err ErrUnauthorized) else
  '(pubKey, signerData) ← computeSignerData a ctx;
  txData ← lift (getTxData a msg);
  signerInfo ← lift (signerInfoAt msg);
  let gotSeq := SignerInfo_Sequence signerInfo in
  if negb (gotSeq =? SignerData_Sequence signerData) then
    lift (Err (ErrUnexpectedSequence (SignerData_Sequence signerData) gotSeq))
  else
  signMode ← lift (wrap_error ErrUnableToParseSignMode
                     (parseSignMode (SignerInfo_ModeInfo signerInfo)));
  signature ← lift (signatureAt msg);
  signBytes ← lift (GetSignBytes (signingHandlers a) ctx signMode
                      signerData txData);
  if negb (VerifySignature pubKey signBytes signature) then
    lift (Err ErrSignatureVerificationFailed)
  else
  mret Build_MsgAuthenticateResponse.

(** The steps of [Authenticate] that follow [computeSignerData], none of
    which touches the store; [Authenticate_split] shows that this is how
    [Authenticate] continues. *)
Definition afterSignerData (a : Account) (ctx : GoContext)
    (msg : MsgAuthenticate) (pubKey : PubKey) (signerData : SignerData)
    : outcome MsgAuthenticateResponse :=
  txData ← getTxData a msg;
  signerInfo ← signerInfoAt msg;
  let gotSeq := SignerInfo_Sequence signerInfo in
  if negb (gotSeq =? SignerData_Sequence signerData) then
    Err (ErrUnexpectedSequence (SignerData_Sequence signerData) gotSeq)
  else
  signMode ← wrap_error ErrUnableToParseSignMode
               (parseSignMode (SignerInfo_ModeInfo signerInfo));
  signature ← signatureAt msg;
  signBytes ← GetSignBytes (signingHandlers a) ctx signMode
                signerData txData;
  if negb (VerifySignature pubKey signBytes signature) then
    Err ErrSignatureVerificationFailed
  else
  Ok Build_MsgAuthenticateResponse.

(** Two handler registries answer alike on every transaction that carries
    the raw bytes [body] and [auth]. *)
Definition agree_on_raw_bytes (h h' : HandlerMap) (body auth : list byte)
    : Prop :=
  ∀ ctx signMode signerData txData,
    TxData_BodyBytes txData = body →
    TxData_AuthInfoBytes txData = auth →
    GetSignBytes h ctx signMode signerData txData
    = GetSignBytes h' ctx signMode signerData txData.

(** [a] with another handler registry. *)
Definition with_handlers (a : Account) (h : HandlerMap) : Account :=
  {| addrCodec := addrCodec a; hs := hs a; signingHandlers := h |}.
End base.

(** The store after one sequence number was consumed. *)
Definition consumed (st : Store) : Store :=
  {| Store_PubKey := Store_PubKey st;
     Store_Sequence := Store_Sequence st + 1 |}.

(** [msg] with the signature at the signer index replaced. *)
Definition with_signature (msg : MsgAuthenticate) (sig : list byte)
    : MsgAuthenticate :=
  {| MsgAuthenticate_Bundler := MsgAuthenticate_Bundler msg;
     MsgAuthenticate_RawTx := MsgAuthenticate_RawTx msg;
     MsgAuthenticate_Tx :=
       (λ tx, {| Tx_AuthInfo := Tx_AuthInfo tx;
                 Tx_Signatures :=
                   <[N.to_nat (MsgAuthenticate_SignerIndex msg) := sig]>
                     (Tx_Signatures tx) |}) <$> MsgAuthenticate_Tx msg;
     MsgAuthenticate_SignerIndex := MsgAuthenticate_SignerIndex msg |}.

(** ** A concrete runtime

    A small instance of the collaborators on which the flow can be run: the
    context is a record of what the helpers read from it, decoding keeps the
    bytes and refuses those starting with [0xff], and a signature is valid
    when it is the key followed by the signed bytes. *)
Record ex_Context := {
  ex_fromAccountsModule : bool;
  ex_self : list byte;
  ex_number : option N
}.

Definition ex_unmarshal (bs : list byte) : go_result (list byte) :=
  match bs with
  | xff :: _ => Failure "proto: cannot parse invalid wire-format data"
  | _ => Success bs
  end.

Definition ex_sign (pk : PubKey) (m : list byte) : list byte :=
  PubKey_Key pk ++ m.

Definition ex_verify (pk : PubKey) (m sig : list byte) : bool :=
  bool_decide (sig = ex_sign pk m).

Definition ex_runtime : Runtime := {|
  GoContext := ex_Context;
  TxBodyV2 := list byte;
  AuthInfoV2 := list byte;
  SenderIsAccountsModule := ex_fromAccountsModule;
  Whoami := ex_self;
  QueryModule_AccountNumber := λ ctx req,
    match ex_number ctx with
    | Some n => Success {| AccountNumberResponse_Number := n |}
    | None => Failure "account number not found"
    end;
  NewAnyWithValue := λ pk,
    Success {| Any_TypeUrl := "/cosmos.crypto.secp256k1.PubKey";
               Any_Value := PubKey_Key pk |};
  Unmarshal_TxBody := ex_unmarshal;
  Unmarshal_AuthInfo := ex_unmarshal;
  VerifySignature := ex_verify
|}.

(** The handler of the direct mode signs the raw bytes. *)
Definition ex_direct : @SignModeHandler ex_runtime :=
  λ ctx signerData txData,
    Success (TxData_BodyBytes txData ++ TxData_AuthInfoBytes txData).

Definition ex_account : @Account ex_runtime := {|
  addrCodec := {| BytesToString := λ bs, Success "cosmos1account" |};
  hs := {| GetHeaderInfo := λ ctx, {| HeaderInfo_ChainID := "test-chain" |} |};
  signingHandlers := {[ SIGN_MODE_DIRECT := ex_direct ]}
|}.

Definition ex_ctx (fromAccounts : bool) : ex_Context := {|
  ex_fromAccountsModule := fromAccounts;
  ex_self := [x01; x02];
  ex_number := Some 42
|}.

Definition ex_pk : PubKey := {| PubKey_Key := [x0a; x0b] |}.

Definition ex_store (seq : N) : Store :=
  {| Store_PubKey := Some ex_pk; Store_Sequence := seq |}.

Definition ex_body : list byte := [x10; x11].
Definition ex_auth : list byte := [x20].

(** The signature of [ex_pk] over the direct sign-bytes of the example. *)
Definition ex_signature : list byte := ex_sign ex_pk (ex_body ++ ex_auth).

(** A composite descriptor with one nested signer. *)
Definition ex_multi : ModeInfo :=
  composite [true] [single SIGN_MODE_DIRECT].

(** A request with one signer. *)
Definition ex_msg (body : list byte) (mode : ModeInfo) (claimed : N)
    (sig : list byte) (signerIndex : N) : MsgAuthenticate := {|
  MsgAuthenticate_Bundler := "";
  MsgAuthenticate_RawTx :=
    Some {| TxRaw_BodyBytes := body;
            TxRaw_AuthInfoBytes := ex_auth;
            TxRaw_Signatures := [sig] |};
  MsgAuthenticate_Tx :=
    Some {| Tx_AuthInfo :=
              Some {| AuthInfo_SignerInfos :=
                        [{| SignerInfo_PublicKey := None;
                            SignerInfo_ModeInfo := Some mode;
                            SignerInfo_Sequence := claimed |}] |};
            Tx_Signatures := [sig] |};
  MsgAuthenticate_SignerIndex := signerIndex
|}.


(** The request of the example account: one signer, direct mode, the
    signature of [ex_pk], claiming the sequence number [claimed]. *)
Definition ex_request (claimed : N) : MsgAuthenticate :=
  ex_msg ex_body (single SIGN_MODE_DIRECT) claimed ex_signature 0.

(** The signer data and the transaction data assembled for [ex_request]
    when the counter stands at [seq]. *)
Definition ex_signerData (seq : N) : SignerData := {|
  SignerData_Address := "cosmos1account";
  SignerData_ChainID := "test-chain";
  SignerData_AccountNumber := 42;
  SignerData_Sequence := seq;
  SignerData_PubKey :=
    Some {| Any_TypeUrl := "/cosmos.crypto.secp256k1.PubKey";
            Any_Value := [x0a; x0b] |}
|}.

Definition ex_txData : @TxData ex_runtime :=
  @Build_TxData ex_runtime ex_body ex_auth ex_body ex_auth false.

Definition ex_signerInfo (mode : ModeInfo) (claimed : N) : SignerInfo := {|
  SignerInfo_PublicKey := None;
  SignerInfo_ModeInfo := Some mode;
  SignerInfo_Sequence := claimed
|}.

(** * The wire format of the counter query: x/counter/types/query.pb.go

    The generated marshalling code of [QueryGetCountRequest] and
    [QueryGetCountResponse].  Go's fixed-width integers are [Z] with the
    wrap-around of each conversion and operation written out; [int] has the
    64 bits of the platforms the SDK is built for.  A slice is the list of
    its elements, and reading or writing outside of it is a run-time panic;
    for the functions that slice their argument anew, [MarshalTo] and
    [XXX_Marshal], the list goes up to the capacity.  The loops the source
    runs until the input is used up recurse on a bound, and [Unfinished] is
    the outcome of a loop stopped by its bound. *)

Definition to_uint64 (z : Z) : Z := (z mod 2 ^ 64)%Z.
Definition to_int64 (z : Z) : Z := ((z + 2 ^ 63) mod 2 ^ 64 - 2 ^ 63)%Z.
Definition to_int32 (z : Z) : Z := ((z + 2 ^ 31) mod 2 ^ 32 - 2 ^ 31)%Z.
Definition to_int (z : Z) : Z := to_int64 z.

Definition byte_val (b : byte) : Z := Z.of_N (Byte.to_N b).

Definition to_uint8 (z : Z) : byte :=
  default x00 (Byte.of_N (Z.to_N (z mod 256))).

(** len(s) *)
Definition len {A} (s : list A) : Z := Z.of_nat (length s).

Inductive pb_error :=
| ErrInvalidLengthQuery
    (* "proto: negative length found during unmarshaling" *)
| ErrIntOverflowQuery
    (* "proto: integer overflow" *)
| ErrUnexpectedEndOfGroupQuery
    (* "proto: unexpected end of group" *)
| io_ErrUnexpectedEOF
| ErrWiretypeEndGroup
    (* "proto: <message>: wiretype end group for non-group" *)
| ErrIllegalTag (fieldNum wire : Z)
    (* "proto: <message>: illegal tag %d (wire type %d)" *)
| ErrWrongWireType (wireType : Z)
    (* "proto: wrong wireType = %d for field TotalCount" *)
| ErrIllegalWireType (wireType : Z)
    (* "proto: illegal wireType %d" *).

Inductive pb_panic :=
| NilReceiver
| IndexOutOfRangeAt (i : Z) (length : Z)
| SliceBoundsOutOfRange (high : Z) (capacity : Z)
| SliceBoundsOutOfRangeFrom (low : Z) (length : Z)
| MakesliceLenOutOfRange (size : Z).

Inductive pb_result (A : Type) :=
| Done (a : A)
| Failed (e : pb_error)
| Crash (p : pb_panic)
| Unfinished.
Arguments Done {A} a.
Arguments Failed {A} e.
Arguments Crash {A} p.
Arguments Unfinished {A}.

#[global] Instance pb_result_ret : MRet pb_result := λ A a, Done a.

#[global] Instance pb_result_bind : MBind pb_result := λ A B f r,
  match r with
  | Done a => f a
  | Failed e => Failed e
  | Crash p => Crash p
  | Unfinished => Unfinished
  end.

(** [dAtA[i]], read and written. *)
Definition load (dAtA : list byte) (i : Z) : pb_result byte :=
  if (i <? 0)%Z then Crash (IndexOutOfRangeAt i (len dAtA)) else
  match dAtA !! Z.to_nat i with
  | Some b => Done b
  | None => Crash (IndexOutOfRangeAt i (len dAtA))
  end.

Definition store (dAtA : list byte) (i : Z) (b : byte)
    : pb_result (list byte) :=
  if ((i <? 0) || (len dAtA <=? i))%Z then
    Crash (IndexOutOfRangeAt i (len dAtA))
  else Done (<[Z.to_nat i := b]> dAtA).

(** math_bits.Len64: the number of bits needed to write [x], 0 for 0. *)
Definition Len64 (x : Z) : Z :=
  if (x =? 0)%Z then 0%Z else (Z.log2 x + 1)%Z.

(** func sovQuery(x uint64) (n int) *)
Definition sovQuery (x : Z) : Z := ((Len64 (Z.lor x 1) + 6) / 7)%Z.

(** func sozQuery(x uint64) (n int) *)
Definition sozQuery (x : Z) : Z :=
  sovQuery (to_uint64 (Z.lxor (to_uint64 (Z.shiftl x 1))
                         (to_uint64 (Z.shiftr (to_int64 x) 63)))).

(** The loop of [encodeVarintQuery]; a [uint64] is below [1<<7] after nine
    shifts by 7. *)
Fixpoint encodeVarintQuery_loop (bound : nat) (dAtA : list byte)
    (offset v : Z) : pb_result (list byte) :=
  if (128 <=? v)%Z then
    match bound with
    | O => Unfinished
    | S bound =>
        dAtA ← store dAtA offset
                 (to_uint8 (Z.lor (Z.land v 127) 128));
        encodeVarintQuery_loop bound dAtA (offset + 1)%Z (Z.shiftr v 7)
    end
  else store dAtA offset (to_uint8 v).

(** func encodeVarintQuery(dAtA []byte, offset int, v uint64) int
    The buffer is written in place; it is returned with [base]. *)
Definition encodeVarintQuery (dAtA : list byte) (offset v : Z)
    : pb_result (list byte * Z) :=
  let offset := (offset - sovQuery v)%Z in
  let base := offset in
  dAtA ← encodeVarintQuery_loop 9 dAtA offset v;
  Done (dAtA, base).

(** type QueryGetCountRequest struct {} *)
Record QueryGetCountRequest := {}.

(** type QueryGetCountResponse struct { TotalCount int64 } *)
Record QueryGetCountResponse := { TotalCount : Z }.

(** func (m *QueryGetCountResponse) GetTotalCount() int64 *)
Definition GetTotalCount (m : option QueryGetCountResponse) : Z :=
  match m with
  | Some m => TotalCount m
  | None => 0%Z
  end.

(** func (m *QueryGetCountRequest) Size() (n int) *)
Definition QueryGetCountRequest_Size (m : option QueryGetCountRequest) : Z :=
  match m with
  | None => 0%Z
  | Some _ => 0%Z
  end.

(** func (m *QueryGetCountResponse) Size() (n int) *)
Definition QueryGetCountResponse_Size (m : option QueryGetCountResponse) : Z :=
  match m with
  | None => 0%Z
  | Some m =>
      let n := 0%Z in
      if negb (TotalCount m =? 0)%Z then
        (n + (1 + sovQuery (to_uint64 (TotalCount m))))%Z
      else n
  end.

(** func (m *QueryGetCountRequest) MarshalToSizedBuffer(dAtA []byte)
      (int, error) *)
Definition QueryGetCountRequest_MarshalToSizedBuffer
    (m : option QueryGetCountRequest) (dAtA : list byte)
    : pb_result (list byte * Z) :=
  let i := len dAtA in
  Done (dAtA, (len dAtA - i)%Z).

(** func (m *QueryGetCountResponse) MarshalToSizedBuffer(dAtA []byte)
      (int, error) *)
Definition QueryGetCountResponse_MarshalToSizedBuffer
    (m : option QueryGetCountResponse) (dAtA : list byte)
    : pb_result (list byte * Z) :=
  let i := len dAtA in
  match m with
  | None => Crash NilReceiver
  | Some m =>
      if negb (TotalCount m =? 0)%Z then
        '(dAtA, i) ← encodeVarintQuery dAtA i (to_uint64 (TotalCount m));
        let i := (i - 1)%Z in
        dAtA ← store dAtA i x08;
        Done (dAtA, (len dAtA - i)%Z)
      else Done (dAtA, (len dAtA - i)%Z)
  end.

(** [s[:high]] of a slice of the given capacity. *)
Definition slice_to {A} (s : list A) (high : Z) : pb_result (list A) :=
  if ((high <? 0) || (len s <? high))%Z then
    Crash (SliceBoundsOutOfRange high (len s))
  else Done (take (Z.to_nat high) s).

(** [s[low:]] of a slice. *)
Definition slice_from {A} (s : list A) (low : Z) : pb_result (list A) :=
  if ((low <? 0) || (len s <? low))%Z then
    Crash (SliceBoundsOutOfRangeFrom low (len s))
  else Done (drop (Z.to_nat low) s).

(** make([]byte, size) *)
Definition make (size : Z) : pb_result (list byte) :=
  if (size <? 0)%Z then Crash (MakesliceLenOutOfRange size)
  else Done (replicate (Z.to_nat size) x00).

(** func (m *QueryGetCountRequest) Marshal() (dAtA []byte, err error) *)
Definition QueryGetCountRequest_Marshal (m : option QueryGetCountRequest)
    : pb_result (list byte) :=
  let size := QueryGetCountRequest_Size m in
  dAtA ← make size;
  buf ← slice_to dAtA size;
  '(buf, n) ← QueryGetCountRequest_MarshalToSizedBuffer m buf;
  slice_to (buf ++ drop (Z.to_nat size) dAtA) n.

(** func (m *QueryGetCountResponse) Marshal() (dAtA []byte, err error) *)
Definition QueryGetCountResponse_Marshal (m : option QueryGetCountResponse)
    : pb_result (list byte) :=
  let size := QueryGetCountResponse_Size m in
  dAtA ← make size;
  buf ← slice_to dAtA size;
  '(buf, n) ← QueryGetCountResponse_MarshalToSizedBuffer m buf;
  slice_to (buf ++ drop (Z.to_nat size) dAtA) n.

(** func (m *QueryGetCountResponse) MarshalTo(dAtA []byte) (int, error)
    The buffer is given up to its capacity and returned as written. *)
Definition QueryGetCountResponse_MarshalTo (m : option QueryGetCountResponse)
    (dAtA : list byte) : pb_result (list byte * Z) :=
  let size := QueryGetCountResponse_Size m in
  buf ← slice_to dAtA size;
  '(buf, n) ← QueryGetCountResponse_MarshalToSizedBuffer m buf;
  Done (buf ++ drop (Z.to_nat size) dAtA, n).

(** func (m *QueryGetCountRequest) MarshalTo(dAtA []byte) (int, error) *)
Definition QueryGetCountRequest_MarshalTo (m : option QueryGetCountRequest)
    (dAtA : list byte) : pb_result (list byte * Z) :=
  let size := QueryGetCountRequest_Size m in
  buf ← slice_to dAtA size;
  '(buf, n) ← QueryGetCountRequest_MarshalToSizedBuffer m buf;
  Done (buf ++ drop (Z.to_nat size) dAtA, n).

(** func (m *QueryGetCountResponse) XXX_Marshal(b []byte, deterministic bool)
      ([]byte, error)
    [b] is given up to its capacity, so [b[:cap(b)]] is all of it.  The
    deterministic path belongs to the protobuf library and is a parameter. *)
Definition QueryGetCountResponse_XXX_Marshal
    (xxx_messageInfo_Marshal :
       list byte → option QueryGetCountResponse → bool → pb_result (list byte))
    (m : option QueryGetCountResponse) (b : list byte) (deterministic : bool)
    : pb_result (list byte) :=
  if deterministic then xxx_messageInfo_Marshal b m deterministic
  else
    b ← slice_to b (len b);
    '(b, n) ← QueryGetCountResponse_MarshalToSizedBuffer m b;
    slice_to b n.

(** func (m *QueryGetCountResponse) XXX_Size() int *)
Definition QueryGetCountResponse_XXX_Size (m : option QueryGetCountResponse)
    : Z :=
  QueryGetCountResponse_Size m.

(** The loop that reads one varint, which the source writes out six times:
    [for shift := uint(0); ; shift += 7] with the overflow test, the bounds
    test, the read of [dAtA[iNdEx]], [iNdEx++], the accumulation [step] and
    the test of the continuation bit.  The accumulator and the index are
    returned as the loop leaves them, also when it fails.  [shift] reaches
    64 after ten rounds. *)
Fixpoint varint_loop (step : Z → byte → Z → Z) (bound : nat)
    (dAtA : list byte) (iNdEx shift acc : Z) : Z * Z * pb_result unit :=
  if (64 <=? shift)%Z then (acc, iNdEx, Failed ErrIntOverflowQuery) else
  if (len dAtA <=? iNdEx)%Z then (acc, iNdEx, Failed io_ErrUnexpectedEOF) else
  match load dAtA iNdEx with
  | Done b =>
      let iNdEx := to_int (iNdEx + 1) in
      let acc := step acc b shift in
      if (byte_val b <? 128)%Z then (acc, iNdEx, Done ()) else
      match bound with
      | O => (acc, iNdEx, Unfinished)
      | S bound => varint_loop step bound dAtA iNdEx (shift + 7)%Z acc
      end
  | Failed e => (acc, iNdEx, Failed e)
  | Crash p => (acc, iNdEx, Crash p)
  | Unfinished => (acc, iNdEx, Unfinished)
  end.

(** [wire |= uint64(b&0x7F) << shift] *)
Definition wire_step (wire : Z) (b : byte) (shift : Z) : Z :=
  Z.lor wire (to_uint64 (Z.shiftl (to_uint64 (Z.land (byte_val b) 127)) shift)).

(** [m.TotalCount |= int64(b&0x7F) << shift] *)
Definition count_step (count : Z) (b : byte) (shift : Z) : Z :=
  Z.lor count (to_int64 (Z.shiftl (to_int64 (Z.land (byte_val b) 127)) shift)).

(** [length |= (int(b) & 0x7F) << shift] *)
Definition length_step (length : Z) (b : byte) (shift : Z) : Z :=
  Z.lor length (to_int (Z.shiftl (Z.land (to_int (byte_val b)) 127) shift)).

(** The loop of [skipQuery] over a varint it does not keep. *)
Definition skip_step (u : Z) (b : byte) (shift : Z) : Z := u.

(** The body of the [switch wireType] of [skipQuery]: the index and the
    depth it leaves. *)
Definition skipQuery_field (dAtA : list byte) (iNdEx depth wireType : Z)
    : pb_result (Z * Z) :=
  if (wireType =? 0)%Z then
    let '(_, iNdEx, r) := varint_loop skip_step 10 dAtA iNdEx 0 0 in
    _ ← r; Done (iNdEx, depth)
  else if (wireType =? 1)%Z then Done (to_int (iNdEx + 8), depth)
  else if (wireType =? 2)%Z then
    let '(length, iNdEx, r) := varint_loop length_step 10 dAtA iNdEx 0 0 in
    _ ← r;
    if (length <? 0)%Z then Failed ErrInvalidLengthQuery
    else Done (to_int (iNdEx + length), depth)
  else if (wireType =? 3)%Z then Done (iNdEx, to_int (depth + 1))
  else if (wireType =? 4)%Z then
    if (depth =? 0)%Z then Failed ErrUnexpectedEndOfGroupQuery
    else Done (iNdEx, to_int (depth - 1))
  else if (wireType =? 5)%Z then Done (to_int (iNdEx + 4), depth)
  else Failed (ErrIllegalWireType wireType).

(** The loop [for iNdEx < l] of [skipQuery]. *)
Fixpoint skipQuery_loop (bound : nat) (dAtA : list byte) (iNdEx depth : Z)
    : pb_result Z :=
  if (iNdEx <? len dAtA)%Z then
    match bound with
    | O => Unfinished
    | S bound =>
        let '(wire, iNdEx, r) := varint_loop wire_step 10 dAtA iNdEx 0 0 in
        _ ← r;
        let wireType := to_int (Z.land wire 7) in
        '(iNdEx, depth) ← skipQuery_field dAtA iNdEx depth wireType;
        if (iNdEx <? 0)%Z then Failed ErrInvalidLengthQuery
        else if (depth =? 0)%Z then Done iNdEx
        else skipQuery_loop bound dAtA iNdEx depth
    end
  else Failed io_ErrUnexpectedEOF.

(** func skipQuery(dAtA []byte) (n int, err error)
    Every round of the loop reads at least one byte. *)
Definition skipQuery (dAtA : list byte) : pb_result Z :=
  skipQuery_loop (length dAtA) dAtA 0 0.

(** The [default] case of the two [Unmarshal]: the field is skipped. *)
Definition skip_field (dAtA : list byte) (preIndex : Z) : pb_result Z :=
  let l := len dAtA in
  let iNdEx := preIndex in
  rest ← slice_from dAtA iNdEx;
  skippy ← skipQuery rest;
  if ((skippy <? 0) || (to_int (iNdEx + skippy) <? 0))%Z then
    Failed ErrInvalidLengthQuery
  else if (l <? to_int (iNdEx + skippy))%Z then Failed io_ErrUnexpectedEOF
  else Done (to_int (iNdEx + skippy)).

(** The loop [for iNdEx < l] of [QueryGetCountRequest.Unmarshal] and what
    follows it. *)
Fixpoint QueryGetCountRequest_Unmarshal_loop (bound : nat)
    (dAtA : list byte) (iNdEx : Z) : pb_result unit :=
  let l := len dAtA in
  if (iNdEx <? l)%Z then
    match bound with
    | O => Unfinished
    | S bound =>
        let preIndex := iNdEx in
        let '(wire, iNdEx, r) := varint_loop wire_step 10 dAtA iNdEx 0 0 in
        _ ← r;
        let fieldNum := to_int32 (Z.shiftr wire 3) in
        let wireType := to_int (Z.land wire 7) in
        if (wireType =? 4)%Z then Failed ErrWiretypeEndGroup
        else if (fieldNum <=? 0)%Z then Failed (ErrIllegalTag fieldNum wire)
        else
          iNdEx ← skip_field dAtA preIndex;
          QueryGetCountRequest_Unmarshal_loop bound dAtA iNdEx
    end
  else if (l <? iNdEx)%Z then Failed io_ErrUnexpectedEOF
  else Done ().

(** func (m *QueryGetCountRequest) Unmarshal(dAtA []byte) error *)
Definition QueryGetCountRequest_Unmarshal (m : option QueryGetCountRequest)
    (dAtA : list byte) : pb_result unit :=
  QueryGetCountRequest_Unmarshal_loop (length dAtA) dAtA 0.

(** The loop [for iNdEx < l] of [QueryGetCountResponse.Unmarshal] and what
    follows it.  The message is written in place, so it is returned as the
    call leaves it, which on an error is as far as the call had come. *)
Fixpoint QueryGetCountResponse_Unmarshal_loop (bound : nat)
    (m : option QueryGetCountResponse) (dAtA : list byte) (iNdEx : Z)
    : option QueryGetCountResponse * pb_result unit :=
  let l := len dAtA in
  if (iNdEx <? l)%Z then
    match bound with
    | O => (m, Unfinished)
    | S bound =>
        let preIndex := iNdEx in
        let '(wire, iNdEx, r) := varint_loop wire_step 10 dAtA iNdEx 0 0 in
        match r with
        | Done _ =>
            let fieldNum := to_int32 (Z.shiftr wire 3) in
            let wireType := to_int (Z.land wire 7) in
            if (wireType =? 4)%Z then (m, Failed ErrWiretypeEndGroup)
            else if (fieldNum <=? 0)%Z then
              (m, Failed (ErrIllegalTag fieldNum wire))
            else if (fieldNum =? 1)%Z then
              if negb (wireType =? 0)%Z then
                (m, Failed (ErrWrongWireType wireType))
              else
                match m with
                | None => (m, Crash NilReceiver)
                | Some _ =>
                    let '(count, iNdEx, r) :=
                      varint_loop count_step 10 dAtA iNdEx 0 0 in
                    let m := Some {| TotalCount := count |} in
                    match r with
                    | Done _ =>
                        QueryGetCountResponse_Unmarshal_loop bound m dAtA iNdEx
                    | _ => (m, r)
                    end
                end
            else
              match skip_field dAtA preIndex with
              | Done iNdEx =>
                  QueryGetCountResponse_Unmarshal_loop bound m dAtA iNdEx
              | Failed e => (m, Failed e)
              | Crash p => (m, Crash p)
              | Unfinished => (m, Unfinished)
              end
        | _ => (m, r)
        end
    end
  else if (l <? iNdEx)%Z then (m, Failed io_ErrUnexpectedEOF)
  else (m, Done ()).

(** func (m *QueryGetCountResponse) Unmarshal(dAtA []byte) error *)
Definition QueryGetCountResponse_Unmarshal (m : option QueryGetCountResponse)
    (dAtA : list byte) : option QueryGetCountResponse * pb_result unit :=
  QueryGetCountResponse_Unmarshal_loop (length dAtA) m dAtA 0.

(** The bytes of the varint of [v], least significant group first; the
    reference the loops are compared with. *)
Fixpoint varint_bytes (bound : nat) (v : Z) : list byte :=
  if (128 <=? v)%Z then
    match bound with
    | O => []
    | S bound =>
        to_uint8 (Z.lor (Z.land v 127) 128) :: varint_bytes bound (Z.shiftr v 7)
    end
  else [to_uint8 v].

(** The encoding of a response: nothing for a zero count, else the tag of
    field 1 with wire type 0 and the varint of the count. *)
Definition QueryGetCountResponse_bytes (m : QueryGetCountResponse)
    : list byte :=
  if (TotalCount m =? 0)%Z then []
  else x08 :: varint_bytes 9 (to_uint64 (TotalCount m)).

(** ** What the decoding loops can end in

    The outcomes the decoders are shown to stay within: a result or an
    error, with the index inside the input, and never a panic or a loop
    stopped by its bound. *)

(** What one run of the varint loop can end in. *)
Definition varint_loop_ok (dAtA : list byte) (iNdEx : Z)
    (res : Z * Z * pb_result unit) : Prop :=
  match res with
  | (_, i, Done _) => (iNdEx < i ≤ len dAtA)%Z
  | (_, _, Failed e) => e = ErrIntOverflowQuery ∨ e = io_ErrUnexpectedEOF
  | _ => False
  end.

(** What the handling of one field by [skipQuery] can end in. *)
Definition skipQuery_field_ok (iNdEx : Z) (res : pb_result (Z * Z)) : Prop :=
  match res with
  | Done (i, _) => (- 2 ^ 63 ≤ i < 2 ^ 63 ∧ (i < 0 ∨ iNdEx ≤ i))%Z
  | Failed _ => True
  | _ => False
  end.

(** What [skipQuery] can end in from the index [iNdEx] on. *)
Definition skip_ok (iNdEx : Z) (res : pb_result Z) : Prop :=
  match res with
  | Done n => (iNdEx < n < 2 ^ 63)%Z
  | Failed _ => True
  | _ => False
  end.

(** What the [default] case of [Unmarshal] can end in. *)
Definition skip_field_ok (dAtA : list byte) (preIndex : Z)
    (res : pb_result Z) : Prop :=
  match res with
  | Done i => (preIndex < i ≤ len dAtA)%Z
  | Failed _ => True
  | _ => False
  end.

(** What [Unmarshal] can end in on a message. *)
Definition Unmarshal_ok {Msg} (res : option Msg * pb_result unit) : Prop :=
  match res with
  | (Some _, Done _) | (Some _, Failed _) => True
  | _ => False
  end.

(** * Properties *)

Section properties.
Context `{RT : Runtime}.
Implicit Types (a : Account) (ctx : GoContext) (msg : MsgAuthenticate).
Implicit Types (st : Store) (pk : PubKey) (sd : SignerData) (td : TxData).

(** ** How the flow is put together *)

Lemma Authenticate_split a ctx msg st :
  Authenticate a ctx msg st =
    if SenderIsAccountsModule ctx then
      match computeSignerData a ctx st with
      | (Ok (pk, sd), st') => (afterSignerData a ctx msg pk sd, st')
      | (Err e, st') => (Err e, st')
      | (Panic p, st') => (Panic p, st')
      end
    else (Err ErrUnauthorized, st).
Proof.
  unfold Authenticate, afterSignerData.
  destruct (SenderIsAccountsModule ctx); simpl; [|done].
  unfold mbind at 1, M_bind at 1.
  destruct (computeSignerData a ctx st) as [[[pk sd]|e|p] st']; try done.
  unfold mbind, M_bind, outcome_bind, lift, mret, M_ret.
  destruct (getTxData a msg) as [td|?|?]; try done.
  destruct (signerInfoAt msg) as [si|?|?]; try done.
  destruct (negb _); try done.
  destruct (wrap_error _ _) as [mode|?|?]; try done.
  destruct (signatureAt msg) as [sig|?|?]; try done.
  destruct (GetSignBytes _ _ _ _ _) as [sb|?|?]; try done.
  by destruct (negb _).
Qed.

(** The store [computeSignerData] leaves: one sequence number is consumed
    as soon as the address codec has rendered the account's address,
    whatever happens afterwards. *)
Lemma computeSignerData_store a ctx st :
  (computeSignerData a ctx st).2 =
    match BytesToString (addrCodec a) (Whoami ctx) with
    | Success _ => consumed st
    | Failure _ => st
    end.
Proof.
  unfold computeSignerData, mbind, M_bind, lift, Sequence_Next, PubKey_Get,
    getNumber, mret, M_ret, consumed; simpl.
  destruct (BytesToString _ _) as [addr|]; simpl; [|done].
  destruct (Store_PubKey st) as [pk|]; simpl; [|done].
  destruct (NewAnyWithValue pk) as [pkAny|]; simpl; [|done].
  by destruct (QueryModule_AccountNumber _ _).
Qed.

(** What a successful [computeSignerData] has done. *)
Lemma computeSignerData_Ok a ctx st pk sd st' :
  computeSignerData a ctx st = (Ok (pk, sd), st') →
  st' = consumed st
  ∧ SignerData_Sequence sd = Store_Sequence st
  ∧ Store_PubKey st = Some pk
  ∧ ∃ addr, BytesToString (addrCodec a) (Whoami ctx) = Success addr.
Proof.
  unfold computeSignerData, mbind, M_bind, lift, Sequence_Next, PubKey_Get,
    getNumber, mret, M_ret, consumed; simpl.
  destruct (BytesToString _ _) as [addr|]; simpl; [|done].
  destruct (Store_PubKey st) as [pk0|]; simpl; [|done].
  destruct (NewAnyWithValue pk0) as [pkAny|]; simpl; [|done].
  destruct (QueryModule_AccountNumber _ _); simpl; [|done].
  intros [= <- <- <-]. eauto.
Qed.

(** When [computeSignerData] succeeds, and with what. *)
Lemma computeSignerData_Ok_iff a ctx st pk sd st' :
  computeSignerData a ctx st = (Ok (pk, sd), st') ↔
  ∃ addr pkAny accNum,
    BytesToString (addrCodec a) (Whoami ctx) = Success addr
    ∧ Store_PubKey st = Some pk
    ∧ NewAnyWithValue pk = Success pkAny
    ∧ QueryModule_AccountNumber ctx {| AccountNumberRequest_Address := addr |}
      = Success accNum
    ∧ sd = {| SignerData_Address := addr;
              SignerData_ChainID := HeaderInfo_ChainID (GetHeaderInfo (hs a) ctx);
              SignerData_AccountNumber := AccountNumberResponse_Number accNum;
              SignerData_Sequence := Store_Sequence st;
              SignerData_PubKey :=
                Some {| Any_TypeUrl := Any_TypeUrl pkAny;
                        Any_Value := Any_Value pkAny |} |}
    ∧ st' = consumed st.
Proof.
  unfold computeSignerData, mbind, M_bind, lift, Sequence_Next, PubKey_Get,
    getNumber, mret, M_ret, consumed; simpl. split.
  - destruct (BytesToString _ _) as [addr|]; simpl; [|done].
    destruct (Store_PubKey st) as [pk0|]; simpl; [|done].
    destruct (NewAnyWithValue pk0) as [pkAny|] eqn:Hany; simpl; [|done].
    destruct (QueryModule_AccountNumber _ _) as [accNum|] eqn:Hnum; simpl;
      [|done].
    intros [= <- <- <-]. by exists addr, pkAny, accNum.
  - intros (addr & pkAny & accNum & -> & -> & Hany & Hnum & -> & ->); simpl.
    rewrite Hany; simpl. by rewrite Hnum.
Qed.

(** Past the caller check, the store [Authenticate] leaves is the one
    [computeSignerData] leaves. *)
Lemma Authenticate_store a ctx msg st :
  SenderIsAccountsModule ctx = true →
  (Authenticate a ctx msg st).2 = (computeSignerData a ctx st).2.
Proof.
  intros Hpriv. rewrite Authenticate_split, Hpriv.
  by destruct (computeSignerData a ctx st) as [[[pk sd]|e|p] st'].
Qed.

(** Past the caller check and the assembly of the signer data, the outcome
    is that of the remaining steps. *)
Lemma Authenticate_assembled a ctx msg st pk sd st' :
  SenderIsAccountsModule ctx = true →
  computeSignerData a ctx st = (Ok (pk, sd), st') →
  Authenticate a ctx msg st = (afterSignerData a ctx msg pk sd, consumed st).
Proof.
  intros Hpriv Hsd. rewrite Authenticate_split, Hpriv, Hsd.
  by destruct (computeSignerData_Ok _ _ _ _ _ _ Hsd) as (-> & _).
Qed.

(** The remaining steps succeed exactly when every one of them does. *)
Lemma afterSignerData_Ok a ctx msg pk sd r :
  afterSignerData a ctx msg pk sd = Ok r ↔
  ∃ td si signMode sig signBytes,
    getTxData a msg = Ok td
    ∧ signerInfoAt msg = Ok si
    ∧ SignerInfo_Sequence si = SignerData_Sequence sd
    ∧ parseSignMode (SignerInfo_ModeInfo si) = Ok signMode
    ∧ signatureAt msg = Ok sig
    ∧ GetSignBytes (signingHandlers a) ctx signMode sd td = Ok signBytes
    ∧ VerifySignature pk signBytes sig = true.
Proof.
  unfold afterSignerData, mbind, outcome_bind. split.
  - destruct (getTxData a msg) as [td|?|?]; try done.
    destruct (signerInfoAt msg) as [si|?|?]; try done.
    destruct (N.eqb_spec (SignerInfo_Sequence si) (SignerData_Sequence sd))
      as [Hseq|?]; simpl; try done.
    destruct (parseSignMode _) as [mode|?|?] eqn:Hmode; simpl; try done.
    destruct (signatureAt msg) as [sig|?|?]; try done.
    destruct (GetSignBytes _ _ _ _ _) as [sb|?|?] eqn:Hsb; try done.
    destruct (VerifySignature pk sb sig) eqn:Hv; simpl; try done.
    intros _. by exists td, si, mode, sig, sb.
  - intros (td & si & mode & sig & sb & Htd & Hsi & Hseq & Hmode & Hsig
              & Hsb & Hv).
    rewrite Htd, Hsi, Hseq, N.eqb_refl, Hmode; simpl.
    rewrite Hsig, Hsb, Hv; simpl. by destruct r.
Qed.

(** A successful [Authenticate], read backwards. *)
Lemma Authenticate_Ok a ctx msg st r st' :
  Authenticate a ctx msg st = (Ok r, st') →
  SenderIsAccountsModule ctx = true
  ∧ ∃ pk sd, computeSignerData a ctx st = (Ok (pk, sd), st')
             ∧ afterSignerData a ctx msg pk sd = Ok r.
Proof.
  rewrite Authenticate_split.
  destruct (SenderIsAccountsModule ctx); [|done].
  destruct (computeSignerData a ctx st) as [[[pk sd]|e|p] st1]; try done.
  intros [= Hr <-]. eauto.
Qed.

(** No error the source builds is a malformed-request error. *)
Lemma kindOf_not_MalformedRequest (e : Error) :
  kindOf e ≠ Some MalformedRequest.
Proof. by destruct e. Qed.

(** Replacing the signature changes neither the decoded transaction nor
    the signer-info, and puts the new signature at the signer index. *)
Lemma getTxData_with_signature a msg sig :
  getTxData a (with_signature msg sig) = getTxData a msg.
Proof. done. Qed.

Lemma signerInfoAt_with_signature msg sig :
  signerInfoAt (with_signature msg sig) = signerInfoAt msg.
Proof.
  unfold signerInfoAt, with_signature; simpl.
  by destruct (MsgAuthenticate_Tx msg).
Qed.

Lemma signatureAt_with_signature msg sig0 sig :
  signatureAt msg = Ok sig0 →
  signatureAt (with_signature msg sig) = Ok sig.
Proof.
  unfold signatureAt, with_signature, index, mbind, outcome_bind; simpl.
  destruct (MsgAuthenticate_Tx msg) as [tx|]; simpl; [|done].
  destruct (Tx_Signatures tx !! _) eqn:Hl; [|done]. intros _.
  apply lookup_lt_Some in Hl.
  by rewrite list_lookup_insert_eq.
Qed.

(** The public key is never written, whatever the call and its outcome. *)
Lemma Authenticate_PubKey_unchanged a ctx msg st :
  Store_PubKey (Authenticate a ctx msg st).2 = Store_PubKey st.
Proof.
  destruct (SenderIsAccountsModule ctx) eqn:Hpriv.
  - rewrite Authenticate_store, computeSignerData_store by done.
    by destruct (BytesToString _ _).
  - by rewrite Authenticate_split, Hpriv.
Qed.

(** A call whose claimed sequence number is not the counter's value never
    succeeds, at whichever step it is stopped. *)
Lemma Authenticate_mismatch_rejected a ctx msg st si :
  signerInfoAt msg = Ok si →
  SignerInfo_Sequence si ≠ Store_Sequence st →
  is_rejected (Authenticate a ctx msg st).1.
Proof.
  intros Hsi Hne.
  destruct (Authenticate a ctx msg st) as [[r| |] st'] eqn:Hauth; try done.
  apply Authenticate_Ok in Hauth as (_ & pk & sd & Hsd & Hrest).
  apply computeSignerData_Ok in Hsd as (_ & Hseq & _).
  apply afterSignerData_Ok in Hrest as (? & si' & ? & ? & ? & _ & Hsi' & Heq & _).
  rewrite Hsi in Hsi'. injection Hsi' as <-. congruence.
Qed.

(** ** The caller check *)

(** C4.  A call whose sender is not the accounts module fails with the
    unauthorized error, whatever the transaction; the store it leaves is the
    store it was given, and its outcome is the same on every store, so
    neither the sequence counter nor anything else was read or written. *)
Theorem Authenticate_unauthorized a ctx msg st :
  SenderIsAccountsModule ctx = false →
  Authenticate a ctx msg st = (Err ErrUnauthorized, st)
  ∧ kindOf ErrUnauthorized = Some Unauthorized
  ∧ ∀ st2, (Authenticate a ctx msg st2).1 = (Authenticate a ctx msg st).1.
Proof.
  intros Hpriv. repeat split.
  - by rewrite Authenticate_split, Hpriv.
  - intros st2. by rewrite !Authenticate_split, Hpriv.
Qed.

(** ** The sequence counter and the public key *)

(** C6.  A call that passes the caller check and consumes a sequence
    number, which it does as soon as the address codec has rendered the
    account's address, leaves the store with the counter exactly one higher
    and nothing else changed, the public key in particular.  The statement
    does not look at the outcome: it covers success, every error and every
    panic alike. *)
Theorem Authenticate_frame a ctx msg st addr :
  SenderIsAccountsModule ctx = true →
  BytesToString (addrCodec a) (Whoami ctx) = Success addr →
  (Authenticate a ctx msg st).2 = consumed st
  ∧ Store_Sequence (Authenticate a ctx msg st).2 = Store_Sequence st + 1
  ∧ Store_PubKey (Authenticate a ctx msg st).2 = Store_PubKey st.
Proof.
  intros Hpriv Haddr.
  assert ((Authenticate a ctx msg st).2 = consumed st) as ->; [|done].
  by rewrite Authenticate_store, computeSignerData_store, Haddr.
Qed.

(** C7.  When a call succeeds and the next call on the store it left
    succeeds too, the signer data of the second carries the sequence number
    following that of the first; these are the numbers the two transactions
    claimed, and the counter ends two higher. *)
Theorem Authenticate_consecutive a ctx1 msg1 ctx2 msg2 st0 st1 st2 r1 r2 :
  Authenticate a ctx1 msg1 st0 = (Ok r1, st1) →
  Authenticate a ctx2 msg2 st1 = (Ok r2, st2) →
  ∃ pk1 sd1 pk2 sd2 si1 si2,
    computeSignerData a ctx1 st0 = (Ok (pk1, sd1), st1)
    ∧ computeSignerData a ctx2 st1 = (Ok (pk2, sd2), st2)
    ∧ SignerData_Sequence sd1 = Store_Sequence st0
    ∧ SignerData_Sequence sd2 = SignerData_Sequence sd1 + 1
    ∧ signerInfoAt msg1 = Ok si1
    ∧ signerInfoAt msg2 = Ok si2
    ∧ SignerInfo_Sequence si1 = SignerData_Sequence sd1
    ∧ SignerInfo_Sequence si2 = SignerData_Sequence sd1 + 1
    ∧ Store_Sequence st2 = Store_Sequence st0 + 2.
Proof.
  intros H1 H2.
  apply Authenticate_Ok in H1 as (_ & pk1 & sd1 & Hsd1 & Hrest1).
  apply Authenticate_Ok in H2 as (_ & pk2 & sd2 & Hsd2 & Hrest2).
  destruct (computeSignerData_Ok _ _ _ _ _ _ Hsd1) as (Hst1 & Hseq1 & _).
  destruct (computeSignerData_Ok _ _ _ _ _ _ Hsd2) as (Hst2 & Hseq2 & _).
  apply afterSignerData_Ok in Hrest1 as (? & si1 & ? & ? & ? & _ & Hsi1 & Hc1 & _).
  apply afterSignerData_Ok in Hrest2 as (? & si2 & ? & ? & ? & _ & Hsi2 & Hc2 & _).
  exists pk1, sd1, pk2, sd2, si1, si2.
  assert (SignerData_Sequence sd2 = SignerData_Sequence sd1 + 1) as Hnext.
  { rewrite Hseq2, Hseq1, Hst1. reflexivity. }
  repeat split; try done.
  - by rewrite Hc2.
  - rewrite Hst2, Hst1. unfold consumed; simpl. lia.
Qed.

(** ** The transaction data *)

(** C8.  When the raw body bytes and the raw auth-info bytes of a request
    decode, [getTxData] builds the transaction data of the decoded values
    and of these very byte strings, and this transaction data is what
    [Authenticate] passes to the sign-bytes handlers: in every call that
    comes as far, the signer data assembled, the sequence number matching,
    the mode resolved and a signature at the signer index, the outcome is
    the one that [GetSignBytes], asked with this transaction data, decides:
    its error, or the verification of the signature over the sign-bytes it
    returned.  So the outcome of [Authenticate] cannot tell two handler
    registries apart that agree on all transaction data carrying the raw
    bytes. *)
Theorem TxData_carries_raw_bytes a msg rawTx txBody authInfo :
  MsgAuthenticate_RawTx msg = Some rawTx →
  Unmarshal_TxBody (TxRaw_BodyBytes rawTx) = Success txBody →
  Unmarshal_AuthInfo (TxRaw_AuthInfoBytes rawTx) = Success authInfo →
  ∃ td,
    getTxData a msg = Ok td
    ∧ TxData_BodyBytes td = TxRaw_BodyBytes rawTx
    ∧ TxData_AuthInfoBytes td = TxRaw_AuthInfoBytes rawTx
    ∧ TxData_Body td = txBody
    ∧ TxData_AuthInfo td = authInfo
    ∧ (∀ ctx st pk sd st1 si signMode sig,
         SenderIsAccountsModule ctx = true →
         computeSignerData a ctx st = (Ok (pk, sd), st1) →
         signerInfoAt msg = Ok si →
         SignerInfo_Sequence si = SignerData_Sequence sd →
         parseSignMode (SignerInfo_ModeInfo si) = Ok signMode →
         signatureAt msg = Ok sig →
         Authenticate a ctx msg st =
           (match GetSignBytes (signingHandlers a) ctx signMode sd td with
            | Ok signBytes =>
                if VerifySignature pk signBytes sig
                then Ok Build_MsgAuthenticateResponse
                else Err ErrSignatureVerificationFailed
            | Err e => Err e
            | Panic p => Panic p
            end, consumed st))
    ∧ ∀ h' ctx st,
        agree_on_raw_bytes (signingHandlers a) h'
          (TxRaw_BodyBytes rawTx) (TxRaw_AuthInfoBytes rawTx) →
        Authenticate (with_handlers a h') ctx msg st
        = Authenticate a ctx msg st.
Proof.
  intros Hraw Hbody Hauth.
  assert (∀ a', getTxData a' msg =
            Ok {| TxData_Body := txBody; TxData_AuthInfo := authInfo;
                  TxData_BodyBytes := TxRaw_BodyBytes rawTx;
                  TxData_AuthInfoBytes := TxRaw_AuthInfoBytes rawTx;
                  TxData_BodyHasUnknownNonCriticals := false |}) as Htd.
  { intros a'. unfold getTxData. rewrite Hraw; simpl.
    rewrite Hbody; simpl. by rewrite Hauth. }
  eexists. split; [apply Htd|]. do 4 (split; [done|]). split.
  - intros ctx st pk sd st1 si signMode sig Hpriv Hsd Hsi Hseq Hmode Hsig.
    rewrite (Authenticate_assembled _ _ _ _ _ _ _ Hpriv Hsd). f_equal.
    unfold afterSignerData, mbind, outcome_bind.
    rewrite Htd, Hsi, Hseq, N.eqb_refl, Hmode; simpl. rewrite Hsig.
    destruct (GetSignBytes _ _ _ _ _) as [signBytes| |]; try done.
    by destruct (VerifySignature pk signBytes sig).
  - intros h' ctx st Hagree. rewrite !Authenticate_split.
    destruct (SenderIsAccountsModule ctx); [|done].
    change (computeSignerData (with_handlers a h') ctx st)
      with (computeSignerData a ctx st).
    destruct (computeSignerData a ctx st) as [[[pk sd]|e|p] st']; try done.
    f_equal. unfold afterSignerData. rewrite !Htd; simpl.
    destruct (signerInfoAt msg) as [si| |]; simpl; try done.
    destruct (negb _); try done.
    destruct (wrap_error _ _) as [mode| |]; simpl; try done.
    destruct (signatureAt msg) as [sig| |]; simpl; try done.
    simpl. by rewrite <- Hagree.
Qed.

(** C9.  Whatever the request and whatever its body decodes to, the
    transaction data [getTxData] returns has its
    [BodyHasUnknownNonCriticals] flag off. *)
Theorem getTxData_no_unknown_non_criticals a msg td :
  getTxData a msg = Ok td →
  TxData_BodyHasUnknownNonCriticals td = false.
Proof.
  unfold getTxData, mbind, outcome_bind.
  destruct (MsgAuthenticate_RawTx msg) as [rawTx|]; simpl; [|done].
  destruct (Unmarshal_TxBody _); simpl; [|done].
  destruct (Unmarshal_AuthInfo _); simpl; [|done].
  by intros [= <-].
Qed.

(** ** The checks, in the order the flow makes them *)

(** C1, as amended.  In a call from the accounts module for which the
    signer data is assembled and the raw transaction decodes, with a signer
    index inside the signer-info list, a claimed sequence number other than
    the one just consumed, which is the value the counter had, is answered
    with the unexpected-sequence error, and the counter is left exactly one
    higher. *)
Theorem Authenticate_sequence_mismatch a ctx msg st pk sd st1 td si :
  SenderIsAccountsModule ctx = true →
  computeSignerData a ctx st = (Ok (pk, sd), st1) →
  getTxData a msg = Ok td →
  signerInfoAt msg = Ok si →
  SignerInfo_Sequence si ≠ SignerData_Sequence sd →
  SignerData_Sequence sd = Store_Sequence st
  ∧ Authenticate a ctx msg st =
      (Err (ErrUnexpectedSequence (SignerData_Sequence sd)
              (SignerInfo_Sequence si)), consumed st)
  ∧ fails_with (Authenticate a ctx msg st).1 SequenceMismatch
  ∧ Store_Sequence (Authenticate a ctx msg st).2 = Store_Sequence st + 1.
Proof.
  intros Hpriv Hsd Htd Hsi Hne.
  assert (Authenticate a ctx msg st =
            (Err (ErrUnexpectedSequence (SignerData_Sequence sd)
                    (SignerInfo_Sequence si)), consumed st)) as Hauth.
  { rewrite (Authenticate_assembled _ _ _ _ _ _ _ Hpriv Hsd). f_equal.
    unfold afterSignerData, mbind, outcome_bind. rewrite Htd, Hsi; simpl.
    by destruct (N.eqb_spec (SignerInfo_Sequence si) (SignerData_Sequence sd)). }
  apply computeSignerData_Ok in Hsd as (_ & Hseq & _).
  rewrite Hauth. repeat split; try done. by eexists.
Qed.

(** C2, as amended.  In a call from the accounts module for which the
    signer data is assembled and the raw transaction decodes, a signer index
    past the end of the signer-info list is not answered with an error: the
    indexing of the list raises the index-out-of-range panic, and by then the
    sequence counter has been advanced by one. *)
Theorem Authenticate_index_out_of_range a ctx msg st pk sd st1 td tx authInfo :
  SenderIsAccountsModule ctx = true →
  computeSignerData a ctx st = (Ok (pk, sd), st1) →
  getTxData a msg = Ok td →
  MsgAuthenticate_Tx msg = Some tx →
  Tx_AuthInfo tx = Some authInfo →
  (length (AuthInfo_SignerInfos authInfo)
     ≤ N.to_nat (MsgAuthenticate_SignerIndex msg))%nat →
  Authenticate a ctx msg st =
    (Panic (IndexOutOfRange (MsgAuthenticate_SignerIndex msg)
              (length (AuthInfo_SignerInfos authInfo))), consumed st)
  ∧ Store_Sequence (Authenticate a ctx msg st).2 = Store_Sequence st + 1.
Proof.
  intros Hpriv Hsd Htd Htx Hai Hlen.
  assert (Authenticate a ctx msg st =
            (Panic (IndexOutOfRange (MsgAuthenticate_SignerIndex msg)
                      (length (AuthInfo_SignerInfos authInfo))),
             consumed st)) as Hauth; [|by rewrite Hauth].
  rewrite (Authenticate_assembled _ _ _ _ _ _ _ Hpriv Hsd). f_equal.
  unfold afterSignerData, signerInfoAt, index, mbind, outcome_bind. rewrite Htd, Htx; simpl.
  rewrite Hai; simpl. by rewrite (lookup_ge_None_2 _ _ Hlen).
Qed.

(** C3.  In a call from the accounts module in which the signer data is
    assembled around the stored public key, the raw transaction decodes,
    the claimed sequence number is the one consumed, the mode resolves and
    its registered handler produces the sign-bytes: a signature at the
    signer index that the verifier accepts, under the stored key and over
    these sign-bytes, makes the call succeed; and if the verifier refuses
    accepted signatures with one bit inverted, then the same request with
    any single bit of that signature inverted is answered with the
    signature-verification error. *)
Theorem Authenticate_signature
    a ctx msg st pk sd st1 td si signMode signBytes sig :
  SenderIsAccountsModule ctx = true →
  computeSignerData a ctx st = (Ok (pk, sd), st1) →
  getTxData a msg = Ok td →
  signerInfoAt msg = Ok si →
  SignerInfo_Sequence si = SignerData_Sequence sd →
  parseSignMode (SignerInfo_ModeInfo si) = Ok signMode →
  signatureAt msg = Ok sig →
  GetSignBytes (signingHandlers a) ctx signMode sd td = Ok signBytes →
  VerifySignature pk signBytes sig = true →
  Store_PubKey st = Some pk
  ∧ Authenticate a ctx msg st = (Ok Build_MsgAuthenticateResponse, consumed st)
  ∧ (rejects_bit_flips VerifySignature →
     ∀ i : nat, (i < 8 * length sig)%nat →
       Authenticate a ctx (with_signature msg (flip_bit i sig)) st =
         (Err ErrSignatureVerificationFailed, consumed st)
       ∧ fails_with
           (Authenticate a ctx (with_signature msg (flip_bit i sig)) st).1
           SignatureInvalid).
Proof.
  intros Hpriv Hsd Htd Hsi Hseq Hmode Hsig Hsb Hv.
  split; [by apply computeSignerData_Ok in Hsd as (_ & _ & ? & _)|].
  split.
  - rewrite (Authenticate_assembled _ _ _ _ _ _ _ Hpriv Hsd). f_equal.
    apply afterSignerData_Ok. by exists td, si, signMode, sig, signBytes.
  - intros Hflip i Hi.
    assert (Authenticate a ctx (with_signature msg (flip_bit i sig)) st =
              (Err ErrSignatureVerificationFailed, consumed st)) as Hauth.
    { rewrite (Authenticate_assembled _ _ _ _ _ _ _ Hpriv Hsd). f_equal.
      unfold afterSignerData, mbind, outcome_bind.
      rewrite getTxData_with_signature, signerInfoAt_with_signature.
      rewrite Htd, Hsi, Hseq, N.eqb_refl, Hmode; simpl.
      rewrite (signatureAt_with_signature _ _ _ Hsig), Hsb; simpl.
      by rewrite (Hflip _ _ _ _ Hv Hi). }
    rewrite Hauth. split; [done|by eexists].
Qed.

(** C5, as amended.  In a call from the accounts module for which the
    signer data is assembled and the raw transaction decodes, with a signer
    index inside the signer-info list and the claimed sequence number the
    one consumed, a composite mode descriptor is answered with the
    sign-mode error.  Nothing is asked of the signatures, the handlers or
    the verifier: the answer is the same whatever they are, and the same
    for every signature put at the signer index. *)
Theorem Authenticate_composite_mode
    a ctx msg st pk sd st1 td si bitarray modeInfos :
  SenderIsAccountsModule ctx = true →
  computeSignerData a ctx st = (Ok (pk, sd), st1) →
  getTxData a msg = Ok td →
  signerInfoAt msg = Ok si →
  SignerInfo_Sequence si = SignerData_Sequence sd →
  SignerInfo_ModeInfo si = Some (composite bitarray modeInfos) →
  Authenticate a ctx msg st =
    (Err (ErrUnableToParseSignMode ErrOnlySignModeSingle), consumed st)
  ∧ fails_with (Authenticate a ctx msg st).1 UnsupportedSignMode
  ∧ ∀ sig, Authenticate a ctx (with_signature msg sig) st
           = Authenticate a ctx msg st.
Proof.
  intros Hpriv Hsd Htd Hsi Hseq Hmode.
  assert (∀ m, getTxData a m = Ok td → signerInfoAt m = Ok si →
            Authenticate a ctx m st =
              (Err (ErrUnableToParseSignMode ErrOnlySignModeSingle),
               consumed st)) as Hany.
  { intros m Htd' Hsi'.
    rewrite (Authenticate_assembled _ _ _ _ _ _ _ Hpriv Hsd). f_equal.
    unfold afterSignerData, mbind, outcome_bind.
    by rewrite Htd', Hsi', Hseq, N.eqb_refl, Hmode. }
  rewrite (Hany msg Htd Hsi). repeat split; [by eexists|].
  intros sig. apply Hany.
  - by rewrite getTxData_with_signature.
  - by rewrite signerInfoAt_with_signature.
Qed.

(** C10.  [parseSignMode] returns the mode number of every single-signer
    descriptor as it is, whatever the number.  A mode without a handler is
    turned down by the registry: in a call from the accounts module that
    comes as far, the signer data assembled, the raw transaction decoded,
    the sequence number matching and a signature at the signer index, the
    outcome is the registry's error for that mode. *)
Theorem parseSignMode_single_unvalidated (mode : SignMode) :
  parseSignMode (Some (single mode)) = Ok mode
  ∧ ∀ a ctx msg st pk sd st1 td si sig,
      SenderIsAccountsModule ctx = true →
      computeSignerData a ctx st = (Ok (pk, sd), st1) →
      getTxData a msg = Ok td →
      signerInfoAt msg = Ok si →
      SignerInfo_Sequence si = SignerData_Sequence sd →
      SignerInfo_ModeInfo si = Some (single mode) →
      signatureAt msg = Ok sig →
      signingHandlers a !! mode = None →
      GetSignBytes (signingHandlers a) ctx mode sd td
        = Err (ErrNoSignModeHandler mode)
      ∧ Authenticate a ctx msg st = (Err (ErrNoSignModeHandler mode), consumed st)
      ∧ fails_with (Authenticate a ctx msg st).1 UnsupportedSignMode.
Proof.
  split; [done|].
  intros a ctx msg st pk sd st1 td si sig Hpriv Hsd Htd Hsi Hseq Hmode Hsig Hnone.
  assert (GetSignBytes (signingHandlers a) ctx mode sd td
          = Err (ErrNoSignModeHandler mode)) as Hsb.
  { unfold GetSignBytes, HandlerMap, SignModeHandler in *. by rewrite Hnone. }
  assert (Authenticate a ctx msg st
          = (Err (ErrNoSignModeHandler mode), consumed st)) as Hauth.
  { rewrite (Authenticate_assembled _ _ _ _ _ _ _ Hpriv Hsd). f_equal.
    unfold afterSignerData, mbind, outcome_bind.
    rewrite Htd, Hsi, Hseq, N.eqb_refl, Hmode; simpl.
    by rewrite Hsig, Hsb. }
  rewrite Hauth. repeat split; [done|by eexists].
Qed.
End properties.

(** ** Inverting one bit of a signature *)

Lemma flip_nth_bit_neq (k : nat) (b : byte) :
  (k < 8)%nat → flip_nth_bit k b ≠ b.
Proof.
  intros Hk Heq. apply (f_equal Byte.to_bits) in Heq.
  unfold flip_nth_bit in Heq.
  destruct (Byte.to_bits b)
    as (b0 & b1 & b2 & b3 & b4 & b5 & b6 & b7) eqn:Hbits.
  rewrite Byte.to_bits_of_bits in Heq.
  do 8 (destruct k as [|k]; [injection Heq; intros;
                             repeat match goal with
                                    | H : negb ?x = ?x |- _ => by destruct x
                                    end|]).
  lia.
Qed.

Lemma flip_bit_neq (i : nat) (bs : list byte) :
  (i < 8 * length bs)%nat → flip_bit i bs ≠ bs.
Proof.
  intros Hi Heq. unfold flip_bit in Heq.
  assert (i / 8 < length bs)%nat as Hlt
    by (apply Nat.Div0.div_lt_upper_bound; lia).
  destruct (lookup_lt_is_Some_2 bs _ Hlt) as [b Hb].
  rewrite Hb in Heq.
  apply (f_equal (λ l, l !! (i / 8)%nat)) in Heq.
  rewrite list_lookup_insert_eq, Hb in Heq by done.
  injection Heq as Heq.
  assert (i mod 8 < 8)%nat as Hmod by (apply Nat.mod_upper_bound; lia).
  exact (flip_nth_bit_neq _ _ Hmod Heq).
Qed.

(** The verifier of the concrete runtime accepts one signature for each key
    and message, so it refuses every accepted signature with a bit inverted. *)
Lemma ex_verify_rejects_bit_flips : rejects_bit_flips ex_verify.
Proof.
  intros pk m sig i Hv Hi. unfold ex_verify in *.
  apply bool_decide_eq_true in Hv. apply bool_decide_eq_false.
  rewrite <- Hv. by apply flip_bit_neq.
Qed.

(** ** The scenarios of the specification on the concrete runtime *)

(** Account at sequence 5, direct mode, the transaction claiming sequence 5
    with the account's signature: success, and the account is at 6. *)
Example scenario_success :
  Authenticate (RT := ex_runtime) ex_account (ex_ctx true) (ex_request 5)
    (ex_store 5)
  = (Ok Build_MsgAuthenticateResponse, ex_store 6).
Proof. vm_compute. reflexivity. Qed.

(** The same with the transaction claiming sequence 7: the sequence error,
    and the account is at 6, not 7. *)
Example scenario_mismatch :
  Authenticate (RT := ex_runtime) ex_account (ex_ctx true) (ex_request 7)
    (ex_store 5)
  = (Err (ErrUnexpectedSequence 5 7), ex_store 6).
Proof. vm_compute. reflexivity. Qed.

(** The error paths behind the consumption of the sequence number, each
    leaving the account at 6: bytes that do not decode, an account without a
    number, an account without a key, a composite mode, a mode without a
    handler, a signature with one bit inverted. *)
Example scenario_decode_failure :
  Authenticate (RT := ex_runtime) ex_account (ex_ctx true)
    (ex_msg [xff] (single SIGN_MODE_DIRECT) 5 ex_signature 0) (ex_store 5)
  = (Err (ErrCollaborator "proto: cannot parse invalid wire-format data"),
     ex_store 6).
Proof. vm_compute. reflexivity. Qed.

Example scenario_account_not_found :
  Authenticate (RT := ex_runtime) ex_account
    {| ex_fromAccountsModule := true; ex_self := [x01; x02];
       ex_number := None |}
    (ex_request 5) (ex_store 5)
  = (Err (ErrCollaborator "account number not found"), ex_store 6).
Proof. vm_compute. reflexivity. Qed.

Example scenario_no_public_key :
  Authenticate (RT := ex_runtime) ex_account (ex_ctx true) (ex_request 5)
    {| Store_PubKey := None; Store_Sequence := 5 |}
  = (Err ErrNotFound, {| Store_PubKey := None; Store_Sequence := 6 |}).
Proof. vm_compute. reflexivity. Qed.

Example scenario_composite_mode :
  Authenticate (RT := ex_runtime) ex_account (ex_ctx true)
    (ex_msg ex_body ex_multi 5 ex_signature 0) (ex_store 5)
  = (Err (ErrUnableToParseSignMode ErrOnlySignModeSingle), ex_store 6).
Proof. vm_compute. reflexivity. Qed.

Example scenario_no_handler :
  Authenticate (RT := ex_runtime) ex_account (ex_ctx true)
    (ex_msg ex_body (single SIGN_MODE_TEXTUAL) 5 ex_signature 0) (ex_store 5)
  = (Err (ErrNoSignModeHandler SIGN_MODE_TEXTUAL), ex_store 6).
Proof. vm_compute. reflexivity. Qed.

Example scenario_bit_inverted :
  Authenticate (RT := ex_runtime) ex_account (ex_ctx true)
    (with_signature (ex_request 5) (flip_bit 9 ex_signature)) (ex_store 5)
  = (Err ErrSignatureVerificationFailed, ex_store 6).
Proof. vm_compute. reflexivity. Qed.

(** A caller other than the accounts module: nothing is consumed. *)
Example scenario_unauthorized :
  Authenticate (RT := ex_runtime) ex_account (ex_ctx false) (ex_request 5)
    (ex_store 5)
  = (Err ErrUnauthorized, ex_store 5).
Proof. vm_compute. reflexivity. Qed.

(** An address the codec cannot render: the error comes before the
    consumption, and the account stays at 5. *)
Example scenario_address_codec_failure :
  Authenticate (RT := ex_runtime)
    {| addrCodec := {| BytesToString := λ bs, Failure "invalid address" |};
       hs := hs ex_account;
       signingHandlers := signingHandlers ex_account |}
    (ex_ctx true) (ex_request 5) (ex_store 5)
  = (Err (ErrCollaborator "invalid address"), ex_store 5).
Proof. vm_compute. reflexivity. Qed.

(** ** The properties at work on the concrete runtime *)

Lemma Authenticate_unauthorized_witness :
  @SenderIsAccountsModule ex_runtime (ex_ctx false) = false
  ∧ Authenticate (RT := ex_runtime) ex_account (ex_ctx false) (ex_request 5)
      (ex_store 5)
    = (Err ErrUnauthorized, ex_store 5).
Proof.
  split; [reflexivity|].
  apply (Authenticate_unauthorized (RT := ex_runtime)
           ex_account (ex_ctx false) (ex_request 5) (ex_store 5)).
  reflexivity.
Defined.

Lemma Authenticate_frame_witness :
  @SenderIsAccountsModule ex_runtime (ex_ctx true) = true
  ∧ BytesToString (addrCodec ex_account) (@Whoami ex_runtime (ex_ctx true))
    = Success "cosmos1account"
  ∧ (Authenticate (RT := ex_runtime) ex_account (ex_ctx true) (ex_request 7)
       (ex_store 5)).2
    = consumed (ex_store 5).
Proof.
  split; [reflexivity|]. split; [reflexivity|].
  apply (Authenticate_frame (RT := ex_runtime) ex_account (ex_ctx true)
           (ex_request 7) (ex_store 5) "cosmos1account");
    reflexivity.
Defined.

Lemma Authenticate_consecutive_witness :
  Authenticate (RT := ex_runtime) ex_account (ex_ctx true) (ex_request 5)
    (ex_store 5)
  = (Ok Build_MsgAuthenticateResponse, ex_store 6)
  ∧ Authenticate (RT := ex_runtime) ex_account (ex_ctx true) (ex_request 6)
      (ex_store 6)
    = (Ok Build_MsgAuthenticateResponse, ex_store 7)
  ∧ ∃ pk1 sd1 pk2 sd2 si1 si2,
      computeSignerData (RT := ex_runtime) ex_account (ex_ctx true) (ex_store 5)
      = (Ok (pk1, sd1), ex_store 6)
      ∧ computeSignerData (RT := ex_runtime) ex_account (ex_ctx true)
          (ex_store 6)
        = (Ok (pk2, sd2), ex_store 7)
      ∧ SignerData_Sequence sd1 = Store_Sequence (ex_store 5)
      ∧ SignerData_Sequence sd2 = SignerData_Sequence sd1 + 1
      ∧ signerInfoAt (ex_request 5) = Ok si1
      ∧ signerInfoAt (ex_request 6) = Ok si2
      ∧ SignerInfo_Sequence si1 = SignerData_Sequence sd1
      ∧ SignerInfo_Sequence si2 = SignerData_Sequence sd1 + 1
      ∧ Store_Sequence (ex_store 7) = Store_Sequence (ex_store 5) + 2.
Proof.
  split; [vm_compute; reflexivity|]. split; [vm_compute; reflexivity|].
  apply (Authenticate_consecutive (RT := ex_runtime) ex_account
           (ex_ctx true) (ex_request 5) (ex_ctx true) (ex_request 6)
           (ex_store 5) (ex_store 6) (ex_store 7)
           Build_MsgAuthenticateResponse Build_MsgAuthenticateResponse);
    vm_compute; reflexivity.
Defined.

Lemma TxData_carries_raw_bytes_witness :
  MsgAuthenticate_RawTx (ex_request 5)
  = Some {| TxRaw_BodyBytes := ex_body; TxRaw_AuthInfoBytes := ex_auth;
            TxRaw_Signatures := [ex_signature] |}
  ∧ @Unmarshal_TxBody ex_runtime ex_body = Success ex_body
  ∧ @Unmarshal_AuthInfo ex_runtime ex_auth = Success ex_auth
  ∧ ∃ td, getTxData (RT := ex_runtime) ex_account (ex_request 5) = Ok td
          ∧ TxData_BodyBytes td = ex_body
          ∧ TxData_AuthInfoBytes td = ex_auth
          ∧ TxData_Body td = ex_body
          ∧ TxData_AuthInfo td = ex_auth
          ∧ GetSignBytes (RT := ex_runtime) (signingHandlers ex_account)
              (ex_ctx true) SIGN_MODE_DIRECT (ex_signerData 5) td
            = Ok (ex_body ++ ex_auth)
          ∧ Authenticate (RT := ex_runtime) ex_account (ex_ctx true)
              (ex_request 5) (ex_store 5)
            = (Ok Build_MsgAuthenticateResponse, consumed (ex_store 5)).
Proof.
  split; [reflexivity|]. split; [reflexivity|]. split; [reflexivity|].
  destruct (TxData_carries_raw_bytes (RT := ex_runtime) ex_account
              (ex_request 5)
              {| TxRaw_BodyBytes := ex_body; TxRaw_AuthInfoBytes := ex_auth;
                 TxRaw_Signatures := [ex_signature] |} ex_body ex_auth)
    as (td & Htd & Hbody & Hauth & Hb & Ha & Hpassed & _);
    [reflexivity..|].
  exists td. do 5 (split; [assumption|]).
  injection Htd as <-. split; [vm_compute; reflexivity|].
  rewrite (Hpassed (ex_ctx true) (ex_store 5) ex_pk (ex_signerData 5)
             (ex_store 6) (ex_signerInfo (single SIGN_MODE_DIRECT) 5)
             SIGN_MODE_DIRECT ex_signature);
    vm_compute; reflexivity.
Defined.

Lemma getTxData_no_unknown_non_criticals_witness :
  getTxData (RT := ex_runtime) ex_account (ex_request 5) = Ok ex_txData
  ∧ TxData_BodyHasUnknownNonCriticals ex_txData = false.
Proof.
  split; [reflexivity|].
  apply (getTxData_no_unknown_non_criticals (RT := ex_runtime) ex_account
           (ex_request 5) ex_txData).
  reflexivity.
Defined.

Lemma Authenticate_signature_witness :
  @SenderIsAccountsModule ex_runtime (ex_ctx true) = true
  ∧ computeSignerData (RT := ex_runtime) ex_account (ex_ctx true) (ex_store 5)
    = (Ok (ex_pk, ex_signerData 5), ex_store 6)
  ∧ getTxData (RT := ex_runtime) ex_account (ex_request 5) = Ok ex_txData
  ∧ signerInfoAt (ex_request 5)
    = Ok (ex_signerInfo (single SIGN_MODE_DIRECT) 5)
  ∧ parseSignMode (Some (single SIGN_MODE_DIRECT)) = Ok SIGN_MODE_DIRECT
  ∧ signatureAt (ex_request 5) = Ok ex_signature
  ∧ GetSignBytes (RT := ex_runtime) (signingHandlers ex_account) (ex_ctx true)
      SIGN_MODE_DIRECT (ex_signerData 5) ex_txData
    = Ok (ex_body ++ ex_auth)
  ∧ @VerifySignature ex_runtime ex_pk (ex_body ++ ex_auth) ex_signature = true
  ∧ rejects_bit_flips (@VerifySignature ex_runtime)
  ∧ Authenticate (RT := ex_runtime) ex_account (ex_ctx true) (ex_request 5)
      (ex_store 5)
    = (Ok Build_MsgAuthenticateResponse, consumed (ex_store 5))
  ∧ ∀ i : nat, (i < 8 * length ex_signature)%nat →
      Authenticate (RT := ex_runtime) ex_account (ex_ctx true)
        (with_signature (ex_request 5) (flip_bit i ex_signature)) (ex_store 5)
      = (Err ErrSignatureVerificationFailed, consumed (ex_store 5)).
Proof.
  do 8 (split; [vm_compute; reflexivity|]).
  split; [exact ex_verify_rejects_bit_flips|].
  destruct (Authenticate_signature (RT := ex_runtime) ex_account (ex_ctx true)
              (ex_request 5) (ex_store 5) ex_pk (ex_signerData 5) (ex_store 6)
              ex_txData (ex_signerInfo (single SIGN_MODE_DIRECT) 5)
              SIGN_MODE_DIRECT (ex_body ++ ex_auth) ex_signature)
    as (_ & Hok & Hflip); try (vm_compute; reflexivity).
  split; [exact Hok|].
  intros i Hi. exact (proj1 (Hflip ex_verify_rejects_bit_flips i Hi)).
Defined.

Lemma parseSignMode_single_unvalidated_witness :
  parseSignMode (Some (single SIGN_MODE_TEXTUAL)) = Ok SIGN_MODE_TEXTUAL
  ∧ signingHandlers ex_account !! SIGN_MODE_TEXTUAL = None
  ∧ Authenticate (RT := ex_runtime) ex_account (ex_ctx true)
      (ex_msg ex_body (single SIGN_MODE_TEXTUAL) 5 ex_signature 0) (ex_store 5)
    = (Err (ErrNoSignModeHandler SIGN_MODE_TEXTUAL), consumed (ex_store 5)).
Proof.
  destruct (parseSignMode_single_unvalidated (RT := ex_runtime)
              SIGN_MODE_TEXTUAL) as (Hparse & Hlater).
  split; [exact Hparse|]. split; [vm_compute; reflexivity|].
  apply (Hlater ex_account (ex_ctx true)
           (ex_msg ex_body (single SIGN_MODE_TEXTUAL) 5 ex_signature 0)
           (ex_store 5) ex_pk (ex_signerData 5) (ex_store 6) ex_txData
           (ex_signerInfo (single SIGN_MODE_TEXTUAL) 5) ex_signature);
    vm_compute; reflexivity.
Defined.

Lemma Authenticate_sequence_mismatch_witness :
  @SenderIsAccountsModule ex_runtime (ex_ctx true) = true
  ∧ computeSignerData (RT := ex_runtime) ex_account (ex_ctx true) (ex_store 5)
    = (Ok (ex_pk, ex_signerData 5), ex_store 6)
  ∧ getTxData (RT := ex_runtime) ex_account (ex_request 7) = Ok ex_txData
  ∧ signerInfoAt (ex_request 7)
    = Ok (ex_signerInfo (single SIGN_MODE_DIRECT) 7)
  ∧ 7 ≠ SignerData_Sequence (ex_signerData 5)
  ∧ Authenticate (RT := ex_runtime) ex_account (ex_ctx true) (ex_request 7)
      (ex_store 5)
    = (Err (ErrUnexpectedSequence 5 7), consumed (ex_store 5)).
Proof.
  do 4 (split; [vm_compute; reflexivity|]). split; [done|].
  apply (Authenticate_sequence_mismatch (RT := ex_runtime) ex_account
           (ex_ctx true) (ex_request 7) (ex_store 5) ex_pk (ex_signerData 5)
           (ex_store 6) ex_txData (ex_signerInfo (single SIGN_MODE_DIRECT) 7));
    try (vm_compute; reflexivity); done.
Defined.

Lemma Authenticate_index_out_of_range_witness :
  @SenderIsAccountsModule ex_runtime (ex_ctx true) = true
  ∧ computeSignerData (RT := ex_runtime) ex_account (ex_ctx true) (ex_store 5)
    = (Ok (ex_pk, ex_signerData 5), ex_store 6)
  ∧ getTxData (RT := ex_runtime) ex_account
      (ex_msg ex_body (single SIGN_MODE_DIRECT) 5 ex_signature 1)
    = Ok ex_txData
  ∧ (length [ex_signerInfo (single SIGN_MODE_DIRECT) 5] ≤ N.to_nat 1)%nat
  ∧ Authenticate (RT := ex_runtime) ex_account (ex_ctx true)
      (ex_msg ex_body (single SIGN_MODE_DIRECT) 5 ex_signature 1) (ex_store 5)
    = (Panic (IndexOutOfRange 1 1), consumed (ex_store 5)).
Proof.
  do 2 (split; [vm_compute; reflexivity|]). split; [reflexivity|].
  split; [vm_compute; lia|].
  apply (Authenticate_index_out_of_range (RT := ex_runtime) ex_account
           (ex_ctx true)
           (ex_msg ex_body (single SIGN_MODE_DIRECT) 5 ex_signature 1)
           (ex_store 5) ex_pk (ex_signerData 5) (ex_store 6) ex_txData
           {| Tx_AuthInfo :=
                Some {| AuthInfo_SignerInfos :=
                          [ex_signerInfo (single SIGN_MODE_DIRECT) 5] |};
              Tx_Signatures := [ex_signature] |}
           {| AuthInfo_SignerInfos :=
                [ex_signerInfo (single SIGN_MODE_DIRECT) 5] |});
    vm_compute; reflexivity.
Defined.

Lemma Authenticate_composite_mode_witness :
  @SenderIsAccountsModule ex_runtime (ex_ctx true) = true
  ∧ computeSignerData (RT := ex_runtime) ex_account (ex_ctx true) (ex_store 5)
    = (Ok (ex_pk, ex_signerData 5), ex_store 6)
  ∧ getTxData (RT := ex_runtime) ex_account
      (ex_msg ex_body ex_multi 5 ex_signature 0)
    = Ok ex_txData
  ∧ signerInfoAt (ex_msg ex_body ex_multi 5 ex_signature 0)
    = Ok (ex_signerInfo ex_multi 5)
  ∧ Authenticate (RT := ex_runtime) ex_account (ex_ctx true)
      (ex_msg ex_body ex_multi 5 ex_signature 0) (ex_store 5)
    = (Err (ErrUnableToParseSignMode ErrOnlySignModeSingle),
       consumed (ex_store 5)).
Proof.
  do 4 (split; [vm_compute; reflexivity|]).
  apply (Authenticate_composite_mode (RT := ex_runtime) ex_account
           (ex_ctx true) (ex_msg ex_body ex_multi 5 ex_signature 0)
           (ex_store 5) ex_pk (ex_signerData 5) (ex_store 6) ex_txData
           (ex_signerInfo ex_multi 5) [true] [single SIGN_MODE_DIRECT]);
    vm_compute; reflexivity.
Defined.

(** ** Where the checks are not reached *)

(** Against C1 as it stands.  A request from the accounts module whose body
    bytes do not decode, with a signer index inside the signer-info list and
    a claimed sequence number other than the one consumed: the decoding
    error is returned, not the sequence error; the counter is one higher. *)
Lemma sequence_mismatch_behind_decoding :
  let msg := ex_msg [xff] (single SIGN_MODE_DIRECT) 7 ex_signature 0 in
  let result := Authenticate (RT := ex_runtime) ex_account (ex_ctx true) msg
                  (ex_store 5) in
  @SenderIsAccountsModule ex_runtime (ex_ctx true) = true
  ∧ signerInfoAt msg = Ok (ex_signerInfo (single SIGN_MODE_DIRECT) 7)
  ∧ 7 ≠ Store_Sequence (ex_store 5)
  ∧ result = (Err (ErrCollaborator
                     "proto: cannot parse invalid wire-format data"),
              ex_store 6)
  ∧ ¬ fails_with result.1 SequenceMismatch.
Proof.
  repeat split; try done.
  intros (e & He & Hkind). vm_compute in He. by injection He as <-.
Qed.

(** Against C2 as it stands.  A request from the accounts module whose
    signer index is past the end of the signer-info list: there is no error
    of any kind but a panic, and the store has changed, the counter being
    one higher. *)
Lemma index_out_of_range_panics :
  let msg := ex_msg ex_body (single SIGN_MODE_DIRECT) 5 ex_signature 1 in
  let result := Authenticate (RT := ex_runtime) ex_account (ex_ctx true) msg
                  (ex_store 5) in
  @SenderIsAccountsModule ex_runtime (ex_ctx true) = true
  ∧ signerInfoAt msg = Panic (IndexOutOfRange 1 1)
  ∧ result = (Panic (IndexOutOfRange 1 1), ex_store 6)
  ∧ ¬ fails_with result.1 MalformedRequest
  ∧ result.2 ≠ ex_store 5
  ∧ Store_Sequence result.2 = Store_Sequence (ex_store 5) + 1.
Proof.
  repeat split; try done.
  intros (e & He & Hkind). vm_compute in He. discriminate He.
Qed.

(** Against C5 as it stands.  A request from the accounts module whose body
    bytes do not decode, with a signer index inside the signer-info list, the
    claimed sequence number the one consumed and a composite mode
    descriptor: the decoding error is returned, not the sign-mode error. *)
Lemma composite_mode_behind_decoding :
  let msg := ex_msg [xff] ex_multi 5 ex_signature 0 in
  let result := Authenticate (RT := ex_runtime) ex_account (ex_ctx true) msg
                  (ex_store 5) in
  @SenderIsAccountsModule ex_runtime (ex_ctx true) = true
  ∧ signerInfoAt msg = Ok (ex_signerInfo ex_multi 5)
  ∧ SignerInfo_Sequence (ex_signerInfo ex_multi 5) = Store_Sequence (ex_store 5)
  ∧ SignerInfo_ModeInfo (ex_signerInfo ex_multi 5)
    = Some (composite [true] [single SIGN_MODE_DIRECT])
  ∧ result = (Err (ErrCollaborator
                     "proto: cannot parse invalid wire-format data"),
              ex_store 6)
  ∧ ¬ fails_with result.1 UnsupportedSignMode.
Proof.
  repeat split; try done.
  intros (e & He & Hkind). vm_compute in He. by injection He as <-.
Qed.

(** * Further properties of the authentication flow *)

Section authentication.
Context `{RT : Runtime}.
Implicit Types (a : Account) (ctx : GoContext) (msg : MsgAuthenticate).
Implicit Types (st : Store) (pk : PubKey) (sd : SignerData) (td : TxData).

(** [parseSignMode] accepts the single-signer descriptors and nothing
    else. *)
Lemma parseSignMode_Ok (info : option ModeInfo) (mode : SignMode) :
  parseSignMode info = Ok mode → info = Some (single mode).
Proof.
  destruct info as [[[[[m]|multi]|]]|]; try done.
  by intros [= <-].
Qed.

(** The steps after [computeSignerData] read the request through the raw
    bytes, the signer-info at the signer index and the signature there. *)
Lemma afterSignerData_reads a ctx msg msg' pk sd si si' :
  TxRaw_BodyBytes <$> MsgAuthenticate_RawTx msg
  = TxRaw_BodyBytes <$> MsgAuthenticate_RawTx msg' →
  TxRaw_AuthInfoBytes <$> MsgAuthenticate_RawTx msg
  = TxRaw_AuthInfoBytes <$> MsgAuthenticate_RawTx msg' →
  signerInfoAt msg = Ok si →
  signerInfoAt msg' = Ok si' →
  SignerInfo_Sequence si = SignerInfo_Sequence si' →
  SignerInfo_ModeInfo si = SignerInfo_ModeInfo si' →
  signatureAt msg = signatureAt msg' →
  afterSignerData a ctx msg pk sd = afterSignerData a ctx msg' pk sd.
Proof.
  intros Hbody Hauth Hsi Hsi' Hseq Hmode Hsig.
  assert (getTxData a msg = getTxData a msg') as Htd.
  { unfold getTxData.
    destruct (MsgAuthenticate_RawTx msg) as [raw|],
      (MsgAuthenticate_RawTx msg') as [raw'|]; try done.
    simpl in *. injection Hbody as ->. by injection Hauth as ->. }
  unfold afterSignerData, mbind, outcome_bind. rewrite Htd, Hsi, Hsi'.
  destruct (getTxData a msg') as [td| |]; try done.
  by rewrite Hseq, Hmode, Hsig.
Qed.

(** X1.  A call that succeeds came from the accounts module, consumed one
    sequence number, which is the number the transaction claimed, and
    verified the signature at the signer index under the stored public key,
    over the sign-bytes of a single-signer mode. *)
Theorem Authenticate_sound a ctx msg st r st' :
  Authenticate a ctx msg st = (Ok r, st') →
  SenderIsAccountsModule ctx = true
  ∧ st' = consumed st
  ∧ ∃ pk sd td si mode sig signBytes,
      Store_PubKey st = Some pk
      ∧ computeSignerData a ctx st = (Ok (pk, sd), st')
      ∧ SignerData_Sequence sd = Store_Sequence st
      ∧ getTxData a msg = Ok td
      ∧ signerInfoAt msg = Ok si
      ∧ SignerInfo_Sequence si = Store_Sequence st
      ∧ SignerInfo_ModeInfo si = Some (single mode)
      ∧ signatureAt msg = Ok sig
      ∧ GetSignBytes (signingHandlers a) ctx mode sd td = Ok signBytes
      ∧ VerifySignature pk signBytes sig = true.
Proof.
  intros Hauth.
  apply Authenticate_Ok in Hauth as (Hpriv & pk & sd & Hsd & Hrest).
  destruct (computeSignerData_Ok _ _ _ _ _ _ Hsd) as (Hst & Hseq & Hpk & _).
  apply afterSignerData_Ok in Hrest
    as (td & si & mode & sig & sb & Htd & Hsi & Hc & Hmode & Hsig & Hsb & Hv).
  apply parseSignMode_Ok in Hmode.
  split; [done|]. split; [done|].
  exists pk, sd, td, si, mode, sig, sb. repeat split; try done.
  by rewrite Hc.
Qed.

(** X2.  A request that was authenticated is refused from then on: on every
    store whose counter is past the one of the successful call, whoever
    calls and whatever the account's collaborators are. *)
Theorem Authenticate_no_replay a ctx msg st r st' :
  Authenticate a ctx msg st = (Ok r, st') →
  Store_Sequence st' = Store_Sequence st + 1
  ∧ ∀ a2 ctx2 st2,
      Store_Sequence st' ≤ Store_Sequence st2 →
      is_rejected (Authenticate a2 ctx2 msg st2).1.
Proof.
  intros Hauth.
  apply Authenticate_Ok in Hauth as (_ & pk & sd & Hsd & Hrest).
  destruct (computeSignerData_Ok _ _ _ _ _ _ Hsd) as (-> & Hseq & _).
  apply afterSignerData_Ok in Hrest as (? & si & ? & ? & ? & _ & Hsi & Hc & _).
  split; [done|]. intros a2 ctx2 st2 Hle.
  apply (Authenticate_mismatch_rejected a2 ctx2 msg st2 si Hsi).
  unfold consumed in Hle; simpl in Hle. lia.
Qed.

(** X3.  The outcome of a call depends on the request only through the raw body
    and auth-info bytes, the sequence number and the mode descriptor of the
    signer-info at the signer index and the signature at that index: the
    bundler, the signatures of the raw transaction, the public key the
    signer-info names and what stands at other indices are not looked at. *)
Theorem Authenticate_reads a ctx msg msg' st si si' :
  TxRaw_BodyBytes <$> MsgAuthenticate_RawTx msg
  = TxRaw_BodyBytes <$> MsgAuthenticate_RawTx msg' →
  TxRaw_AuthInfoBytes <$> MsgAuthenticate_RawTx msg
  = TxRaw_AuthInfoBytes <$> MsgAuthenticate_RawTx msg' →
  signerInfoAt msg = Ok si →
  signerInfoAt msg' = Ok si' →
  SignerInfo_Sequence si = SignerInfo_Sequence si' →
  SignerInfo_ModeInfo si = SignerInfo_ModeInfo si' →
  signatureAt msg = signatureAt msg' →
  Authenticate a ctx msg st = Authenticate a ctx msg' st.
Proof.
  intros Hbody Hauth Hsi Hsi' Hseq Hmode Hsig.
  rewrite !Authenticate_split.
  destruct (SenderIsAccountsModule ctx); [|done].
  destruct (computeSignerData a ctx st) as [[[pk sd]|e|p] st1]; try done.
  f_equal. by apply (afterSignerData_reads _ _ _ _ _ _ si si').
Qed.

(** X4.  When the address codec cannot render the account's address, a call from
    the accounts module returns the codec's error and leaves the store as it
    was: no sequence number is consumed. *)
Theorem Authenticate_address_failure a ctx msg st err :
  SenderIsAccountsModule ctx = true →
  BytesToString (addrCodec a) (Whoami ctx) = Failure err →
  Authenticate a ctx msg st = (Err (ErrCollaborator err), st).
Proof.
  intros Hpriv Haddr. rewrite Authenticate_split, Hpriv.
  unfold computeSignerData, mbind, M_bind, lift. by rewrite Haddr.
Qed.

(** X5.  On an account whose public key was never set, every call from the
    accounts module, whatever its request, is answered with the not-found
    error of the key, and each such call consumes a sequence number. *)
Theorem Authenticate_no_public_key a ctx msg st addr :
  SenderIsAccountsModule ctx = true →
  BytesToString (addrCodec a) (Whoami ctx) = Success addr →
  Store_PubKey st = None →
  Authenticate a ctx msg st = (Err ErrNotFound, consumed st).
Proof.
  intros Hpriv Haddr Hpk. rewrite Authenticate_split, Hpriv.
  unfold computeSignerData, mbind, M_bind, lift, Sequence_Next, PubKey_Get,
    consumed; simpl.
  rewrite Haddr; simpl. by rewrite Hpk.
Qed.

(** X6.  In a call from the accounts module for which the signer data is
    assembled, the raw transaction decodes, the sequence number matches and
    the mode is a single-signer one, a signer index past the end of the
    signatures is not answered with an error: the indexing raises the
    index-out-of-range panic, whatever the handlers are. *)
Theorem Authenticate_signature_missing
    a ctx msg st pk sd st1 td si signMode tx :
  SenderIsAccountsModule ctx = true →
  computeSignerData a ctx st = (Ok (pk, sd), st1) →
  getTxData a msg = Ok td →
  signerInfoAt msg = Ok si →
  SignerInfo_Sequence si = SignerData_Sequence sd →
  parseSignMode (SignerInfo_ModeInfo si) = Ok signMode →
  MsgAuthenticate_Tx msg = Some tx →
  (length (Tx_Signatures tx) ≤ N.to_nat (MsgAuthenticate_SignerIndex msg))%nat →
  Authenticate a ctx msg st =
    (Panic (IndexOutOfRange (MsgAuthenticate_SignerIndex msg)
              (length (Tx_Signatures tx))), consumed st).
Proof.
  intros Hpriv Hsd Htd Hsi Hseq Hmode Htx Hlen.
  rewrite (Authenticate_assembled _ _ _ _ _ _ _ Hpriv Hsd). f_equal.
  unfold afterSignerData, mbind, outcome_bind.
  rewrite Htd, Hsi, Hseq, N.eqb_refl, Hmode; simpl.
  unfold signatureAt, index, mbind, outcome_bind. rewrite Htx; simpl.
  by rewrite (lookup_ge_None_2 _ _ Hlen).
Qed.

(** X7.  In a call from the accounts module for which the signer data is
    assembled, a request without raw transaction, and a request whose raw
    transaction decodes but which has no transaction or no auth-info in it,
    raise the nil-pointer panic, the sequence number being consumed. *)
Theorem Authenticate_nil_pointer a ctx msg st pk sd st1 :
  SenderIsAccountsModule ctx = true →
  computeSignerData a ctx st = (Ok (pk, sd), st1) →
  MsgAuthenticate_RawTx msg = None
  ∨ ((∃ td, getTxData a msg = Ok td)
     ∧ MsgAuthenticate_Tx msg ≫= Tx_AuthInfo = None) →
  Authenticate a ctx msg st = (Panic NilPointerDereference, consumed st).
Proof.
  intros Hpriv Hsd Hnil.
  rewrite (Authenticate_assembled _ _ _ _ _ _ _ Hpriv Hsd). f_equal.
  unfold afterSignerData, mbind, outcome_bind.
  destruct Hnil as [Hraw|([td Htd] & Htx)].
  - unfold getTxData. by rewrite Hraw.
  - rewrite Htd. unfold signerInfoAt, mbind, outcome_bind.
    destruct (MsgAuthenticate_Tx msg) as [tx|]; simpl in *; [|done].
    by rewrite Htx.
Qed.
End authentication.

(** ** The further properties at work on the concrete runtime *)

Lemma Authenticate_sound_witness :
  Authenticate (RT := ex_runtime) ex_account (ex_ctx true) (ex_request 5)
    (ex_store 5)
  = (Ok Build_MsgAuthenticateResponse, ex_store 6)
  ∧ @SenderIsAccountsModule ex_runtime (ex_ctx true) = true
  ∧ ex_store 6 = consumed (ex_store 5).
Proof.
  split; [vm_compute; reflexivity|].
  destruct (Authenticate_sound (RT := ex_runtime) ex_account (ex_ctx true)
              (ex_request 5) (ex_store 5) Build_MsgAuthenticateResponse
              (ex_store 6)) as (Hpriv & Hst & _);
    [vm_compute; reflexivity|].
  split; [exact Hpriv|exact Hst].
Defined.

Lemma Authenticate_no_replay_witness :
  Authenticate (RT := ex_runtime) ex_account (ex_ctx true) (ex_request 5)
    (ex_store 5)
  = (Ok Build_MsgAuthenticateResponse, ex_store 6)
  ∧ is_rejected
      (Authenticate (RT := ex_runtime) ex_account (ex_ctx true) (ex_request 5)
         (ex_store 6)).1.
Proof.
  split; [vm_compute; reflexivity|].
  destruct (Authenticate_no_replay (RT := ex_runtime) ex_account (ex_ctx true)
              (ex_request 5) (ex_store 5) Build_MsgAuthenticateResponse
              (ex_store 6)) as (_ & Hreplay);
    [vm_compute; reflexivity|].
  apply (Hreplay ex_account (ex_ctx true) (ex_store 6)). simpl. lia.
Defined.

Lemma Authenticate_reads_witness :
  let msg' := {|
    MsgAuthenticate_Bundler := "bundler";
    MsgAuthenticate_RawTx :=
      Some {| TxRaw_BodyBytes := ex_body;
              TxRaw_AuthInfoBytes := ex_auth;
              TxRaw_Signatures := [] |};
    MsgAuthenticate_Tx :=
      Some {| Tx_AuthInfo :=
                Some {| AuthInfo_SignerInfos :=
                          [{| SignerInfo_PublicKey :=
                                Some {| Any_TypeUrl := "other";
                                        Any_Value := [x01] |};
                              SignerInfo_ModeInfo :=
                                Some (single SIGN_MODE_DIRECT);
                              SignerInfo_Sequence := 5 |};
                           ex_signerInfo ex_multi 9] |};
              Tx_Signatures := [ex_signature; []] |};
    MsgAuthenticate_SignerIndex := 0 |} in
  signerInfoAt (ex_request 5) = Ok (ex_signerInfo (single SIGN_MODE_DIRECT) 5)
  ∧ signatureAt (ex_request 5) = signatureAt msg'
  ∧ Authenticate (RT := ex_runtime) ex_account (ex_ctx true) (ex_request 5)
      (ex_store 5)
    = Authenticate (RT := ex_runtime) ex_account (ex_ctx true) msg'
        (ex_store 5).
Proof.
  intros msg'. do 2 (split; [reflexivity|]).
  apply (Authenticate_reads (RT := ex_runtime) ex_account (ex_ctx true)
           (ex_request 5) msg' (ex_store 5)
           (ex_signerInfo (single SIGN_MODE_DIRECT) 5)
           {| SignerInfo_PublicKey :=
                Some {| Any_TypeUrl := "other"; Any_Value := [x01] |};
              SignerInfo_ModeInfo := Some (single SIGN_MODE_DIRECT);
              SignerInfo_Sequence := 5 |});
    reflexivity.
Defined.

Lemma Authenticate_address_failure_witness :
  let a := {|
    addrCodec := {| BytesToString := λ bs, Failure "invalid address" |};
    hs := hs ex_account;
    signingHandlers := signingHandlers ex_account |} in
  @SenderIsAccountsModule ex_runtime (ex_ctx true) = true
  ∧ BytesToString (addrCodec a) (@Whoami ex_runtime (ex_ctx true))
    = Failure "invalid address"
  ∧ Authenticate (RT := ex_runtime) a (ex_ctx true) (ex_request 5) (ex_store 5)
    = (Err (ErrCollaborator "invalid address"), ex_store 5).
Proof.
  intros a. do 2 (split; [reflexivity|]).
  apply (Authenticate_address_failure (RT := ex_runtime) a (ex_ctx true)
           (ex_request 5) (ex_store 5) "invalid address");
    reflexivity.
Defined.

Lemma Authenticate_no_public_key_witness :
  @SenderIsAccountsModule ex_runtime (ex_ctx true) = true
  ∧ BytesToString (addrCodec ex_account) (@Whoami ex_runtime (ex_ctx true))
    = Success "cosmos1account"
  ∧ Authenticate (RT := ex_runtime) ex_account (ex_ctx true) (ex_request 5)
      {| Store_PubKey := None; Store_Sequence := 5 |}
    = (Err ErrNotFound,
       consumed {| Store_PubKey := None; Store_Sequence := 5 |}).
Proof.
  do 2 (split; [reflexivity|]).
  apply (Authenticate_no_public_key (RT := ex_runtime) ex_account (ex_ctx true)
           (ex_request 5) {| Store_PubKey := None; Store_Sequence := 5 |}
           "cosmos1account");
    reflexivity.
Defined.

Lemma Authenticate_signature_missing_witness :
  let tx := {|
    Tx_AuthInfo :=
      Some {| AuthInfo_SignerInfos :=
                [ex_signerInfo (single SIGN_MODE_DIRECT) 5] |};
    Tx_Signatures := [] |} in
  let msg := {|
    MsgAuthenticate_Bundler := "";
    MsgAuthenticate_RawTx :=
      Some {| TxRaw_BodyBytes := ex_body;
              TxRaw_AuthInfoBytes := ex_auth;
              TxRaw_Signatures := [ex_signature] |};
    MsgAuthenticate_Tx := Some tx;
    MsgAuthenticate_SignerIndex := 0 |} in
  @SenderIsAccountsModule ex_runtime (ex_ctx true) = true
  ∧ computeSignerData (RT := ex_runtime) ex_account (ex_ctx true) (ex_store 5)
    = (Ok (ex_pk, ex_signerData 5), ex_store 6)
  ∧ getTxData (RT := ex_runtime) ex_account msg = Ok ex_txData
  ∧ signerInfoAt msg = Ok (ex_signerInfo (single SIGN_MODE_DIRECT) 5)
  ∧ (length (Tx_Signatures tx) ≤ N.to_nat (MsgAuthenticate_SignerIndex msg))%nat
  ∧ Authenticate (RT := ex_runtime) ex_account (ex_ctx true) msg (ex_store 5)
    = (Panic (IndexOutOfRange 0 0), consumed (ex_store 5)).
Proof.
  intros tx msg. do 4 (split; [vm_compute; reflexivity|]).
  split; [vm_compute; lia|].
  apply (Authenticate_signature_missing (RT := ex_runtime) ex_account
           (ex_ctx true) msg (ex_store 5) ex_pk (ex_signerData 5) (ex_store 6)
           ex_txData (ex_signerInfo (single SIGN_MODE_DIRECT) 5)
           SIGN_MODE_DIRECT tx);
    vm_compute; reflexivity.
Defined.

Lemma Authenticate_nil_pointer_witness :
  let msg := {|
    MsgAuthenticate_Bundler := "";
    MsgAuthenticate_RawTx := None;
    MsgAuthenticate_Tx := None;
    MsgAuthenticate_SignerIndex := 0 |} in
  @SenderIsAccountsModule ex_runtime (ex_ctx true) = true
  ∧ computeSignerData (RT := ex_runtime) ex_account (ex_ctx true) (ex_store 5)
    = (Ok (ex_pk, ex_signerData 5), ex_store 6)
  ∧ MsgAuthenticate_RawTx msg = None
  ∧ Authenticate (RT := ex_runtime) ex_account (ex_ctx true) msg (ex_store 5)
    = (Panic NilPointerDereference, consumed (ex_store 5)).
Proof.
  intros msg. split; [reflexivity|]. split; [vm_compute; reflexivity|].
  split; [reflexivity|].
  apply (Authenticate_nil_pointer (RT := ex_runtime) ex_account (ex_ctx true)
           msg (ex_store 5) ex_pk (ex_signerData 5) (ex_store 6));
    [reflexivity|vm_compute; reflexivity|by left].
Defined.

(** * Properties of the wire format of the counter query *)

#[local] Open Scope Z_scope.

#[local] Arguments to_uint64 : simpl never.
#[local] Arguments to_int64 : simpl never.
#[local] Arguments to_int32 : simpl never.
#[local] Arguments to_int : simpl never.
#[local] Arguments to_uint8 : simpl never.
#[local] Arguments byte_val : simpl never.
#[local] Arguments len : simpl never.
#[local] Arguments sovQuery : simpl never.
#[local] Arguments varint_bytes : simpl never.
#[local] Arguments varint_loop : simpl never.
#[local] Arguments encodeVarintQuery_loop : simpl never.
#[local] Arguments store : simpl never.
#[local] Arguments load : simpl never.
#[local] Arguments Z.pow : simpl never.
#[local] Arguments Z.mul : simpl never.

(** ** Fixed-width integers *)

Lemma to_uint64_range z : 0 ≤ to_uint64 z < 2 ^ 64.
Proof. unfold to_uint64. apply Z.mod_pos_bound. lia. Qed.

Lemma to_uint64_id z : 0 ≤ z < 2 ^ 64 → to_uint64 z = z.
Proof. intros. unfold to_uint64. by apply Z.mod_small. Qed.

Lemma to_int64_id z : - 2 ^ 63 ≤ z < 2 ^ 63 → to_int64 z = z.
Proof. intros. unfold to_int64. rewrite Z.mod_small; lia. Qed.

Lemma to_int64_to_uint64 z : to_int64 (to_uint64 z) = to_int64 z.
Proof.
  unfold to_int64, to_uint64.
  rewrite Zplus_mod_idemp_l. reflexivity.
Qed.

Lemma to_uint64_testbit z i :
  Z.testbit (to_uint64 z) i = (i <? 64) && Z.testbit z i.
Proof. unfold to_uint64. by rewrite Z.testbit_mod_pow2 by lia. Qed.

Lemma to_int64_cases z :
  (to_uint64 z < 2 ^ 63 ∧ to_int64 z = to_uint64 z)
  ∨ (2 ^ 63 ≤ to_uint64 z ∧ to_int64 z = to_uint64 z - 2 ^ 64).
Proof.
  pose proof (to_uint64_range z) as Hr.
  rewrite <- (to_int64_to_uint64 z). unfold to_int64.
  destruct (Z.lt_ge_cases (to_uint64 z) (2 ^ 63)).
  - left. split; [done|]. rewrite Z.mod_small; lia.
  - right. split; [done|].
    replace (to_uint64 z + 2 ^ 63) with ((to_uint64 z - 2 ^ 63) + 1 * 2 ^ 64)
      by lia.
    rewrite Z.mod_add by lia. rewrite Z.mod_small; lia.
Qed.

Lemma to_int64_testbit z i :
  0 ≤ i → Z.testbit (to_int64 z) i = Z.testbit z (Z.min i 63).
Proof.
  intros Hi. pose proof (to_uint64_range z) as Hr.
  assert (Z.testbit z 63 = Z.testbit (to_uint64 z) 63) as H63
    by (rewrite to_uint64_testbit; done).
  destruct (to_int64_cases z) as [[Hlt ->]|[Hge ->]].
  - destruct (Z.lt_ge_cases i 63).
    + rewrite Z.min_l by lia. rewrite to_uint64_testbit.
      by replace (i <? 64) with true by lia.
    + rewrite Z.min_r by lia. rewrite H63.
      destruct (Z.eq_dec (to_uint64 z) 0) as [->|].
      { by rewrite !Z.testbit_0_l. }
      assert (Z.log2 (to_uint64 z) < 63) by (apply Z.log2_lt_pow2; lia).
      by rewrite !Z.bits_above_log2 by lia.
  - assert (Z.testbit (to_uint64 z) 63 = true) as Htop.
    { apply Z.testbit_true; [lia|].
      replace (to_uint64 z / 2 ^ 63) with 1; [done|].
      apply Z.div_unique with (to_uint64 z - 2 ^ 63); lia. }
    destruct (Z.lt_ge_cases i 63).
    + rewrite Z.min_l by lia.
      rewrite <- (Z.mod_pow2_bits_low (to_uint64 z - 2 ^ 64) 64 i) by lia.
      replace (to_uint64 z - 2 ^ 64) with (to_uint64 z + (-1) * 2 ^ 64) by lia.
      rewrite Z.mod_add by lia. rewrite Z.mod_pow2_bits_low by lia.
      rewrite to_uint64_testbit. by replace (i <? 64) with true by lia.
    + rewrite Z.min_r by lia. rewrite H63, Htop.
      apply Z.bits_above_log2_neg; [lia|].
      destruct (Z.eq_dec (Z.pred (- (to_uint64 z - 2 ^ 64))) 0) as [->|].
      { simpl. lia. }
      assert (Z.log2 (Z.pred (- (to_uint64 z - 2 ^ 64))) < 63)
        by (apply Z.log2_lt_pow2; lia).
      lia.
Qed.

Lemma to_int64_lor x y : Z.lor (to_int64 x) (to_int64 y) = to_int64 (Z.lor x y).
Proof.
  apply Z.bits_inj'. intros i Hi.
  by rewrite Z.lor_spec, !to_int64_testbit, Z.lor_spec.
Qed.

Lemma to_uint64_lor x y :
  Z.lor (to_uint64 x) (to_uint64 y) = to_uint64 (Z.lor x y).
Proof.
  apply Z.bits_inj'. intros i Hi.
  rewrite Z.lor_spec, !to_uint64_testbit, Z.lor_spec.
  by destruct (i <? 64).
Qed.

Lemma to_uint64_idemp z : to_uint64 (to_uint64 z) = to_uint64 z.
Proof. apply to_uint64_id, to_uint64_range. Qed.

Lemma to_int64_idemp z : to_int64 (to_int64 z) = to_int64 z.
Proof.
  apply Z.bits_inj'. intros i Hi.
  rewrite !to_int64_testbit by lia. f_equal. lia.
Qed.

Lemma to_int64_shiftl_inner x s :
  0 ≤ s → to_int64 (Z.shiftl (to_int64 x) s) = to_int64 (Z.shiftl x s).
Proof.
  intros Hs. apply Z.bits_inj'. intros i Hi.
  rewrite !to_int64_testbit by lia.
  destruct (Z.lt_ge_cases (Z.min i 63) s).
  - by rewrite !Z.shiftl_spec_low.
  - rewrite !Z.shiftl_spec by lia. rewrite to_int64_testbit by lia.
    f_equal. lia.
Qed.

Lemma to_uint64_shiftl_inner x s :
  0 ≤ s → to_uint64 (Z.shiftl (to_uint64 x) s) = to_uint64 (Z.shiftl x s).
Proof.
  intros Hs. apply Z.bits_inj'. intros i Hi.
  rewrite !to_uint64_testbit.
  destruct (Z.ltb_spec i 64); [|done]. simpl.
  destruct (Z.lt_ge_cases i s).
  - by rewrite !Z.shiftl_spec_low.
  - rewrite !Z.shiftl_spec by lia. rewrite to_uint64_testbit.
    by replace (i - s <? 64) with true by lia.
Qed.

Lemma byte_val_range b : 0 ≤ byte_val b < 256.
Proof. unfold byte_val. pose proof (Byte.to_N_bounded b). lia. Qed.

Lemma byte_val_to_uint8 z : byte_val (to_uint8 z) = z mod 256.
Proof.
  unfold to_uint8, byte_val.
  pose proof (Z.mod_pos_bound z 256 eq_refl) as Hr.
  destruct (Byte.of_N (Z.to_N (z mod 256))) as [b|] eqn:Hb; simpl.
  - apply Byte.to_of_N in Hb. lia.
  - apply Byte.of_N_None_iff in Hb. lia.
Qed.

Lemma to_uint8_byte_val b : to_uint8 (byte_val b) = b.
Proof.
  unfold to_uint8, byte_val. pose proof (Byte.to_N_bounded b).
  rewrite Z.mod_small by lia. by rewrite N2Z.id, Byte.of_to_N.
Qed.

(** ** The size of a varint *)

Lemma sovQuery_log2 x : 0 < x → sovQuery x = (Z.log2 x + 7) / 7.
Proof.
  intros Hx. unfold sovQuery, Len64.
  assert (0 < Z.lor x 1).
  { apply Z.le_neq. split; [apply Z.lor_nonneg; lia|].
    intros Heq. symmetry in Heq. apply Z.lor_eq_0_iff in Heq. lia. }
  replace (Z.lor x 1 =? 0) with false by lia.
  rewrite Z.log2_lor by lia. change (Z.log2 1) with 0.
  pose proof (Z.log2_nonneg x). rewrite Z.max_l by lia. f_equal. lia.
Qed.

Lemma sovQuery_small x : 0 ≤ x < 128 → sovQuery x = 1.
Proof.
  intros Hx. destruct (Z.eq_dec x 0) as [->|]; [done|].
  rewrite sovQuery_log2 by lia.
  assert (Z.log2 x < 7) by (apply Z.log2_lt_pow2; lia).
  pose proof (Z.log2_nonneg x).
  symmetry. apply Z.div_unique with (Z.log2 x); lia.
Qed.

Lemma sovQuery_shiftr x : 128 ≤ x → sovQuery x = 1 + sovQuery (Z.shiftr x 7).
Proof.
  intros Hx.
  assert (7 ≤ Z.log2 x) by (apply Z.log2_le_pow2; lia).
  assert (0 < Z.shiftr x 7).
  { rewrite Z.shiftr_div_pow2 by lia.
    apply Z.div_str_pos. lia. }
  rewrite !sovQuery_log2 by lia. rewrite Z.log2_shiftr by lia.
  rewrite Z.max_r by lia.
  replace (Z.log2 x + 7) with ((Z.log2 x - 7 + 7) + 1 * 7) by lia.
  rewrite Z.div_add by lia. lia.
Qed.

Lemma shiftr_7_bound x k : 0 ≤ k → 0 ≤ x < 2 ^ (7 * (k + 1)) →
  0 ≤ Z.shiftr x 7 < 2 ^ (7 * k).
Proof.
  intros Hk Hx. rewrite Z.shiftr_div_pow2 by lia. split.
  - apply Z.div_pos; lia.
  - apply Z.div_lt_upper_bound; [lia|].
    rewrite <- Z.pow_add_r by lia.
    replace (7 + 7 * k) with (7 * (k + 1)) by lia. lia.
Qed.

Lemma varint_bytes_small bound v :
  v < 128 → varint_bytes bound v = [to_uint8 v].
Proof.
  intros Hv. destruct bound; unfold varint_bytes;
    by assert ((128 <=? v) = false) as -> by lia.
Qed.

Lemma varint_bytes_large bound v :
  128 ≤ v →
  varint_bytes (S bound) v
  = to_uint8 (Z.lor (Z.land v 127) 128) :: varint_bytes bound (Z.shiftr v 7).
Proof.
  intros Hv. unfold varint_bytes at 1. fold varint_bytes.
  by assert ((128 <=? v) = true) as -> by lia.
Qed.

Lemma len_cons {A} (x : A) (l : list A) : len (x :: l) = 1 + len l.
Proof. unfold len. simpl length. lia. Qed.

Lemma varint_bytes_length bound v :
  0 ≤ v < 2 ^ (7 * (Z.of_nat bound + 1)) →
  len (varint_bytes bound v) = sovQuery v.
Proof.
  revert v. induction bound as [|bound IH]; intros v Hv.
  - change (7 * (Z.of_nat 0 + 1)) with 7 in Hv.
    by rewrite varint_bytes_small, sovQuery_small by lia.
  - destruct (Z.leb_spec 128 v).
    + rewrite varint_bytes_large, sovQuery_shiftr, len_cons by done.
      rewrite IH; [done|]. apply shiftr_7_bound; lia.
    + by rewrite varint_bytes_small, sovQuery_small by lia.
Qed.

Lemma sovQuery_bounds x : 0 ≤ x < 2 ^ 64 → 1 ≤ sovQuery x ≤ 10.
Proof.
  intros Hx. destruct (Z.eq_dec x 0) as [->|]; [done|].
  rewrite sovQuery_log2 by lia.
  assert (Z.log2 x < 64) by (apply Z.log2_lt_pow2; lia).
  pose proof (Z.log2_nonneg x).
  split.
  - apply Z.div_le_lower_bound; lia.
  - apply Z.div_le_upper_bound; lia.
Qed.

(** ** Reading and writing the buffer *)

Lemma len_app {A} (l k : list A) : len (l ++ k) = len l + len k.
Proof. unfold len. rewrite length_app. lia. Qed.

Lemma len_nonneg {A} (l : list A) : 0 ≤ len l.
Proof. unfold len. lia. Qed.

Lemma store_app pre x post b :
  store (pre ++ x :: post) (len pre) b = Done (pre ++ b :: post).
Proof.
  unfold store. pose proof (len_nonneg pre).
  assert ((len pre <? 0) = false) as -> by (apply Z.ltb_ge; lia).
  assert ((len (pre ++ x :: post) <=? len pre) = false) as ->.
  { apply Z.leb_gt. rewrite len_app. unfold len. simpl length. lia. }
  simpl. unfold len. rewrite Nat2Z.id.
  replace (length pre) with (length pre + 0)%nat at 1 by lia.
  by rewrite insert_app_r.
Qed.

Lemma load_app pre x post : load (pre ++ x :: post) (len pre) = Done x.
Proof.
  unfold load. pose proof (len_nonneg pre).
  assert ((len pre <? 0) = false) as -> by (apply Z.ltb_ge; lia).
  unfold len. rewrite Nat2Z.id. by rewrite list_lookup_middle.
Qed.

Lemma encodeVarintQuery_loop_small bound dAtA offset v :
  v < 128 →
  encodeVarintQuery_loop bound dAtA offset v = store dAtA offset (to_uint8 v).
Proof.
  intros Hv. destruct bound; unfold encodeVarintQuery_loop;
    by assert ((128 <=? v) = false) as -> by lia.
Qed.

Lemma encodeVarintQuery_loop_large bound dAtA offset v :
  128 ≤ v →
  encodeVarintQuery_loop (S bound) dAtA offset v
  = (dAtA ← store dAtA offset (to_uint8 (Z.lor (Z.land v 127) 128));
     encodeVarintQuery_loop bound dAtA (offset + 1) (Z.shiftr v 7)).
Proof.
  intros Hv. unfold encodeVarintQuery_loop at 1. fold encodeVarintQuery_loop.
  by assert ((128 <=? v) = true) as -> by lia.
Qed.

Lemma encodeVarintQuery_loop_app bound v pre mid post :
  0 ≤ v < 2 ^ (7 * (Z.of_nat bound + 1)) →
  length mid = length (varint_bytes bound v) →
  encodeVarintQuery_loop bound (pre ++ mid ++ post) (len pre) v
  = Done (pre ++ varint_bytes bound v ++ post).
Proof.
  revert v pre mid.
  induction bound as [|bound IH]; intros v pre mid Hv Hlen.
  - change (7 * (Z.of_nat 0 + 1)) with 7 in Hv.
    rewrite varint_bytes_small in * by lia.
    rewrite encodeVarintQuery_loop_small by lia.
    destruct mid as [|x [|??]]; try done. apply store_app.
  - destruct (Z.leb_spec 128 v).
    + rewrite varint_bytes_large in * by done.
      rewrite encodeVarintQuery_loop_large by done.
      destruct mid as [|x mid]; [done|]. simpl app.
      rewrite store_app. simpl.
      replace (len pre + 1)
        with (len (pre ++ [to_uint8 (Z.lor (Z.land v 127) 128)]))
        by (rewrite len_app; done).
      rewrite (cons_middle _ pre), (assoc (++) pre).
      rewrite (IH _ _ mid); [by rewrite <- (assoc (++) pre)| |by simplify_eq/=].
      apply shiftr_7_bound; lia.
    + rewrite varint_bytes_small in * by lia.
      rewrite encodeVarintQuery_loop_small by lia.
      destruct mid as [|x [|??]]; try done. apply store_app.
Qed.

(** ** One varint, written and read back *)

Lemma varint_loop_unfold step bound dAtA iNdEx shift acc :
  varint_loop step bound dAtA iNdEx shift acc =
    if 64 <=? shift then (acc, iNdEx, Failed ErrIntOverflowQuery) else
    if len dAtA <=? iNdEx then (acc, iNdEx, Failed io_ErrUnexpectedEOF) else
    match load dAtA iNdEx with
    | Done b =>
        if byte_val b <? 128 then
          (step acc b shift, to_int (iNdEx + 1), Done ())
        else
          match bound with
          | O => (step acc b shift, to_int (iNdEx + 1), Unfinished)
          | S bound =>
              varint_loop step bound dAtA (to_int (iNdEx + 1)) (shift + 7)
                (step acc b shift)
          end
    | Failed e => (acc, iNdEx, Failed e)
    | Crash p => (acc, iNdEx, Crash p)
    | Unfinished => (acc, iNdEx, Unfinished)
    end.
Proof. by destruct bound. Qed.

Lemma log2_lt_7 x : 0 ≤ x < 128 → Z.log2 x < 7.
Proof.
  intros Hx. destruct (Z.eq_dec x 0) as [->|]; [done|].
  apply Z.log2_lt_pow2; lia.
Qed.

Lemma land_127_range v : 0 ≤ Z.land v 127 < 128.
Proof.
  change 127 with (Z.ones 7). rewrite Z.land_ones by lia.
  apply Z.mod_pos_bound. lia.
Qed.

Lemma lor_128 x : 0 ≤ x < 128 → Z.lor x 128 = x + 128.
Proof.
  intros Hx.
  assert (Z.land x 128 = 0) as Hland.
  { apply Z.bits_inj'. intros i Hi. rewrite Z.land_spec, Z.bits_0.
    change 128 with (2 ^ 7). rewrite Z.pow2_bits_eqb by lia.
    destruct (Z.eqb_spec 7 i) as [<-|]; [|by rewrite andb_false_r].
    rewrite Z.bits_above_log2; [done|lia|by apply log2_lt_7]. }
  by rewrite <- Z.lxor_lor, <- Z.add_nocarry_lxor.
Qed.

Lemma continuation_byte v :
  128 ≤ Z.lor (Z.land v 127) 128 < 256
  ∧ Z.land (Z.lor (Z.land v 127) 128) 127 = Z.land v 127.
Proof.
  pose proof (land_127_range v) as Hx.
  rewrite lor_128 by done. split; [lia|].
  change 127 with (Z.ones 7) at 2. rewrite Z.land_ones by lia.
  replace (Z.land v 127 + 128) with (Z.land v 127 + 1 * 2 ^ 7) by lia.
  rewrite Z.mod_add by lia. apply Z.mod_small. lia.
Qed.

Lemma land_127_small v : 0 ≤ v < 128 → Z.land v 127 = v.
Proof.
  intros Hv. change 127 with (Z.ones 7). rewrite Z.land_ones by lia.
  apply Z.mod_small. lia.
Qed.

Lemma split_groups v s :
  0 ≤ s →
  Z.lor (Z.shiftl (Z.land v 127) s) (Z.shiftl (Z.shiftr v 7) (s + 7))
  = Z.shiftl v s.
Proof.
  intros Hs. rewrite (Z.add_comm s 7), <- Z.shiftl_shiftl by lia.
  rewrite <- Z.shiftl_lor. f_equal.
  rewrite <- Z.ldiff_ones_r by lia. change (Z.ones 7) with 127.
  rewrite Z.lor_comm. apply Z.lor_ldiff_and.
Qed.

Lemma len_middle {A} (pre : list A) x post :
  len (pre ++ x :: post) = len pre + 1 + len post.
Proof. rewrite len_app, len_cons. lia. Qed.

Section reading.
Variables (g : Z → Z) (step : Z → byte → Z → Z).
Hypothesis g_lor : ∀ x y, Z.lor (g x) (g y) = g (Z.lor x y).
Hypothesis step_spec : ∀ a b s,
  0 ≤ s → step a b s = Z.lor a (g (Z.shiftl (Z.land (byte_val b) 127) s)).

Lemma varint_loop_last b2 v pre post s a :
  0 ≤ v < 128 → 0 ≤ s < 64 →
  len (pre ++ to_uint8 v :: post) < 2 ^ 63 →
  varint_loop step b2 (pre ++ to_uint8 v :: post) (len pre) s a
  = (Z.lor a (g (Z.shiftl v s)), len pre + 1, Done ()).
Proof.
  intros Hv Hs Hlen. rewrite len_middle in Hlen.
  pose proof (len_nonneg pre). pose proof (len_nonneg post).
  rewrite varint_loop_unfold.
  assert ((64 <=? s) = false) as -> by lia.
  assert ((len (pre ++ to_uint8 v :: post) <=? len pre) = false) as ->
    by (rewrite len_middle; lia).
  rewrite load_app, byte_val_to_uint8, Z.mod_small by lia.
  assert ((v <? 128) = true) as -> by lia.
  rewrite step_spec, byte_val_to_uint8, Z.mod_small, land_127_small by lia.
  unfold to_int. by rewrite to_int64_id by lia.
Qed.

Lemma varint_loop_bytes bound : ∀ v b2 pre post s a,
  0 ≤ v < 2 ^ (7 * (Z.of_nat bound + 1)) →
  0 ≤ s → s + 7 * Z.of_nat bound < 64 →
  (bound ≤ b2)%nat →
  len (pre ++ varint_bytes bound v ++ post) < 2 ^ 63 →
  varint_loop step b2 (pre ++ varint_bytes bound v ++ post) (len pre) s a
  = (Z.lor a (g (Z.shiftl v s)), len pre + len (varint_bytes bound v), Done ()).
Proof.
  induction bound as [|bound IH]; intros v b2 pre post s a Hv Hs Hs' Hb Hlen.
  - change (7 * (Z.of_nat 0 + 1)) with 7 in Hv.
    rewrite varint_bytes_small in * by lia. simpl app in *.
    rewrite varint_loop_last by (done || lia). by rewrite len_cons.
  - destruct (Z.leb_spec 128 v) as [Hge|Hlt].
    + rewrite varint_bytes_large in * by done.
      destruct (continuation_byte v) as [Hw Hw'].
      simpl app in *. rewrite len_middle in Hlen.
      pose proof (len_nonneg pre).
      pose proof (len_nonneg (varint_bytes bound (Z.shiftr v 7) ++ post)).
      rewrite varint_loop_unfold.
      assert ((64 <=? s) = false) as -> by lia.
      assert ((len (pre ++ to_uint8 (Z.lor (Z.land v 127) 128)
                 :: varint_bytes bound (Z.shiftr v 7) ++ post) <=? len pre)
              = false) as -> by (rewrite len_middle; lia).
      rewrite load_app, byte_val_to_uint8, Z.mod_small by lia.
      assert ((Z.lor (Z.land v 127) 128 <? 128) = false) as -> by lia.
      destruct b2 as [|b2]; [lia|].
      rewrite step_spec, byte_val_to_uint8, Z.mod_small, Hw' by lia.
      unfold to_int. rewrite to_int64_id by lia.
      replace (len pre + 1)
        with (len (pre ++ [to_uint8 (Z.lor (Z.land v 127) 128)]))
        by (rewrite len_app; done).
      rewrite (cons_middle _ pre), (assoc (++) pre).
      rewrite IH; try lia.
      * rewrite <- Z.lor_assoc, g_lor, split_groups by lia.
        do 2 f_equal. rewrite len_app, !len_cons. change (len []) with 0.
        lia.
      * apply shiftr_7_bound; lia.
      * rewrite <- (assoc (++) pre). simpl app.
        rewrite len_middle. lia.
    + rewrite varint_bytes_small in * by lia. simpl app in *.
      rewrite varint_loop_last by (done || lia). by rewrite len_cons.
Qed.
End reading.

Lemma wire_step_spec a b s :
  0 ≤ s →
  wire_step a b s = Z.lor a (to_uint64 (Z.shiftl (Z.land (byte_val b) 127) s)).
Proof. intros. unfold wire_step. by rewrite to_uint64_shiftl_inner. Qed.

Lemma count_step_spec a b s :
  0 ≤ s →
  count_step a b s = Z.lor a (to_int64 (Z.shiftl (Z.land (byte_val b) 127) s)).
Proof. intros. unfold count_step. by rewrite to_int64_shiftl_inner. Qed.

Lemma length_step_spec a b s :
  0 ≤ s →
  length_step a b s = Z.lor a (to_int64 (Z.shiftl (Z.land (byte_val b) 127) s)).
Proof.
  intros. unfold length_step, to_int. pose proof (byte_val_range b).
  by rewrite (to_int64_id (byte_val b)) by lia.
Qed.

(** ** Marshalling a response *)

Lemma varint_bytes_uint64_length v :
  0 ≤ v < 2 ^ 64 → len (varint_bytes 9 v) = sovQuery v.
Proof.
  intros Hv. apply varint_bytes_length.
  change (7 * (Z.of_nat 9 + 1)) with 70. lia.
Qed.

Lemma QueryGetCountResponse_bytes_len m :
  len (QueryGetCountResponse_bytes m) = QueryGetCountResponse_Size (Some m).
Proof.
  unfold QueryGetCountResponse_bytes, QueryGetCountResponse_Size.
  destruct (Z.eqb_spec (TotalCount m) 0); cbn [negb]; [done|].
  rewrite len_cons, varint_bytes_uint64_length by apply to_uint64_range.
  lia.
Qed.

Lemma encodeVarintQuery_app v pre mid post :
  0 ≤ v < 2 ^ 64 →
  len mid = sovQuery v →
  encodeVarintQuery (pre ++ mid ++ post) (len pre + len mid) v
  = Done (pre ++ varint_bytes 9 v ++ post, len pre).
Proof.
  intros Hv Hmid. unfold encodeVarintQuery.
  replace (len pre + len mid - sovQuery v) with (len pre) by lia.
  rewrite encodeVarintQuery_loop_app; [done| |].
  - change (7 * (Z.of_nat 9 + 1)) with 70. lia.
  - pose proof (varint_bytes_uint64_length v Hv) as Hl. unfold len in *. lia.
Qed.

Lemma MarshalToSizedBuffer_app m pre mid :
  len mid = QueryGetCountResponse_Size (Some m) →
  QueryGetCountResponse_MarshalToSizedBuffer (Some m) (pre ++ mid)
  = Done (pre ++ QueryGetCountResponse_bytes m, len mid).
Proof.
  unfold QueryGetCountResponse_MarshalToSizedBuffer,
    QueryGetCountResponse_bytes, QueryGetCountResponse_Size.
  destruct (Z.eqb_spec (TotalCount m) 0) as [Hz|Hnz]; cbn [negb]; intros Hmid.
  - destruct mid; [|rewrite len_cons in Hmid; pose proof (len_nonneg mid); lia].
    rewrite app_nil_r. do 2 f_equal. lia.
  - pose proof (to_uint64_range (TotalCount m)) as Hr.
    pose proof (sovQuery_bounds _ Hr).
    destruct mid as [|x mid]; [change (len []) with 0 in Hmid; lia|].
    rewrite len_cons in Hmid.
    rewrite (cons_middle x pre), (assoc (++) pre).
    replace (len ((pre ++ [x]) ++ mid)) with (len (pre ++ [x]) + len mid)
      by (symmetry; apply len_app).
    rewrite <- (app_nil_r mid) at 1.
    rewrite encodeVarintQuery_app by lia.
    cbn [mbind pb_result_bind].
    rewrite app_nil_r, <- (assoc (++) pre). simpl app.
    rewrite len_app, len_cons. change (len []) with 0.
    replace (len pre + (1 + 0) - 1) with (len pre) by lia.
    rewrite store_app. cbn [mbind pb_result_bind]. do 2 f_equal.
    rewrite len_middle, len_cons,
      varint_bytes_uint64_length by done. lia.
Qed.

Lemma slice_to_all {A} (s : list A) : slice_to s (len s) = Done s.
Proof.
  unfold slice_to. pose proof (len_nonneg s).
  assert ((len s <? 0) = false) as -> by lia.
  assert ((len s <? len s) = false) as -> by lia.
  cbn [orb]. unfold len. by rewrite Nat2Z.id, firstn_all.
Qed.

Lemma QueryGetCountResponse_Size_nonneg m :
  0 ≤ QueryGetCountResponse_Size m.
Proof.
  destruct m as [m|]; [|done]. rewrite <- QueryGetCountResponse_bytes_len.
  apply len_nonneg.
Qed.

Lemma QueryGetCountResponse_Marshal_bytes m :
  QueryGetCountResponse_Marshal (Some m)
  = Done (QueryGetCountResponse_bytes m).
Proof.
  unfold QueryGetCountResponse_Marshal, make.
  pose proof (QueryGetCountResponse_Size_nonneg (Some m)) as Hs.
  assert ((QueryGetCountResponse_Size (Some m) <? 0) = false) as -> by lia.
  cbn [mbind pb_result_bind].
  set (buf := replicate (Z.to_nat (QueryGetCountResponse_Size (Some m))) x00).
  assert (len buf = QueryGetCountResponse_Size (Some m)) as Hbuf.
  { unfold len, buf. rewrite length_replicate. lia. }
  rewrite <- Hbuf at 1. rewrite slice_to_all. cbn [mbind pb_result_bind].
  rewrite <- (app_nil_l buf) at 1.
  rewrite MarshalToSizedBuffer_app by done. cbn [mbind pb_result_bind].
  rewrite drop_ge by (unfold len in Hbuf; lia).
  rewrite app_nil_l, app_nil_r, Hbuf, <- QueryGetCountResponse_bytes_len.
  apply slice_to_all.
Qed.

(** ** Reading a response back *)

Lemma QueryGetCountResponse_Unmarshal_loop_unfold bound m dAtA iNdEx :
  QueryGetCountResponse_Unmarshal_loop (S bound) m dAtA iNdEx =
  let l := len dAtA in
  if iNdEx <? l then
    let preIndex := iNdEx in
    let '(wire, iNdEx, r) := varint_loop wire_step 10 dAtA iNdEx 0 0 in
    match r with
    | Done _ =>
        let fieldNum := to_int32 (Z.shiftr wire 3) in
        let wireType := to_int (Z.land wire 7) in
        if wireType =? 4 then (m, Failed ErrWiretypeEndGroup)
        else if fieldNum <=? 0 then (m, Failed (ErrIllegalTag fieldNum wire))
        else if fieldNum =? 1 then
          if negb (wireType =? 0) then (m, Failed (ErrWrongWireType wireType))
          else
            match m with
            | None => (m, Crash NilReceiver)
            | Some _ =>
                let '(count, iNdEx, r) :=
                  varint_loop count_step 10 dAtA iNdEx 0 0 in
                let m := Some {| TotalCount := count |} in
                match r with
                | Done _ =>
                    QueryGetCountResponse_Unmarshal_loop bound m dAtA iNdEx
                | _ => (m, r)
                end
            end
        else
          match skip_field dAtA preIndex with
          | Done iNdEx =>
              QueryGetCountResponse_Unmarshal_loop bound m dAtA iNdEx
          | Failed e => (m, Failed e)
          | Crash p => (m, Crash p)
          | Unfinished => (m, Unfinished)
          end
    | _ => (m, r)
    end
  else if l <? iNdEx then (m, Failed io_ErrUnexpectedEOF)
  else (m, Done ()).
Proof. reflexivity. Qed.

Lemma QueryGetCountResponse_Unmarshal_loop_end bound m dAtA :
  QueryGetCountResponse_Unmarshal_loop bound m dAtA (len dAtA) = (m, Done ()).
Proof.
  destruct bound; unfold QueryGetCountResponse_Unmarshal_loop;
    by assert ((len dAtA <? len dAtA) = false) as -> by lia.
Qed.

Lemma Unmarshal_bytes m m0 :
  - 2 ^ 63 ≤ TotalCount m < 2 ^ 63 →
  QueryGetCountResponse_Unmarshal (Some m0) (QueryGetCountResponse_bytes m)
  = (Some (if TotalCount m =? 0 then m0 else m), Done ()).
Proof.
  intros Hrange. unfold QueryGetCountResponse_Unmarshal.
  pose proof (QueryGetCountResponse_bytes_len m) as Hlen.
  unfold QueryGetCountResponse_bytes, QueryGetCountResponse_Size in *.
  destruct (Z.eqb_spec (TotalCount m) 0) as [Hz|Hnz]; cbn [negb] in Hlen;
    [done|].
  pose proof (to_uint64_range (TotalCount m)) as Hr.
  pose proof (sovQuery_bounds _ Hr) as Hsov.
  set (v := to_uint64 (TotalCount m)) in *.
  cbn [length]. rewrite QueryGetCountResponse_Unmarshal_loop_unfold.
  cbv zeta.
  assert ((0 <? len (x08 :: varint_bytes 9 v)) = true) as -> by lia.
  assert (varint_loop wire_step 10 (x08 :: varint_bytes 9 v) 0 0 0
          = (8, 1, Done ())) as ->.
  { apply (varint_loop_last to_uint64 wire_step wire_step_spec
             10 8 [] (varint_bytes 9 v) 0 0); [done|done|].
    change ([] ++ to_uint8 8 :: varint_bytes 9 v)
      with (x08 :: varint_bytes 9 v). lia. }
  change (to_int (Z.land 8 7)) with 0.
  change (to_int32 (Z.shiftr 8 3)) with 1.
  cbn [Z.eqb Z.leb Z.compare negb].
  assert (varint_loop count_step 10 (x08 :: varint_bytes 9 v) 1 0 0
          = (TotalCount m, len (x08 :: varint_bytes 9 v), Done ())) as ->.
  { pose proof (varint_loop_bytes to_int64 count_step to_int64_lor
                  count_step_spec 9 v 10 [x08] [] 0 0) as Hread.
    rewrite app_nil_r in Hread. cbn [app] in Hread.
    change (len [x08]) with 1 in Hread. rewrite Hread; try lia.
    rewrite Z.shiftl_0_r, Z.lor_0_l. unfold v.
    rewrite to_int64_to_uint64, to_int64_id by done.
    by rewrite len_cons. }
  rewrite QueryGetCountResponse_Unmarshal_loop_end. by destruct m.
Qed.

Lemma QueryGetCountResponse_Marshal_Size_bounds m :
  0 ≤ QueryGetCountResponse_Size (Some m) ≤ 11.
Proof.
  unfold QueryGetCountResponse_Size.
  pose proof (sovQuery_bounds _ (to_uint64_range (TotalCount m))).
  destruct (Z.eqb_spec (TotalCount m) 0); cbn [negb]; lia.
Qed.

(** ** The loops on arbitrary input *)

Lemma load_in_range dAtA i : 0 ≤ i < len dAtA → ∃ b, load dAtA i = Done b.
Proof.
  intros Hi. unfold load.
  assert ((i <? 0) = false) as -> by lia.
  destruct (lookup_lt_is_Some_2 dAtA (Z.to_nat i)) as [b ->];
    [unfold len in Hi; lia|]. by exists b.
Qed.


Lemma varint_loop_outcome step bound : ∀ dAtA iNdEx shift acc,
  0 ≤ iNdEx → len dAtA < 2 ^ 63 → 0 ≤ shift →
  70 ≤ shift + 7 * Z.of_nat bound →
  varint_loop_ok dAtA iNdEx (varint_loop step bound dAtA iNdEx shift acc).
Proof.
  induction bound as [|bound IH]; intros dAtA iNdEx shift acc Hi Hl Hs Hb;
    rewrite varint_loop_unfold.
  - destruct (Z.leb_spec 64 shift); [by left|lia].
  - destruct (Z.leb_spec 64 shift); [by left|].
    destruct (Z.leb_spec (len dAtA) iNdEx); [by right|].
    destruct (load_in_range dAtA iNdEx) as [b ->]; [lia|].
    assert (to_int (iNdEx + 1) = iNdEx + 1) as ->
      by (unfold to_int; apply to_int64_id; lia).
    destruct (byte_val b <? 128); [simpl; lia|].
    assert (Hok := IH dAtA (iNdEx + 1) (shift + 7) (step acc b shift)
                     ltac:(lia) Hl ltac:(lia) ltac:(lia)).
    destruct (varint_loop step bound dAtA (iNdEx + 1) (shift + 7)
                (step acc b shift)) as [[acc' i'] r].
    unfold varint_loop_ok in *. destruct r as [[]| | |]; try done. lia.
Qed.

Lemma to_int64_range z : - 2 ^ 63 ≤ to_int64 z < 2 ^ 63.
Proof.
  unfold to_int64. pose proof (Z.mod_pos_bound (z + 2 ^ 63) (2 ^ 64)). lia.
Qed.

(** The accumulator of a signed varint stays an [int64]. *)
Lemma varint_loop_int64 step bound :
  (∀ a b s, 0 ≤ s →
     step a b s
     = Z.lor a (to_int64 (Z.shiftl (Z.land (byte_val b) 127) s))) →
  ∀ dAtA iNdEx shift acc,
  0 ≤ shift → - 2 ^ 63 ≤ acc < 2 ^ 63 →
  - 2 ^ 63 ≤ (varint_loop step bound dAtA iNdEx shift acc).1.1 < 2 ^ 63.
Proof.
  intros Hstep.
  assert (∀ a b s, 0 ≤ s → - 2 ^ 63 ≤ a < 2 ^ 63 →
            - 2 ^ 63 ≤ step a b s < 2 ^ 63) as Hrange.
  { intros a b s Hs Ha. rewrite Hstep by done.
    rewrite <- (to_int64_id a) by done. rewrite to_int64_lor.
    apply to_int64_range. }
  induction bound as [|bound IH]; intros dAtA iNdEx shift acc Hs Ha;
    rewrite varint_loop_unfold.
  - destruct (64 <=? shift); [done|]. destruct (len dAtA <=? iNdEx); [done|].
    destruct (load dAtA iNdEx); try done.
    destruct (byte_val a <? 128); simpl; by apply Hrange.
  - destruct (64 <=? shift); [done|]. destruct (len dAtA <=? iNdEx); [done|].
    destruct (load dAtA iNdEx); try done.
    destruct (byte_val a <? 128); [simpl; by apply Hrange|].
    apply IH; [lia|]. by apply Hrange.
Qed.


Lemma to_int_sum a b :
  0 ≤ a < 2 ^ 63 → 0 ≤ b < 2 ^ 63 →
  to_int (a + b) = a + b ∨ to_int (a + b) < 0.
Proof.
  intros Ha Hb. unfold to_int.
  destruct (Z.lt_ge_cases (a + b) (2 ^ 63)).
  - left. apply to_int64_id. lia.
  - right. destruct (to_int64_cases (a + b)) as [[Hlt _]|[_ ->]].
    + rewrite to_uint64_id in Hlt; lia.
    + rewrite to_uint64_id; lia.
Qed.

Lemma skipQuery_field_outcome dAtA iNdEx depth wireType :
  0 ≤ iNdEx ≤ len dAtA → len dAtA < 2 ^ 63 →
  skipQuery_field_ok iNdEx (skipQuery_field dAtA iNdEx depth wireType).
Proof.
  intros Hi Hl. unfold skipQuery_field.
  destruct (wireType =? 0).
  { assert (Hok := varint_loop_outcome skip_step 10 dAtA iNdEx 0 0
                     ltac:(lia) Hl ltac:(lia) ltac:(lia)).
    destruct (varint_loop skip_step 10 dAtA iNdEx 0 0) as [[u i] r].
    unfold varint_loop_ok in Hok.
    destruct r as [[]| | |]; cbn [mbind pb_result_bind skipQuery_field_ok];
      try done. lia. }
  destruct (wireType =? 1).
  { cbn [skipQuery_field_ok]. pose proof (to_int64_range (iNdEx + 8)).
    unfold to_int at 1 2. split; [done|].
    destruct (to_int_sum iNdEx 8); lia. }
  destruct (wireType =? 2).
  { assert (Hok := varint_loop_outcome length_step 10 dAtA iNdEx 0 0
                     ltac:(lia) Hl ltac:(lia) ltac:(lia)).
    assert (Hrange := varint_loop_int64 length_step 10 length_step_spec
                        dAtA iNdEx 0 0 ltac:(lia) ltac:(lia)).
    destruct (varint_loop length_step 10 dAtA iNdEx 0 0) as [[length i] r].
    unfold varint_loop_ok in Hok. cbn [fst] in Hrange.
    destruct r as [[]| | |]; cbn [mbind pb_result_bind skipQuery_field_ok];
      try done.
    destruct (Z.ltb_spec length 0); [done|]. cbn [skipQuery_field_ok].
    pose proof (to_int64_range (i + length)). unfold to_int at 1 2.
    split; [done|].
    destruct (to_int_sum i length); lia. }
  destruct (wireType =? 3); [cbn [skipQuery_field_ok]; lia|].
  destruct (wireType =? 4).
  { destruct (depth =? 0); cbn [skipQuery_field_ok]; [done|lia]. }
  destruct (wireType =? 5); [|done].
  cbn [skipQuery_field_ok]. pose proof (to_int64_range (iNdEx + 4)).
  unfold to_int at 1 2. split; [done|].
  destruct (to_int_sum iNdEx 4); lia.
Qed.


Lemma skipQuery_loop_unfold bound dAtA iNdEx depth :
  skipQuery_loop (S bound) dAtA iNdEx depth =
  if iNdEx <? len dAtA then
    let '(wire, iNdEx, r) := varint_loop wire_step 10 dAtA iNdEx 0 0 in
    _ ← r;
    let wireType := to_int (Z.land wire 7) in
    '(iNdEx, depth) ← skipQuery_field dAtA iNdEx depth wireType;
    if iNdEx <? 0 then Failed ErrInvalidLengthQuery
    else if depth =? 0 then Done iNdEx
    else skipQuery_loop bound dAtA iNdEx depth
  else Failed io_ErrUnexpectedEOF.
Proof. reflexivity. Qed.

Lemma skipQuery_loop_outcome bound : ∀ dAtA iNdEx depth,
  0 ≤ iNdEx → len dAtA < 2 ^ 63 →
  len dAtA - iNdEx ≤ Z.of_nat bound →
  skip_ok iNdEx (skipQuery_loop bound dAtA iNdEx depth).
Proof.
  induction bound as [|bound IH]; intros dAtA iNdEx depth Hi Hl Hb.
  - unfold skipQuery_loop.
    by assert ((iNdEx <? len dAtA) = false) as -> by lia.
  - rewrite skipQuery_loop_unfold.
    destruct (Z.ltb_spec iNdEx (len dAtA)); [|done].
    assert (Hok := varint_loop_outcome wire_step 10 dAtA iNdEx 0 0
                     ltac:(lia) Hl ltac:(lia) ltac:(lia)).
    destruct (varint_loop wire_step 10 dAtA iNdEx 0 0) as [[wire i1] r].
    unfold varint_loop_ok in Hok.
    destruct r as [[]| | |]; cbn [mbind pb_result_bind]; try done.
    assert (Hfield := skipQuery_field_outcome dAtA i1 depth
                        (to_int (Z.land wire 7)) ltac:(lia) Hl).
    destruct (skipQuery_field dAtA i1 depth (to_int (Z.land wire 7)))
      as [[i2 d2]| | |]; cbn [mbind pb_result_bind]; try done.
    cbn [skipQuery_field_ok] in Hfield.
    destruct (Z.ltb_spec i2 0); [done|].
    destruct (d2 =? 0); [cbn [skip_ok]; lia|].
    assert (Hrec := IH dAtA i2 d2 ltac:(lia) Hl ltac:(lia)).
    destruct (skipQuery_loop bound dAtA i2 d2); try done.
    cbn [skip_ok] in *. lia.
Qed.

Lemma skipQuery_outcome dAtA :
  len dAtA < 2 ^ 63 → skip_ok 0 (skipQuery dAtA).
Proof.
  intros Hl. apply skipQuery_loop_outcome; [done|done|]. unfold len. lia.
Qed.

Lemma len_drop {A} (l : list A) (n : Z) :
  0 ≤ n ≤ len l → len (drop (Z.to_nat n) l) = len l - n.
Proof. intros Hn. unfold len in *. rewrite length_drop. lia. Qed.


Lemma slice_from_drop {A} (s : list A) (low : Z) :
  0 ≤ low ≤ len s → slice_from s low = Done (drop (Z.to_nat low) s).
Proof.
  intros Hl. unfold slice_from.
  assert ((low <? 0) = false) as -> by lia.
  by assert ((len s <? low) = false) as -> by lia.
Qed.

Lemma skip_field_outcome dAtA preIndex :
  0 ≤ preIndex ≤ len dAtA → len dAtA < 2 ^ 63 →
  skip_field_ok dAtA preIndex (skip_field dAtA preIndex).
Proof.
  intros Hi Hl. unfold skip_field. cbv zeta.
  rewrite slice_from_drop by done. cbn [mbind pb_result_bind].
  assert (Hok := skipQuery_outcome (drop (Z.to_nat preIndex) dAtA)).
  rewrite len_drop in Hok by done. specialize (Hok ltac:(lia)).
  destruct (skipQuery (drop (Z.to_nat preIndex) dAtA)) as [skippy| | |];
    cbn [mbind pb_result_bind]; try done.
  cbn [skip_ok] in Hok.
  destruct (Z.ltb_spec skippy 0); [done|]. cbn [orb].
  destruct (Z.ltb_spec (to_int (preIndex + skippy)) 0); [done|].
  destruct (Z.ltb_spec (len dAtA) (to_int (preIndex + skippy))); [done|].
  cbn [skip_field_ok].
  destruct (to_int_sum preIndex skippy); lia.
Qed.


Lemma QueryGetCountResponse_Unmarshal_loop_outcome bound : ∀ m dAtA iNdEx,
  0 ≤ iNdEx ≤ len dAtA → len dAtA < 2 ^ 63 →
  len dAtA - iNdEx ≤ Z.of_nat bound →
  Unmarshal_ok (QueryGetCountResponse_Unmarshal_loop bound (Some m) dAtA iNdEx).
Proof.
  induction bound as [|bound IH]; intros m dAtA iNdEx Hi Hl Hb.
  - assert (iNdEx = len dAtA) as -> by lia.
    by rewrite QueryGetCountResponse_Unmarshal_loop_end.
  - rewrite QueryGetCountResponse_Unmarshal_loop_unfold. cbv zeta.
    destruct (Z.ltb_spec iNdEx (len dAtA)).
    2:{ by assert ((len dAtA <? iNdEx) = false) as -> by lia. }
    assert (Hok := varint_loop_outcome wire_step 10 dAtA iNdEx 0 0
                     ltac:(lia) Hl ltac:(lia) ltac:(lia)).
    destruct (varint_loop wire_step 10 dAtA iNdEx 0 0) as [[wire i1] r].
    unfold varint_loop_ok in Hok.
    destruct r as [[]| | |]; try done.
    destruct (to_int (Z.land wire 7) =? 4); [done|].
    destruct (to_int32 (Z.shiftr wire 3) <=? 0); [done|].
    destruct (to_int32 (Z.shiftr wire 3) =? 1).
    + destruct (negb (to_int (Z.land wire 7) =? 0)); [done|].
      assert (Hok2 := varint_loop_outcome count_step 10 dAtA i1 0 0
                        ltac:(lia) Hl ltac:(lia) ltac:(lia)).
      destruct (varint_loop count_step 10 dAtA i1 0 0) as [[count i2] r].
      unfold varint_loop_ok in Hok2.
      destruct r as [[]| | |]; try done.
      apply IH; lia.
    + assert (Hskip := skip_field_outcome dAtA iNdEx ltac:(lia) Hl).
      destruct (skip_field dAtA iNdEx) as [i2| | |]; try done.
      cbn [skip_field_ok] in Hskip. apply IH; lia.
Qed.

Lemma QueryGetCountRequest_Unmarshal_loop_unfold bound dAtA iNdEx :
  QueryGetCountRequest_Unmarshal_loop (S bound) dAtA iNdEx =
  let l := len dAtA in
  if iNdEx <? l then
    let preIndex := iNdEx in
    let '(wire, iNdEx, r) := varint_loop wire_step 10 dAtA iNdEx 0 0 in
    _ ← r;
    let fieldNum := to_int32 (Z.shiftr wire 3) in
    let wireType := to_int (Z.land wire 7) in
    if wireType =? 4 then Failed ErrWiretypeEndGroup
    else if fieldNum <=? 0 then Failed (ErrIllegalTag fieldNum wire)
    else
      iNdEx ← skip_field dAtA preIndex;
      QueryGetCountRequest_Unmarshal_loop bound dAtA iNdEx
  else if l <? iNdEx then Failed io_ErrUnexpectedEOF
  else Done ().
Proof. reflexivity. Qed.

Lemma QueryGetCountRequest_Unmarshal_loop_end bound dAtA :
  QueryGetCountRequest_Unmarshal_loop bound dAtA (len dAtA) = Done ().
Proof.
  destruct bound; unfold QueryGetCountRequest_Unmarshal_loop;
    by assert ((len dAtA <? len dAtA) = false) as -> by lia.
Qed.

Lemma QueryGetCountRequest_Unmarshal_loop_outcome bound : ∀ dAtA iNdEx,
  0 ≤ iNdEx ≤ len dAtA → len dAtA < 2 ^ 63 →
  len dAtA - iNdEx ≤ Z.of_nat bound →
  match QueryGetCountRequest_Unmarshal_loop bound dAtA iNdEx with
  | Done _ | Failed _ => True
  | _ => False
  end.
Proof.
  induction bound as [|bound IH]; intros dAtA iNdEx Hi Hl Hb.
  - assert (iNdEx = len dAtA) as -> by lia.
    by rewrite QueryGetCountRequest_Unmarshal_loop_end.
  - rewrite QueryGetCountRequest_Unmarshal_loop_unfold. cbv zeta.
    destruct (Z.ltb_spec iNdEx (len dAtA)).
    2:{ by assert ((len dAtA <? iNdEx) = false) as -> by lia. }
    assert (Hok := varint_loop_outcome wire_step 10 dAtA iNdEx 0 0
                     ltac:(lia) Hl ltac:(lia) ltac:(lia)).
    destruct (varint_loop wire_step 10 dAtA iNdEx 0 0) as [[wire i1] r].
    unfold varint_loop_ok in Hok.
    destruct r as [[]| | |]; cbn [mbind pb_result_bind]; try done.
    destruct (to_int (Z.land wire 7) =? 4); [done|].
    destruct (to_int32 (Z.shiftr wire 3) <=? 0); [done|].
    assert (Hskip := skip_field_outcome dAtA iNdEx ltac:(lia) Hl).
    destruct (skip_field dAtA iNdEx) as [i2| | |];
      cbn [mbind pb_result_bind]; try done.
    cbn [skip_field_ok] in Hskip. apply IH; lia.
Qed.

(** ** One encoded field inside a longer input *)

Lemma varint_loop_tag step b2 pre post :
  len (pre ++ x08 :: post) < 2 ^ 63 →
  (∀ a b s, 0 ≤ s →
     step a b s
     = Z.lor a (to_uint64 (Z.shiftl (Z.land (byte_val b) 127) s))) →
  varint_loop step b2 (pre ++ x08 :: post) (len pre) 0 0
  = (8, len pre + 1, Done ()).
Proof.
  intros Hlen Hstep.
  apply (varint_loop_last to_uint64 step Hstep b2 8 pre post 0 0); done.
Qed.

Lemma QueryGetCountResponse_Unmarshal_loop_field bound m m0 pre post :
  - 2 ^ 63 ≤ TotalCount m < 2 ^ 63 →
  TotalCount m ≠ 0 →
  len (pre ++ QueryGetCountResponse_bytes m ++ post) < 2 ^ 63 →
  QueryGetCountResponse_Unmarshal_loop (S bound) (Some m0)
    (pre ++ QueryGetCountResponse_bytes m ++ post) (len pre)
  = QueryGetCountResponse_Unmarshal_loop bound (Some m)
      (pre ++ QueryGetCountResponse_bytes m ++ post)
      (len pre + len (QueryGetCountResponse_bytes m)).
Proof.
  intros Hrange Hnz. unfold QueryGetCountResponse_bytes.
  destruct (Z.eqb_spec (TotalCount m) 0) as [|_]; [done|].
  pose proof (to_uint64_range (TotalCount m)) as Hr.
  set (v := to_uint64 (TotalCount m)) in *.
  cbn [app]. intros Hlen.
  rewrite QueryGetCountResponse_Unmarshal_loop_unfold. cbv zeta.
  pose proof (len_nonneg pre).
  pose proof (len_nonneg (varint_bytes 9 v ++ post)).
  assert ((len pre <? len (pre ++ x08 :: varint_bytes 9 v ++ post)) = true)
    as -> by (rewrite len_middle; lia).
  rewrite varint_loop_tag by (done || apply wire_step_spec).
  change (to_int (Z.land 8 7)) with 0.
  change (to_int32 (Z.shiftr 8 3)) with 1.
  cbn [Z.eqb Z.leb Z.compare negb].
  assert (varint_loop count_step 10
            (pre ++ x08 :: varint_bytes 9 v ++ post) (len pre + 1) 0 0
          = (TotalCount m, len pre + len (x08 :: varint_bytes 9 v), Done ()))
    as ->.
  { pose proof (varint_loop_bytes to_int64 count_step to_int64_lor
                  count_step_spec 9 v 10 (pre ++ [x08]) post 0 0) as Hread.
    rewrite <- (assoc (++) pre) in Hread. cbn [app] in Hread.
    assert (len (pre ++ [x08]) = len pre + 1) as Hpre
      by (by rewrite len_app).
    rewrite Hpre in Hread. rewrite Hread; try lia.
    rewrite Z.shiftl_0_r, Z.lor_0_l. unfold v.
    rewrite to_int64_to_uint64, to_int64_id by done.
    rewrite len_cons. do 2 f_equal. lia. }
  by destruct m.
Qed.

(** ** A truncated varint *)

Lemma varint_loop_truncated step j : ∀ bound v b2 pre s a,
  0 ≤ v < 2 ^ (7 * (Z.of_nat bound + 1)) →
  (j < length (varint_bytes bound v))%nat →
  0 ≤ s → s + 7 * Z.of_nat j < 64 →
  (j ≤ b2)%nat →
  len (pre ++ take j (varint_bytes bound v)) < 2 ^ 63 →
  (varint_loop step b2 (pre ++ take j (varint_bytes bound v)) (len pre) s a).2
  = Failed io_ErrUnexpectedEOF.
Proof.
  induction j as [|j IH]; intros bound v b2 pre s a Hv Hj Hs Hs' Hb Hlen.
  - rewrite take_0, app_nil_r, varint_loop_unfold.
    assert ((64 <=? s) = false) as -> by lia.
    by assert ((len pre <=? len pre) = true) as -> by lia.
  - destruct (Z.leb_spec 128 v) as [Hge|Hlt].
    2:{ rewrite varint_bytes_small in Hj by done. simpl in Hj. lia. }
    destruct bound as [|bound].
    { change (7 * (Z.of_nat 0 + 1)) with 7 in Hv. lia. }
    rewrite varint_bytes_large in * by done.
    destruct (continuation_byte v) as [Hw Hw'].
    rewrite firstn_cons in *. rewrite len_middle in Hlen.
    pose proof (len_nonneg pre).
    pose proof (len_nonneg (take j (varint_bytes bound (Z.shiftr v 7)))).
    rewrite varint_loop_unfold.
    assert ((64 <=? s) = false) as -> by lia.
    assert ((len (pre ++ to_uint8 (Z.lor (Z.land v 127) 128)
               :: take j (varint_bytes bound (Z.shiftr v 7))) <=? len pre)
            = false) as -> by (rewrite len_middle; lia).
    rewrite load_app, byte_val_to_uint8, Z.mod_small by lia.
    assert ((Z.lor (Z.land v 127) 128 <? 128) = false) as -> by lia.
    destruct b2 as [|b2]; [lia|].
    unfold to_int. rewrite to_int64_id by lia.
    replace (len pre + 1)
      with (len (pre ++ [to_uint8 (Z.lor (Z.land v 127) 128)]))
      by (rewrite len_app; done).
    rewrite (cons_middle _ pre), (assoc (++) pre).
    apply IH; try lia.
    + apply shiftr_7_bound; lia.
    + simpl in Hj. lia.
    + rewrite <- (assoc (++) pre). cbn [app]. rewrite len_middle. lia.
Qed.

(** ** The properties of the wire format *)

Lemma split_at_segment {A} (l : list A) (a n : Z) :
  0 ≤ a → 0 ≤ n → a + n ≤ len l →
  ∃ pre mid post,
    l = pre ++ mid ++ post ∧ len pre = a ∧ len mid = n
    ∧ pre = take (Z.to_nat a) l ∧ post = drop (Z.to_nat (a + n)) l.
Proof.
  intros Ha Hn Hl. unfold len in *.
  exists (take (Z.to_nat a) l),
    (take (Z.to_nat n) (drop (Z.to_nat a) l)),
    (drop (Z.to_nat (a + n)) l).
  repeat split.
  - rewrite Z2Nat.inj_add by lia. rewrite <- drop_drop.
    by rewrite !take_drop.
  - rewrite length_take. lia.
  - rewrite length_take, length_drop. lia.
Qed.

(** X8.  A varint holds [x] in [n] bytes exactly when [x] is below [2^(7n)], and
    [sovQuery] is the least such number of bytes. *)
Theorem sovQuery_groups (x n : Z) :
  0 ≤ x → 1 ≤ n → (sovQuery x ≤ n ↔ x < 2 ^ (7 * n)).
Proof.
  intros Hx Hn. destruct (Z.eq_dec x 0) as [->|Hnz].
  - change (sovQuery 0) with 1. split; [intros _|lia].
    apply Z.pow_pos_nonneg; lia.
  - rewrite sovQuery_log2 by lia. pose proof (Z.log2_nonneg x).
    rewrite Z.log2_lt_pow2 by lia. split.
    + intros Hdiv.
      assert (Z.log2 x + 7 < 7 * (n + 1)); [|lia].
      apply Z.nle_gt. intros Hle.
      apply (Z.div_le_lower_bound _ 7) in Hle; lia.
    + intros Hlog. apply Z.lt_succ_r.
      apply Z.div_lt_upper_bound; lia.
Qed.

(** X9.  [encodeVarintQuery] writes the [sovQuery v] bytes that end before
    [offset] and nothing else, returns where they start, and what it wrote
    reads back as [v] up to [offset]. *)
Theorem encodeVarintQuery_read_back (dAtA : list byte) (offset v : Z) :
  0 ≤ v < 2 ^ 64 →
  sovQuery v ≤ offset ≤ len dAtA →
  len dAtA < 2 ^ 63 →
  ∃ dAtA',
    encodeVarintQuery dAtA offset v = Done (dAtA', offset - sovQuery v)
    ∧ length dAtA' = length dAtA
    ∧ take (Z.to_nat (offset - sovQuery v)) dAtA'
      = take (Z.to_nat (offset - sovQuery v)) dAtA
    ∧ drop (Z.to_nat offset) dAtA' = drop (Z.to_nat offset) dAtA
    ∧ varint_loop wire_step 10 dAtA' (offset - sovQuery v) 0 0
      = (v, offset, Done ()).
Proof.
  intros Hv Ho Hl. pose proof (sovQuery_bounds v Hv) as Hsov.
  destruct (split_at_segment dAtA (offset - sovQuery v) (sovQuery v))
    as (pre & mid & post & Heq & Hpre & Hmid & _ & _); try lia.
  subst dAtA.
  pose proof (varint_bytes_uint64_length v Hv) as Hvb.
  exists (pre ++ varint_bytes 9 v ++ post).
  assert (length pre = Z.to_nat (offset - sovQuery v)) as Hpren
    by (unfold len in Hpre; lia).
  assert (length (pre ++ varint_bytes 9 v) = Z.to_nat offset) as Hvbn
    by (rewrite length_app; unfold len in *; lia).
  assert (length (pre ++ mid) = Z.to_nat offset) as Hmidn
    by (rewrite length_app; unfold len in *; lia).
  repeat split.
  - replace offset with (len pre + len mid) at 1 by lia.
    rewrite encodeVarintQuery_app by done. do 2 f_equal. lia.
  - rewrite !length_app. unfold len in *. lia.
  - by rewrite <- Hpren, !take_app_length.
  - rewrite !(assoc (++) pre). rewrite <- Hvbn at 1.
    by rewrite <- Hmidn, !drop_app_length.
  - rewrite <- Hpre.
    rewrite (varint_loop_bytes to_uint64 wire_step to_uint64_lor
               wire_step_spec 9 v 10 pre post 0 0); try lia.
    + rewrite Z.shiftl_0_r, Z.lor_0_l, to_uint64_id by done.
      do 2 f_equal. lia.
    + rewrite !len_app in *. lia.
Qed.

(** X10.  [Marshal] of a response never fails: it returns as many bytes as
    [Size] announces, none for a zero count and at most eleven. *)
Theorem QueryGetCountResponse_Marshal_Size (m : QueryGetCountResponse) :
  ∃ bs,
    QueryGetCountResponse_Marshal (Some m) = Done bs
    ∧ len bs = QueryGetCountResponse_Size (Some m)
    ∧ 0 ≤ QueryGetCountResponse_Size (Some m) ≤ 11
    ∧ (bs = [] ↔ TotalCount m = 0).
Proof.
  exists (QueryGetCountResponse_bytes m).
  split; [apply QueryGetCountResponse_Marshal_bytes|].
  split; [apply QueryGetCountResponse_bytes_len|].
  unfold QueryGetCountResponse_Size, QueryGetCountResponse_bytes.
  pose proof (sovQuery_bounds _ (to_uint64_range (TotalCount m))).
  destruct (Z.eqb_spec (TotalCount m) 0); cbn [negb]; [done|].
  split; [lia|]. by split.
Qed.

(** X11.  What [Marshal] returns for a response whose count is an [int64],
    [Unmarshal] reads back as that response: the count is restored in a new
    message, and in any message unless the count is zero, which is not on
    the wire. *)
Theorem QueryGetCountResponse_round_trip (m : QueryGetCountResponse) :
  - 2 ^ 63 ≤ TotalCount m < 2 ^ 63 →
  ∃ bs,
    QueryGetCountResponse_Marshal (Some m) = Done bs
    ∧ QueryGetCountResponse_Unmarshal (Some {| TotalCount := 0 |}) bs
      = (Some m, Done ())
    ∧ ∀ m0, QueryGetCountResponse_Unmarshal (Some m0) bs
            = (Some (if TotalCount m =? 0 then m0 else m), Done ()).
Proof.
  intros Hrange. exists (QueryGetCountResponse_bytes m).
  split; [apply QueryGetCountResponse_Marshal_bytes|].
  split; [|intros m0; by apply Unmarshal_bytes].
  rewrite Unmarshal_bytes by done.
  destruct (Z.eqb_spec (TotalCount m) 0) as [Hz|]; [|done].
  destruct m as [c]. simpl in Hz. by subst.
Qed.

(** X12.  A negative count takes the full eleven bytes. *)
Theorem QueryGetCountResponse_Size_negative (m : QueryGetCountResponse) :
  - 2 ^ 63 ≤ TotalCount m < 0 →
  QueryGetCountResponse_Size (Some m) = 11.
Proof.
  intros Hc. unfold QueryGetCountResponse_Size.
  assert ((TotalCount m =? 0) = false) as -> by lia. cbn [negb].
  assert (to_uint64 (TotalCount m) = TotalCount m + 2 ^ 64) as Hu.
  { unfold to_uint64. symmetry.
    apply Z.mod_unique with (-1); lia. }
  rewrite sovQuery_log2 by lia.
  assert (Z.log2 (to_uint64 (TotalCount m)) = 63) as ->; [|done].
  apply Z.log2_unique; lia.
Qed.

Lemma slice_to_take {A} (s : list A) (high : Z) :
  0 ≤ high ≤ len s → slice_to s high = Done (take (Z.to_nat high) s).
Proof.
  intros Hh. unfold slice_to.
  assert ((high <? 0) = false) as -> by lia.
  by assert ((len s <? high) = false) as -> by lia.
Qed.

Lemma MarshalToSizedBuffer_tail m dAtA :
  QueryGetCountResponse_Size (Some m) ≤ len dAtA →
  QueryGetCountResponse_MarshalToSizedBuffer (Some m) dAtA
  = Done (take (Z.to_nat (len dAtA - QueryGetCountResponse_Size (Some m))) dAtA
            ++ QueryGetCountResponse_bytes m,
          QueryGetCountResponse_Size (Some m)).
Proof.
  intros Hsize.
  pose proof (QueryGetCountResponse_Size_nonneg (Some m)) as Hnn.
  destruct (split_at_segment dAtA
              (len dAtA - QueryGetCountResponse_Size (Some m))
              (QueryGetCountResponse_Size (Some m)))
    as (pre & mid & post & Heq & Hpre & Hmid & Hpre' & Hpost); try lia.
  replace (len dAtA - QueryGetCountResponse_Size (Some m)
           + QueryGetCountResponse_Size (Some m)) with (len dAtA) in Hpost
    by lia.
  unfold len in Hpost at 1. rewrite Nat2Z.id, drop_all in Hpost. subst post.
  rewrite app_nil_r in Heq. rewrite <- Hpre', Heq at 1.
  rewrite MarshalToSizedBuffer_app by done. by rewrite Hmid.
Qed.

(** X13.  [MarshalToSizedBuffer] of a response writes its encoding, the bytes
    [Marshal] returns, into the end of the buffer, leaves the bytes before it
    as they are and returns the [Size]; the buffer has to hold that many
    bytes. *)
Theorem QueryGetCountResponse_MarshalToSizedBuffer_end
    (m : QueryGetCountResponse) (dAtA : list byte) :
  QueryGetCountResponse_Size (Some m) ≤ len dAtA →
  ∃ bs,
    QueryGetCountResponse_Marshal (Some m) = Done bs
    ∧ QueryGetCountResponse_MarshalToSizedBuffer (Some m) dAtA
      = Done (take (Z.to_nat (len dAtA - len bs)) dAtA ++ bs, len bs).
Proof.
  intros Hsize. exists (QueryGetCountResponse_bytes m).
  split; [apply QueryGetCountResponse_Marshal_bytes|].
  rewrite QueryGetCountResponse_bytes_len.
  by apply MarshalToSizedBuffer_tail.
Qed.

Lemma store_negative dAtA i b :
  i < 0 → store dAtA i b = Crash (IndexOutOfRangeAt i (len dAtA)).
Proof.
  intros Hi. unfold store. by assert ((i <? 0) = true) as -> by lia.
Qed.

Lemma encodeVarintQuery_loop_negative bound dAtA offset v :
  offset < 0 →
  encodeVarintQuery_loop (S bound) dAtA offset v
  = Crash (IndexOutOfRangeAt offset (len dAtA)).
Proof.
  intros Ho. destruct (Z.leb_spec 128 v).
  - rewrite encodeVarintQuery_loop_large by done.
    by rewrite store_negative.
  - rewrite encodeVarintQuery_loop_small by done.
    by rewrite store_negative.
Qed.

(** X14.  On a buffer shorter than the [Size], [MarshalToSizedBuffer] of a
    response panics on a write before the start of the buffer. *)
Theorem QueryGetCountResponse_MarshalToSizedBuffer_short
    (m : QueryGetCountResponse) (dAtA : list byte) :
  len dAtA < QueryGetCountResponse_Size (Some m) →
  ∃ i, i < 0
       ∧ QueryGetCountResponse_MarshalToSizedBuffer (Some m) dAtA
         = Crash (IndexOutOfRangeAt i (len dAtA)).
Proof.
  unfold QueryGetCountResponse_Size, QueryGetCountResponse_MarshalToSizedBuffer.
  pose proof (len_nonneg dAtA).
  destruct (Z.eqb_spec (TotalCount m) 0); cbn [negb]; [lia|]. intros Hshort.
  pose proof (to_uint64_range (TotalCount m)) as Hr.
  set (v := to_uint64 (TotalCount m)) in *.
  destruct (Z.lt_ge_cases (len dAtA - sovQuery v) 0) as [Hneg|Hnn].
  - exists (len dAtA - sovQuery v). split; [done|].
    unfold encodeVarintQuery. by rewrite encodeVarintQuery_loop_negative.
  - exists (-1). split; [done|].
    rewrite <- (app_nil_l dAtA) at 1. rewrite <- (app_nil_r dAtA) at 1.
    change (len dAtA) with (len (@nil byte) + len dAtA) at 1.
    rewrite encodeVarintQuery_app by (done || lia).
    cbn [mbind pb_result_bind]. change (len [] - 1) with (-1).
    rewrite store_negative by done. cbn [mbind pb_result_bind].
    rewrite app_nil_l, app_nil_r. do 2 f_equal.
    rewrite varint_bytes_uint64_length by done. lia.
Qed.

(** X15.  [MarshalTo] of a response writes its encoding into the start of the
    buffer, leaves the bytes after it as they are and returns the [Size];
    on a buffer whose capacity is below the [Size] it panics on the
    slicing. *)
Theorem QueryGetCountResponse_MarshalTo_start
    (m : QueryGetCountResponse) (dAtA : list byte) :
  ∃ bs,
    QueryGetCountResponse_Marshal (Some m) = Done bs
    ∧ QueryGetCountResponse_MarshalTo (Some m) dAtA
      = if len dAtA <? len bs then
          Crash (SliceBoundsOutOfRange (len bs) (len dAtA))
        else Done (bs ++ drop (length bs) dAtA, len bs).
Proof.
  exists (QueryGetCountResponse_bytes m).
  split; [apply QueryGetCountResponse_Marshal_bytes|].
  rewrite QueryGetCountResponse_bytes_len.
  assert (length (QueryGetCountResponse_bytes m)
          = Z.to_nat (QueryGetCountResponse_Size (Some m))) as ->.
  { pose proof (QueryGetCountResponse_bytes_len m). unfold len in *. lia. }
  pose proof (QueryGetCountResponse_Size_nonneg (Some m)) as Hnn.
  unfold QueryGetCountResponse_MarshalTo.
  destruct (Z.ltb_spec (len dAtA) (QueryGetCountResponse_Size (Some m))).
  - unfold slice_to.
    assert ((QueryGetCountResponse_Size (Some m) <? 0) = false) as -> by lia.
    by assert ((len dAtA <? QueryGetCountResponse_Size (Some m)) = true)
      as -> by lia.
  - rewrite slice_to_take by lia. cbn [mbind pb_result_bind].
    rewrite <- (app_nil_l (take _ dAtA)).
    rewrite MarshalToSizedBuffer_app.
    + cbn [mbind pb_result_bind]. rewrite app_nil_l. do 2 f_equal.
      unfold len in *. rewrite length_take. lia.
    + unfold len in *. rewrite length_take. lia.
Qed.

(** X16.  [XXX_Marshal] of a response, on the path that is not the
    deterministic one, returns what [Marshal] returns when the capacity of
    the buffer is the [Size]. *)
Theorem QueryGetCountResponse_XXX_Marshal_exact
    xxx_messageInfo_Marshal (m : QueryGetCountResponse) (b : list byte) :
  len b = QueryGetCountResponse_Size (Some m) →
  QueryGetCountResponse_XXX_Marshal xxx_messageInfo_Marshal (Some m) b false
  = QueryGetCountResponse_Marshal (Some m).
Proof.
  intros Hb. rewrite QueryGetCountResponse_Marshal_bytes.
  pose proof (QueryGetCountResponse_bytes_len m) as Hlen.
  unfold QueryGetCountResponse_XXX_Marshal.
  rewrite slice_to_all. cbn [mbind pb_result_bind].
  rewrite MarshalToSizedBuffer_tail by lia.
  cbn [mbind pb_result_bind]. rewrite Hb, Z.sub_diag.
  rewrite take_0, app_nil_l, <- Hlen. apply slice_to_all.
Qed.

(** X17.  [XXX_Marshal] of a response, on the path that is not the
    deterministic one, marshals into the end of the capacity and returns
    the start of the buffer: with a capacity of twice the [Size] or more,
    what it returns is the first [Size] bytes of the buffer as they were.
    That is what [Marshal] returns only when the buffer began with these
    bytes already, as it does when the count is zero and there are none. *)
Theorem QueryGetCountResponse_XXX_Marshal_oversized
    xxx_messageInfo_Marshal (m : QueryGetCountResponse) (b : list byte) :
  2 * QueryGetCountResponse_Size (Some m) ≤ len b →
  QueryGetCountResponse_XXX_Marshal xxx_messageInfo_Marshal (Some m) b false
  = Done (take (Z.to_nat (QueryGetCountResponse_Size (Some m))) b)
  ∧ ∀ bs,
      QueryGetCountResponse_Marshal (Some m) = Done bs →
      (QueryGetCountResponse_XXX_Marshal xxx_messageInfo_Marshal (Some m) b
         false = Done bs
       ↔ take (length bs) b = bs)
      ∧ (TotalCount m = 0 → take (length bs) b = bs)
      ∧ (TotalCount m ≠ 0 → b !! 0%nat ≠ Some x08 →
         QueryGetCountResponse_XXX_Marshal xxx_messageInfo_Marshal (Some m) b
           false ≠ Done bs).
Proof.
  intros Hb.
  pose proof (QueryGetCountResponse_bytes_len m) as Hlen.
  pose proof (QueryGetCountResponse_Marshal_Size_bounds m) as Hsize.
  assert (QueryGetCountResponse_XXX_Marshal xxx_messageInfo_Marshal
            (Some m) b false
          = Done (take (Z.to_nat (QueryGetCountResponse_Size (Some m))) b))
    as Hres.
  { unfold QueryGetCountResponse_XXX_Marshal.
    rewrite slice_to_all. cbn [mbind pb_result_bind].
    rewrite MarshalToSizedBuffer_tail by lia.
    cbn [mbind pb_result_bind].
    rewrite slice_to_take.
    - f_equal. rewrite take_app_le.
      + rewrite take_take. f_equal. lia.
      + rewrite length_take. unfold len in *. lia.
    - rewrite len_app. unfold len at 1. rewrite length_take.
      unfold len in *. lia. }
  split; [done|]. intros bs Hbs.
  rewrite QueryGetCountResponse_Marshal_bytes in Hbs. injection Hbs as <-.
  assert (length (QueryGetCountResponse_bytes m)
          = Z.to_nat (QueryGetCountResponse_Size (Some m))) as Hn
    by (unfold len in Hlen; lia).
  assert (QueryGetCountResponse_XXX_Marshal xxx_messageInfo_Marshal
            (Some m) b false = Done (QueryGetCountResponse_bytes m)
          ↔ take (length (QueryGetCountResponse_bytes m)) b
            = QueryGetCountResponse_bytes m) as Hiff.
  { rewrite Hres, Hn. split; intros Heq; congruence. }
  split; [done|]. split.
  - intros Hz. unfold QueryGetCountResponse_bytes.
    by assert ((TotalCount m =? 0) = true) as -> by lia.
  - intros Hnz Hfirst Heq. apply Hiff in Heq. apply Hfirst.
    assert (QueryGetCountResponse_bytes m !! 0%nat = Some x08) as Htag.
    { unfold QueryGetCountResponse_bytes.
      by assert ((TotalCount m =? 0) = false) as -> by lia. }
    rewrite <- Heq in Htag. by apply lookup_take_Some in Htag as [Htag _].
Qed.

(** ** The decoders on arbitrary input *)

(** X18.  [Unmarshal] of a response ends, on every input, in success or in an
    error: it reads no byte outside the input, whatever the bytes are. *)
Theorem QueryGetCountResponse_Unmarshal_no_panic
    (m : QueryGetCountResponse) (dAtA : list byte) :
  len dAtA < 2 ^ 63 →
  ∃ m',
    QueryGetCountResponse_Unmarshal (Some m) dAtA = (Some m', Done ())
    ∨ ∃ e, QueryGetCountResponse_Unmarshal (Some m) dAtA = (Some m', Failed e).
Proof.
  intros Hl. unfold QueryGetCountResponse_Unmarshal.
  pose proof (QueryGetCountResponse_Unmarshal_loop_outcome
                (length dAtA) m dAtA 0) as Hok.
  pose proof (len_nonneg dAtA).
  specialize (Hok ltac:(lia) Hl ltac:(unfold len; lia)).
  destruct (QueryGetCountResponse_Unmarshal_loop (length dAtA) (Some m) dAtA 0)
    as [[m'|] [[]|e|p|]]; try done; exists m'; eauto.
Qed.

(** X19.  [skipQuery] and [Unmarshal] of a request end, on every input, in
    success or in an error, and a length [skipQuery] returns is positive. *)
Theorem skipQuery_no_panic (dAtA : list byte) :
  len dAtA < 2 ^ 63 →
  ((∃ n, skipQuery dAtA = Done n ∧ 0 < n < 2 ^ 63)
   ∨ ∃ e, skipQuery dAtA = Failed e)
  ∧ ∀ m, QueryGetCountRequest_Unmarshal m dAtA = Done ()
         ∨ ∃ e, QueryGetCountRequest_Unmarshal m dAtA = Failed e.
Proof.
  intros Hl. split.
  - pose proof (skipQuery_outcome dAtA Hl) as Hok.
    destruct (skipQuery dAtA) as [n|e|p|]; try done; eauto.
  - intros m. unfold QueryGetCountRequest_Unmarshal.
    pose proof (QueryGetCountRequest_Unmarshal_loop_outcome
                  (length dAtA) dAtA 0) as Hok.
    pose proof (len_nonneg dAtA).
    specialize (Hok ltac:(lia) Hl ltac:(unfold len; lia)).
    destruct (QueryGetCountRequest_Unmarshal_loop (length dAtA) dAtA 0)
      as [[]|e|p|]; try done; eauto.
Qed.

(** ** Truncated and concatenated encodings *)

Lemma Unmarshal_truncated m m0 j :
  - 2 ^ 63 ≤ TotalCount m < 2 ^ 63 →
  (0 < j < length (QueryGetCountResponse_bytes m))%nat →
  ∃ m',
    QueryGetCountResponse_Unmarshal (Some m0)
      (take j (QueryGetCountResponse_bytes m))
    = (Some m', Failed io_ErrUnexpectedEOF).
Proof.
  intros Hrange. unfold QueryGetCountResponse_bytes.
  destruct (Z.eqb_spec (TotalCount m) 0) as [|_]; [simpl; lia|].
  pose proof (to_uint64_range (TotalCount m)) as Hr.
  pose proof (sovQuery_bounds _ Hr) as Hsov.
  pose proof (varint_bytes_uint64_length _ Hr) as Hvb.
  set (v := to_uint64 (TotalCount m)) in *.
  destruct j as [|j]; [lia|]. cbn [length]. intros Hj.
  rewrite firstn_cons. unfold QueryGetCountResponse_Unmarshal.
  cbn [length]. rewrite QueryGetCountResponse_Unmarshal_loop_unfold.
  cbv zeta.
  pose proof (len_nonneg (take j (varint_bytes 9 v))).
  assert (len (x08 :: take j (varint_bytes 9 v)) < 2 ^ 63) as Hlen.
  { rewrite len_cons. unfold len in *. rewrite length_take. lia. }
  assert ((0 <? len (x08 :: take j (varint_bytes 9 v))) = true) as ->
    by (rewrite len_cons; lia).
  assert (varint_loop wire_step 10 (x08 :: take j (varint_bytes 9 v)) 0 0 0
          = (8, 1, Done ())) as ->.
  { by apply (varint_loop_last to_uint64 wire_step wire_step_spec
                10 8 [] (take j (varint_bytes 9 v)) 0 0). }
  change (to_int (Z.land 8 7)) with 0.
  change (to_int32 (Z.shiftr 8 3)) with 1.
  cbn [Z.eqb Z.leb Z.compare negb].
  pose proof (varint_loop_truncated count_step j 9 v 10 [x08] 0 0) as Hcut.
  change (7 * (Z.of_nat 9 + 1)) with 70 in Hcut.
  change ([x08] ++ take j (varint_bytes 9 v))
    with (x08 :: take j (varint_bytes 9 v)) in Hcut.
  change (len [x08]) with 1 in Hcut.
  unfold len in Hvb.
  specialize (Hcut ltac:(lia) ltac:(lia) ltac:(lia) ltac:(lia) ltac:(lia)
                Hlen).
  destruct (varint_loop count_step 10 (x08 :: take j (varint_bytes 9 v)) 1 0 0)
    as [[count i] r].
  cbn [snd] in Hcut. subst r. by eexists.
Qed.

(** X20.  Every proper, non-empty prefix of what [Marshal] returns for a
    response is refused by [Unmarshal] with [io.ErrUnexpectedEOF]. *)
Theorem QueryGetCountResponse_Unmarshal_truncated
    (m m0 : QueryGetCountResponse) (bs : list byte) (j : nat) :
  - 2 ^ 63 ≤ TotalCount m < 2 ^ 63 →
  QueryGetCountResponse_Marshal (Some m) = Done bs →
  (0 < j < length bs)%nat →
  ∃ m',
    QueryGetCountResponse_Unmarshal (Some m0) (take j bs)
    = (Some m', Failed io_ErrUnexpectedEOF).
Proof.
  intros Hrange Hbs Hj. rewrite QueryGetCountResponse_Marshal_bytes in Hbs.
  injection Hbs as <-. by apply Unmarshal_truncated.
Qed.

Lemma Unmarshal_concat a b m0 :
  - 2 ^ 63 ≤ TotalCount a < 2 ^ 63 →
  - 2 ^ 63 ≤ TotalCount b < 2 ^ 63 →
  QueryGetCountResponse_Unmarshal (Some m0)
    (QueryGetCountResponse_bytes a ++ QueryGetCountResponse_bytes b)
  = (Some (if TotalCount b =? 0 then
             if TotalCount a =? 0 then m0 else a
           else b), Done ()).
Proof.
  intros Ha Hb.
  destruct (Z.eqb_spec (TotalCount b) 0) as [Hzb|Hnb].
  { assert (QueryGetCountResponse_bytes b = []) as ->.
    { unfold QueryGetCountResponse_bytes.
      by assert ((TotalCount b =? 0) = true) as -> by lia. }
    rewrite app_nil_r. by apply Unmarshal_bytes. }
  pose proof (QueryGetCountResponse_bytes_len a) as Hla.
  pose proof (QueryGetCountResponse_bytes_len b) as Hlb.
  pose proof (QueryGetCountResponse_Marshal_Size_bounds a) as Hsa.
  pose proof (QueryGetCountResponse_Marshal_Size_bounds b) as Hsb.
  assert (1 ≤ len (QueryGetCountResponse_bytes b)) as Hb1.
  { rewrite Hlb. unfold QueryGetCountResponse_Size.
    assert ((TotalCount b =? 0) = false) as -> by lia. cbn [negb].
    pose proof (sovQuery_bounds _ (to_uint64_range (TotalCount b))). lia. }
  unfold QueryGetCountResponse_Unmarshal.
  destruct (Z.eqb_spec (TotalCount a) 0) as [Hza|Hna].
  - assert (QueryGetCountResponse_bytes a = []) as ->.
    { unfold QueryGetCountResponse_bytes.
      by assert ((TotalCount a =? 0) = true) as -> by lia. }
    rewrite app_nil_l.
    destruct (length (QueryGetCountResponse_bytes b)) as [|n] eqn:Hn;
      [unfold len in Hb1; lia|].
    pose proof (QueryGetCountResponse_Unmarshal_loop_field n b m0 [] [] Hb Hnb)
      as Hstep.
    rewrite app_nil_l, app_nil_r in Hstep.
    change (len []) with 0 in Hstep. rewrite Z.add_0_l in Hstep.
    rewrite Hstep by lia.
    apply QueryGetCountResponse_Unmarshal_loop_end.
  - assert (1 ≤ len (QueryGetCountResponse_bytes a)) as Ha1.
    { rewrite Hla. unfold QueryGetCountResponse_Size.
      assert ((TotalCount a =? 0) = false) as -> by lia. cbn [negb].
      pose proof (sovQuery_bounds _ (to_uint64_range (TotalCount a))). lia. }
    rewrite length_app.
    destruct (length (QueryGetCountResponse_bytes a)) as [|n] eqn:Hn;
      [unfold len in Ha1; lia|].
    destruct (length (QueryGetCountResponse_bytes b)) as [|k] eqn:Hk;
      [unfold len in Hb1; lia|].
    replace (S n + S k)%nat with (S (S (n + k))) by lia.
    pose proof (QueryGetCountResponse_Unmarshal_loop_field (S (n + k)) a m0 []
                  (QueryGetCountResponse_bytes b) Ha Hna) as Hstep.
    rewrite app_nil_l in Hstep.
    change (len []) with 0 in Hstep. rewrite Z.add_0_l in Hstep.
    rewrite Hstep by (rewrite len_app; lia).
    pose proof (QueryGetCountResponse_Unmarshal_loop_field (n + k) b a
                  (QueryGetCountResponse_bytes a) [] Hb Hnb) as Hstep2.
    rewrite app_nil_r in Hstep2.
    rewrite Hstep2 by (rewrite len_app; lia).
    rewrite <- len_app.
    apply QueryGetCountResponse_Unmarshal_loop_end.
Qed.

(** X21.  [Unmarshal] of what [Marshal] returns for two responses, one after the
    other, merges them: the count of the later one is kept, unless it is
    zero and so not on the wire. *)
Theorem QueryGetCountResponse_Unmarshal_concat
    (a b m0 : QueryGetCountResponse) (bsa bsb : list byte) :
  - 2 ^ 63 ≤ TotalCount a < 2 ^ 63 →
  - 2 ^ 63 ≤ TotalCount b < 2 ^ 63 →
  QueryGetCountResponse_Marshal (Some a) = Done bsa →
  QueryGetCountResponse_Marshal (Some b) = Done bsb →
  QueryGetCountResponse_Unmarshal (Some m0) (bsa ++ bsb)
  = (Some (if TotalCount b =? 0 then
             if TotalCount a =? 0 then m0 else a
           else b), Done ()).
Proof.
  intros Ha Hb Hbsa Hbsb.
  rewrite QueryGetCountResponse_Marshal_bytes in Hbsa, Hbsb.
  injection Hbsa as <-. injection Hbsb as <-. by apply Unmarshal_concat.
Qed.

Lemma skip_step_spec a b s :
  0 ≤ s →
  skip_step a b s
  = Z.lor a ((λ _, 0) (Z.shiftl (Z.land (byte_val b) 127) s)).
Proof. intros. unfold skip_step. by rewrite Z.lor_0_r. Qed.

(** [skipQuery] on an input that starts with the encoding of a response
    with a count returns the length of that encoding. *)
Lemma skipQuery_bytes m post :
  TotalCount m ≠ 0 →
  len (QueryGetCountResponse_bytes m ++ post) < 2 ^ 63 →
  skipQuery (QueryGetCountResponse_bytes m ++ post)
  = Done (len (QueryGetCountResponse_bytes m)).
Proof.
  intros Hnz. unfold QueryGetCountResponse_bytes.
  destruct (Z.eqb_spec (TotalCount m) 0) as [|_]; [done|].
  pose proof (to_uint64_range (TotalCount m)) as Hr.
  set (v := to_uint64 (TotalCount m)) in *.
  cbn [app]. intros Hlen. unfold skipQuery. cbn [length].
  rewrite skipQuery_loop_unfold.
  pose proof (len_nonneg (varint_bytes 9 v ++ post)).
  pose proof (len_nonneg (varint_bytes 9 v)).
  assert ((0 <? len (x08 :: varint_bytes 9 v ++ post)) = true) as ->
    by (rewrite len_cons; lia).
  assert (varint_loop wire_step 10 (x08 :: varint_bytes 9 v ++ post) 0 0 0
          = (8, 1, Done ())) as ->.
  { by apply (varint_loop_last to_uint64 wire_step wire_step_spec
                10 8 [] (varint_bytes 9 v ++ post) 0 0). }
  cbn [mbind pb_result_bind]. change (to_int (Z.land 8 7)) with 0.
  unfold skipQuery_field. cbn [Z.eqb].
  assert (varint_loop skip_step 10 (x08 :: varint_bytes 9 v ++ post) 1 0 0
          = (0, len (x08 :: varint_bytes 9 v), Done ())) as ->.
  { pose proof (varint_loop_bytes (λ _, 0) skip_step (λ _ _, eq_refl)
                  skip_step_spec 9 v 10 [x08] post 0 0) as Hread.
    cbn [app] in Hread. change (len [x08]) with 1 in Hread.
    change (7 * (Z.of_nat 9 + 1)) with 70 in Hread.
    rewrite Hread; try lia. by rewrite len_cons. }
  cbn [mbind pb_result_bind].
  assert ((len (x08 :: varint_bytes 9 v) <? 0) = false) as ->
    by (rewrite len_cons; lia).
  done.
Qed.

(** X22.  [Unmarshal] of a request accepts the encoding of every response: the
    count is an unknown field for it, which it skips. *)
Theorem QueryGetCountRequest_Unmarshal_skips_count
    (r : option QueryGetCountRequest) (m : QueryGetCountResponse) :
  ∃ bs,
    QueryGetCountResponse_Marshal (Some m) = Done bs
    ∧ QueryGetCountRequest_Unmarshal r bs = Done ().
Proof.
  exists (QueryGetCountResponse_bytes m).
  split; [apply QueryGetCountResponse_Marshal_bytes|].
  unfold QueryGetCountRequest_Unmarshal.
  pose proof (QueryGetCountResponse_bytes_len m) as Hlen.
  pose proof (QueryGetCountResponse_Marshal_Size_bounds m) as Hsize.
  destruct (Z.eq_dec (TotalCount m) 0) as [Hz|Hnz].
  { assert (QueryGetCountResponse_bytes m = []) as ->.
    { unfold QueryGetCountResponse_bytes.
      by assert ((TotalCount m =? 0) = true) as -> by lia. }
    apply (QueryGetCountRequest_Unmarshal_loop_end 0 []). }
  pose proof (skipQuery_bytes m [] Hnz) as Hskip.
  rewrite app_nil_r in Hskip. specialize (Hskip ltac:(lia)).
  assert (∃ tl, QueryGetCountResponse_bytes m = x08 :: tl) as [tl Htl].
  { unfold QueryGetCountResponse_bytes.
    assert ((TotalCount m =? 0) = false) as -> by lia. by eexists. }
  set (bs := QueryGetCountResponse_bytes m) in *.
  assert (1 ≤ len bs)
    by (rewrite Htl, len_cons; pose proof (len_nonneg tl); lia).
  destruct (length bs) as [|n] eqn:Hn; [unfold len in *; lia|].
  rewrite QueryGetCountRequest_Unmarshal_loop_unfold. cbv zeta.
  assert ((0 <? len bs) = true) as -> by lia.
  assert (varint_loop wire_step 10 bs 0 0 0 = (8, 1, Done ())) as ->.
  { rewrite Htl.
    apply (varint_loop_last to_uint64 wire_step wire_step_spec
             10 8 [] tl 0 0); [done|done|].
    change ([] ++ to_uint8 8 :: tl) with (x08 :: tl). rewrite <- Htl. lia. }
  cbn [mbind pb_result_bind].
  change (to_int (Z.land 8 7)) with 0.
  change (to_int32 (Z.shiftr 8 3)) with 1.
  cbn [Z.eqb Z.leb Z.compare].
  unfold skip_field. cbv zeta. rewrite slice_from_drop by lia.
  cbn [mbind pb_result_bind]. change (Z.to_nat 0) with 0%nat.
  rewrite drop_0, Hskip. cbn [mbind pb_result_bind].
  rewrite Z.add_0_l. unfold to_int. rewrite to_int64_id by lia.
  assert ((len bs <? 0) = false) as -> by lia. cbn [orb].
  assert ((len bs <? len bs) = false) as -> by lia.
  apply QueryGetCountRequest_Unmarshal_loop_end.
Qed.

(** ** A varint that does not end *)

Lemma varint_loop_overlong step : ∀ bs b2 pre post s a,
  Forall (λ b, 128 ≤ byte_val b) bs →
  0 ≤ s → 64 ≤ s + 7 * len bs →
  (length bs ≤ b2)%nat →
  len (pre ++ bs ++ post) < 2 ^ 63 →
  (varint_loop step b2 (pre ++ bs ++ post) (len pre) s a).2
  = Failed ErrIntOverflowQuery.
Proof.
  induction bs as [|b bs IH]; intros b2 pre post s a Hbs Hs Hs' Hb Hlen;
    rewrite varint_loop_unfold.
  - change (len []) with 0 in Hs'.
    by assert ((64 <=? s) = true) as -> by lia.
  - destruct (Z.leb_spec 64 s); [done|].
    apply Forall_cons in Hbs as [Hb0 Hbs].
    rewrite len_cons in Hs'. cbn [app] in *. rewrite len_middle in Hlen.
    pose proof (len_nonneg pre). pose proof (len_nonneg (bs ++ post)).
    assert ((len (pre ++ b :: bs ++ post) <=? len pre) = false) as ->
      by (rewrite len_middle; lia).
    rewrite load_app.
    assert ((byte_val b <? 128) = false) as -> by lia.
    destruct b2 as [|b2]; [simpl in Hb; lia|].
    unfold to_int. rewrite to_int64_id by lia.
    replace (len pre + 1) with (len (pre ++ [b]))
      by (rewrite len_app; done).
    rewrite (cons_middle b pre), (assoc (++) pre).
    apply IH; try done; try lia.
    + simpl in Hb. lia.
    + rewrite <- (assoc (++) pre). cbn [app]. rewrite len_middle. lia.
Qed.

(** X23.  A count whose varint goes on past its tenth byte is refused by
    [Unmarshal] with [ErrIntOverflowQuery], whatever follows. *)
Theorem QueryGetCountResponse_Unmarshal_overlong
    (m0 : QueryGetCountResponse) (bs post : list byte) :
  length bs = 10%nat →
  Forall (λ b, 128 ≤ byte_val b) bs →
  len (x08 :: bs ++ post) < 2 ^ 63 →
  ∃ m',
    QueryGetCountResponse_Unmarshal (Some m0) (x08 :: bs ++ post)
    = (Some m', Failed ErrIntOverflowQuery).
Proof.
  intros Hten Hbs Hlen. unfold QueryGetCountResponse_Unmarshal.
  cbn [length]. rewrite QueryGetCountResponse_Unmarshal_loop_unfold.
  cbv zeta.
  pose proof (len_nonneg (bs ++ post)).
  assert ((0 <? len (x08 :: bs ++ post)) = true) as ->
    by (rewrite len_cons; lia).
  assert (varint_loop wire_step 10 (x08 :: bs ++ post) 0 0 0
          = (8, 1, Done ())) as ->.
  { by apply (varint_loop_last to_uint64 wire_step wire_step_spec
                10 8 [] (bs ++ post) 0 0). }
  change (to_int (Z.land 8 7)) with 0.
  change (to_int32 (Z.shiftr 8 3)) with 1.
  cbn [Z.eqb Z.leb Z.compare negb].
  pose proof (varint_loop_overlong count_step bs 10 [x08] post 0 0 Hbs)
    as Hover.
  change ([x08] ++ bs ++ post) with (x08 :: bs ++ post) in Hover.
  change (len [x08]) with 1 in Hover.
  specialize (Hover ltac:(lia) ltac:(unfold len; lia) ltac:(lia) Hlen).
  destruct (varint_loop count_step 10 (x08 :: bs ++ post) 1 0 0)
    as [[count i] r].
  cbn [snd] in Hover. subst r. by eexists.
Qed.

(** ** The size of a zigzag varint *)

Lemma lxor_ones_64 a : 0 ≤ a < 2 ^ 64 → Z.lxor a (2 ^ 64 - 1) = 2 ^ 64 - 1 - a.
Proof.
  intros Ha.
  assert (2 ^ 64 - 1 - a = to_uint64 (Z.lnot a)) as ->.
  { unfold to_uint64, Z.lnot. apply Z.mod_unique with (-1); lia. }
  apply Z.bits_inj'. intros i Hi.
  rewrite Z.lxor_spec, to_uint64_testbit, Z.lnot_spec by done.
  change (2 ^ 64 - 1) with (Z.ones 64).
  rewrite Z.testbit_ones_nonneg by lia.
  destruct (Z.ltb_spec i 64); cbn [andb].
  - by rewrite xorb_true_r.
  - rewrite xorb_false_r, <- (to_uint64_id a), to_uint64_testbit by done.
    by assert ((i <? 64) = false) as -> by lia.
Qed.

(** X24.  [sozQuery] of the bits of an [int64] is the size of the varint of its
    zigzag code: [2 n] for [n] from 0 on and [- 2 n - 1] for [n] below 0. *)
Theorem sozQuery_zigzag (n : Z) :
  - 2 ^ 63 ≤ n < 2 ^ 63 →
  sozQuery (to_uint64 n) = sovQuery (if n <? 0 then - 2 * n - 1 else 2 * n).
Proof.
  intros Hn. unfold sozQuery. f_equal.
  rewrite to_int64_to_uint64, to_int64_id by done.
  rewrite Z.shiftl_mul_pow2, Z.shiftr_div_pow2 by lia.
  change (2 ^ 1) with 2.
  destruct (Z.ltb_spec n 0).
  - assert (to_uint64 n = n + 2 ^ 64) as ->.
    { unfold to_uint64. symmetry. apply Z.mod_unique with (-1); lia. }
    assert (to_uint64 ((n + 2 ^ 64) * 2) = 2 * n + 2 ^ 64) as ->.
    { unfold to_uint64. symmetry. apply Z.mod_unique with 1; lia. }
    assert (n / 2 ^ 63 = -1) as ->.
    { symmetry. apply Z.div_unique with (n + 2 ^ 63); lia. }
    change (to_uint64 (-1)) with (2 ^ 64 - 1).
    rewrite lxor_ones_64 by lia. rewrite to_uint64_id; lia.
  - rewrite (to_uint64_id n) by lia.
    rewrite Z.div_small by lia.
    change (to_uint64 0) with 0. rewrite Z.lxor_0_r.
    rewrite (to_uint64_id (n * 2)) by lia. rewrite to_uint64_id; lia.
Qed.

(** ** The properties at work on concrete messages *)

Lemma sovQuery_groups_witness :
  (0 ≤ 300 ∧ 1 ≤ 2) ∧ (sovQuery 300 ≤ 2 ↔ 300 < 2 ^ (7 * 2)).
Proof.
  split; [lia|]. apply (sovQuery_groups 300 2); lia.
Defined.

Lemma encodeVarintQuery_read_back_witness :
  (0 ≤ 300 < 2 ^ 64
   ∧ sovQuery 300 ≤ 3 ≤ len [x00; x00; x00]
   ∧ len [x00; x00; x00] < 2 ^ 63)
  ∧ ∃ dAtA',
      encodeVarintQuery [x00; x00; x00] 3 300 = Done (dAtA', 3 - sovQuery 300)
      ∧ length dAtA' = length [x00; x00; x00]
      ∧ take (Z.to_nat (3 - sovQuery 300)) dAtA'
        = take (Z.to_nat (3 - sovQuery 300)) [x00; x00; x00]
      ∧ drop (Z.to_nat 3) dAtA' = drop (Z.to_nat 3) [x00; x00; x00]
      ∧ varint_loop wire_step 10 dAtA' (3 - sovQuery 300) 0 0
        = (300, 3, Done ()).
Proof.
  split; [by vm_compute|].
  apply (encodeVarintQuery_read_back [x00; x00; x00] 3 300); by vm_compute.
Defined.

Lemma QueryGetCountResponse_round_trip_witness :
  - 2 ^ 63 ≤ TotalCount {| TotalCount := 300 |} < 2 ^ 63
  ∧ ∃ bs,
      QueryGetCountResponse_Marshal (Some {| TotalCount := 300 |}) = Done bs
      ∧ QueryGetCountResponse_Unmarshal (Some {| TotalCount := 0 |}) bs
        = (Some {| TotalCount := 300 |}, Done ())
      ∧ ∀ m0, QueryGetCountResponse_Unmarshal (Some m0) bs
              = (Some (if TotalCount {| TotalCount := 300 |} =? 0 then m0
                       else {| TotalCount := 300 |}), Done ()).
Proof.
  split; [by vm_compute|].
  apply (QueryGetCountResponse_round_trip {| TotalCount := 300 |}).
  by vm_compute.
Defined.

Lemma QueryGetCountResponse_Size_negative_witness :
  - 2 ^ 63 ≤ TotalCount {| TotalCount := -1 |} < 0
  ∧ QueryGetCountResponse_Size (Some {| TotalCount := -1 |}) = 11.
Proof.
  split; [by vm_compute|].
  apply (QueryGetCountResponse_Size_negative {| TotalCount := -1 |}).
  by vm_compute.
Defined.

Lemma QueryGetCountResponse_MarshalToSizedBuffer_end_witness :
  QueryGetCountResponse_Size (Some {| TotalCount := 300 |})
  ≤ len [x01; x02; x03; x04; x05]
  ∧ ∃ bs,
      QueryGetCountResponse_Marshal (Some {| TotalCount := 300 |}) = Done bs
      ∧ QueryGetCountResponse_MarshalToSizedBuffer
          (Some {| TotalCount := 300 |}) [x01; x02; x03; x04; x05]
        = Done (take (Z.to_nat (len [x01; x02; x03; x04; x05] - len bs))
                  [x01; x02; x03; x04; x05] ++ bs, len bs).
Proof.
  split; [by vm_compute|].
  apply (QueryGetCountResponse_MarshalToSizedBuffer_end
           {| TotalCount := 300 |} [x01; x02; x03; x04; x05]).
  by vm_compute.
Defined.

Lemma QueryGetCountResponse_MarshalToSizedBuffer_short_witness :
  len [x01; x02] < QueryGetCountResponse_Size (Some {| TotalCount := 300 |})
  ∧ ∃ i, i < 0
         ∧ QueryGetCountResponse_MarshalToSizedBuffer
             (Some {| TotalCount := 300 |}) [x01; x02]
           = Crash (IndexOutOfRangeAt i (len [x01; x02])).
Proof.
  split; [by vm_compute|].
  apply (QueryGetCountResponse_MarshalToSizedBuffer_short
           {| TotalCount := 300 |} [x01; x02]).
  by vm_compute.
Defined.

Lemma QueryGetCountResponse_XXX_Marshal_exact_witness :
  len [x01; x02; x03]
  = QueryGetCountResponse_Size (Some {| TotalCount := 300 |})
  ∧ QueryGetCountResponse_XXX_Marshal (λ _ _ _, Unfinished)
      (Some {| TotalCount := 300 |}) [x01; x02; x03] false
    = QueryGetCountResponse_Marshal (Some {| TotalCount := 300 |}).
Proof.
  split; [by vm_compute|].
  apply (QueryGetCountResponse_XXX_Marshal_exact (λ _ _ _, Unfinished)
           {| TotalCount := 300 |} [x01; x02; x03]).
  by vm_compute.
Defined.

Lemma QueryGetCountResponse_XXX_Marshal_oversized_witness :
  2 * QueryGetCountResponse_Size (Some {| TotalCount := 300 |})
  ≤ len [x01; x02; x03; x04; x05; x06]
  ∧ QueryGetCountResponse_XXX_Marshal (λ _ _ _, Unfinished)
      (Some {| TotalCount := 300 |}) [x01; x02; x03; x04; x05; x06] false
    = Done [x01; x02; x03]
  ∧ QueryGetCountResponse_Marshal (Some {| TotalCount := 300 |})
    = Done [x08; xac; x02]
  ∧ QueryGetCountResponse_XXX_Marshal (λ _ _ _, Unfinished)
      (Some {| TotalCount := 300 |}) [x01; x02; x03; x04; x05; x06] false
    ≠ Done [x08; xac; x02].
Proof.
  split; [by vm_compute|].
  destruct (QueryGetCountResponse_XXX_Marshal_oversized (λ _ _ _, Unfinished)
              {| TotalCount := 300 |} [x01; x02; x03; x04; x05; x06])
    as (Hres & Hcmp); [by vm_compute|].
  split; [exact Hres|]. split; [by vm_compute|].
  destruct (Hcmp [x08; xac; x02]) as (_ & _ & Hother); [by vm_compute|].
  apply Hother; by vm_compute.
Defined.

Lemma QueryGetCountResponse_Unmarshal_no_panic_witness :
  len [x08; xac; x02; x0c] < 2 ^ 63
  ∧ ∃ m',
      QueryGetCountResponse_Unmarshal (Some {| TotalCount := 7 |})
        [x08; xac; x02; x0c]
      = (Some m', Done ())
      ∨ ∃ e, QueryGetCountResponse_Unmarshal (Some {| TotalCount := 7 |})
               [x08; xac; x02; x0c]
             = (Some m', Failed e).
Proof.
  split; [by vm_compute|].
  apply (QueryGetCountResponse_Unmarshal_no_panic {| TotalCount := 7 |}
           [x08; xac; x02; x0c]).
  by vm_compute.
Defined.

Lemma skipQuery_no_panic_witness :
  len [x09; x01; x02] < 2 ^ 63
  ∧ ((∃ n, skipQuery [x09; x01; x02] = Done n ∧ 0 < n < 2 ^ 63)
     ∨ ∃ e, skipQuery [x09; x01; x02] = Failed e)
  ∧ ∀ m, QueryGetCountRequest_Unmarshal m [x09; x01; x02] = Done ()
         ∨ ∃ e, QueryGetCountRequest_Unmarshal m [x09; x01; x02] = Failed e.
Proof.
  split; [by vm_compute|].
  apply (skipQuery_no_panic [x09; x01; x02]).
  by vm_compute.
Defined.

Lemma QueryGetCountResponse_Unmarshal_truncated_witness :
  (- 2 ^ 63 ≤ TotalCount {| TotalCount := 300 |} < 2 ^ 63
   ∧ QueryGetCountResponse_Marshal (Some {| TotalCount := 300 |})
     = Done [x08; xac; x02]
   ∧ (0 < 2 < length [x08; xac; x02])%nat)
  ∧ ∃ m',
      QueryGetCountResponse_Unmarshal (Some {| TotalCount := 7 |})
        (take 2 [x08; xac; x02])
      = (Some m', Failed io_ErrUnexpectedEOF).
Proof.
  split; [split; [by vm_compute|split; [by vm_compute|simpl; lia]]|].
  apply (QueryGetCountResponse_Unmarshal_truncated {| TotalCount := 300 |}
           {| TotalCount := 7 |} [x08; xac; x02] 2);
    [by vm_compute|by vm_compute|simpl; lia].
Defined.

Lemma QueryGetCountResponse_Unmarshal_concat_witness :
  (- 2 ^ 63 ≤ TotalCount {| TotalCount := 300 |} < 2 ^ 63
   ∧ - 2 ^ 63 ≤ TotalCount {| TotalCount := 5 |} < 2 ^ 63
   ∧ QueryGetCountResponse_Marshal (Some {| TotalCount := 300 |})
     = Done [x08; xac; x02]
   ∧ QueryGetCountResponse_Marshal (Some {| TotalCount := 5 |})
     = Done [x08; x05])
  ∧ QueryGetCountResponse_Unmarshal (Some {| TotalCount := 7 |})
      ([x08; xac; x02] ++ [x08; x05])
    = (Some {| TotalCount := 5 |}, Done ()).
Proof.
  split; [by vm_compute|].
  apply (QueryGetCountResponse_Unmarshal_concat {| TotalCount := 300 |}
           {| TotalCount := 5 |} {| TotalCount := 7 |}
           [x08; xac; x02] [x08; x05]); by vm_compute.
Defined.

Lemma QueryGetCountResponse_Unmarshal_overlong_witness :
  (length (replicate 10 xff) = 10%nat
   ∧ Forall (λ b, 128 ≤ byte_val b) (replicate 10 xff)
   ∧ len (x08 :: replicate 10 xff ++ [x01]) < 2 ^ 63)
  ∧ ∃ m',
      QueryGetCountResponse_Unmarshal (Some {| TotalCount := 7 |})
        (x08 :: replicate 10 xff ++ [x01])
      = (Some m', Failed ErrIntOverflowQuery).
Proof.
  assert (Forall (λ b, 128 ≤ byte_val b) (replicate 10 xff)) as Hbs
    by (apply Forall_replicate; by vm_compute).
  split; [split; [reflexivity|split; [exact Hbs|by vm_compute]]|].
  apply (QueryGetCountResponse_Unmarshal_overlong {| TotalCount := 7 |}
           (replicate 10 xff) [x01]); [reflexivity|exact Hbs|by vm_compute].
Defined.

Lemma sozQuery_zigzag_witness :
  - 2 ^ 63 ≤ -3 < 2 ^ 63
  ∧ sozQuery (to_uint64 (-3))
    = sovQuery (if -3 <? 0 then - 2 * -3 - 1 else 2 * -3).
Proof.
  split; [by vm_compute|]. apply (sozQuery_zigzag (-3)). by vm_compute.
Defined.
